(** * The blob server's cache and the model loader's download loop

    A shallow embedding of the Go code of the blob server (the HTTP front
    end, [GetBlob], [downloadBlob], [downloadJob.run], [downloadFromSource],
    [writeToFile], the GCS store) and of the model loader's retrying
    download ([ModelLoader.downloadToFile]).

    The programs are effectful: they read and write the local file system,
    talk to a bucket and to an origin over HTTP, and share a map of running
    jobs.  They are embedded in a state monad over a [World] that holds the
    file system, the bucket and the jobs map.  Every call of a primitive of
    the operating system, of the network or of a client library advances a
    clock; what the outside world answers at that tick (a failure, the random
    part of a temporary name, an HTTP reply) is read from an [Env], over which
    the theorems quantify.  Effects that leave no state behind (log lines,
    requests, sleeps) are collected as a list of [Event]s.

    What the model leaves out: directories (the file system holds regular
    files only, so the open of a path that is a directory, and what
    [http.ServeFile] does with one, are outside it); contexts and their
    cancellation; the [Close] calls whose result the code drops (of readers,
    clients and response bodies); the key-value pairs of log lines.  A call
    of [downloadBlob] runs as a whole; each of its two locked regions is a
    definition of its own, and a world in which a job is registered stands
    for the moment at which another caller is between the two. *)

From stdpp Require Import gmap strings list.
From Stdlib Require Import ZArith Lia DecimalString DecimalNat.
From Stdlib.Strings Require Import Byte Ascii String.

Open Scope string_scope.
Open Scope list_scope.
Open Scope Z_scope.

(** ** Errors *)

(** Go errors as the code builds and inspects them.  [Errorf] is
    [fmt.Errorf] with a format that has no [%w], [Wrapf] one whose last
    verb is [%w]; the formats are the source's. *)
Inductive error : Type :=
| ENOENT
| EEXIST
| ErrClosed
| ErrObjectNotExist
| EIO (what : string)
| Errorf (format : string) (args : list string)
| Wrapf (format : string) (args : list string) (cause : error).

#[global] Instance error_eq_dec : EqDecision error.
Proof.
  intros x; induction x; intros y; destruct y;
    try (right; discriminate); try (left; reflexivity).
  - destruct (decide (what = what0)); [left | right]; congruence.
  - destruct (decide (format = format0)); [|right; congruence].
    destruct (decide (args = args0)); [left | right]; congruence.
  - destruct (decide (format = format0)); [|right; congruence].
    destruct (decide (args = args0)); [|right; congruence].
    destruct (IHx y); [left | right]; congruence.
Defined.

(** [errors.Is]: the error itself or one of the errors it wraps. *)
Fixpoint errors_Is (err target : error) : bool :=
  if bool_decide (err = target) then true
  else match err with
       | Wrapf _ _ cause => errors_Is cause target
       | _ => false
       end.

(** [os.IsNotExist] looks at the error of the system call only; it does not
    follow [%w]. *)
Definition os_IsNotExist (err : error) : bool :=
  match err with
  | ENOENT => true
  | _ => false
  end.

(** ** The world *)

Record downloadJob := mkJob {
  Hash : string;
  DestinationPath : string
}.

(** [fs] holds the regular files, by path, with their content.  Directories
    are not in it: the directories in which the programs make their files
    are taken to be there, and no path is taken to name a directory. *)
Record World := mkWorld {
  fs : gmap string (list byte);
  gcs : gmap string (list byte);
  jobs : gmap string downloadJob;
  clock : nat
}.

Inductive Event : Type :=
| EvLog (msg : string)
| EvCreateTemp (dir name : string)
| EvHTTPDo (method url : string)
| EvGCSRead (bucket key : string)
| EvGCSAttrs (bucket key : string)
| EvGCSWrite (bucket key : string)
| EvSleep (seconds : Z).

Record HttpReply := mkReply {
  StatusCode : Z;
  Status : string;
  Body : list byte
}.

(** What the outside world does.  [fault t] is the error with which the
    primitive called at tick [t] fails, if it does. *)
Record Env := mkEnv {
  fault : nat -> option error;
  temp_random : nat -> list string;
  short_count : nat -> nat;
  http_reply : nat -> string -> HttpReply;
  bad_url : string -> option error
}.

Definition tick (w : World) : World :=
  mkWorld (fs w) (gcs w) (jobs w) (S (clock w)).

Definition with_fs (f : gmap string (list byte)) (w : World) : World :=
  mkWorld f (gcs w) (jobs w) (clock w).

Definition with_gcs (g : gmap string (list byte)) (w : World) : World :=
  mkWorld (fs w) g (jobs w) (clock w).

Definition with_jobs (j : gmap string downloadJob) (w : World) : World :=
  mkWorld (fs w) (gcs w) j (clock w).

(** ** The monad *)

Definition M (A : Type) : Type := World -> A * World * list Event.

Definition ret {A} (a : A) : M A := fun w => (a, w, []).

Definition bind {A B} (m : M A) (k : A -> M B) : M B :=
  fun w =>
    let '(a, w1, e1) := m w in
    let '(b, w2, e2) := k a w1 in
    (b, w2, e1 ++ e2).

Definition emit (e : Event) : M unit := fun w => (tt, w, [e]).

Declare Scope go_scope.
Delimit Scope go_scope with go.
Notation "'let*' p ':=' m 'in' k" := (bind m (fun p => k))
  (at level 10, p pattern, m at level 100, k at level 200) : go_scope.
Notation "m ';;' k" := (bind m (fun _ => k))
  (at level 100, k at level 200, right associativity) : go_scope.
Open Scope go_scope.

Definition when (b : bool) (m : M unit) : M unit :=
  if b then m else ret tt.

(** klog's [log.Info] and [log.Error]: the message is kept, the
    key-value pairs are not. *)
Definition log_Info (msg : string) : M unit := emit (EvLog msg).
Definition log_Error (msg : string) : M unit := emit (EvLog msg).

Definition slash : ascii := "/"%char.

Definition absent (f : gmap string (list byte)) (name : string) : bool :=
  match f !! name with
  | None => true
  | Some _ => false
  end.

(** An open [os.File]: its name and whether [Close] has been called. *)
Record File := mkFile {
  fname : string;
  fclosed : bool
}.

(** ** Strings *)

(** [strings.Split] with a separator of one character: one more token than
    there are separators. *)
Fixpoint split_on (is_sep : ascii -> bool) (s : string) : list string :=
  match s with
  | EmptyString => [EmptyString]
  | String c r =>
      if is_sep c then EmptyString :: split_on is_sep r
      else match split_on is_sep r with
           | t :: ts => String c t :: ts
           | [] => [String c EmptyString]
           end
  end.

Definition strings_Split (s : string) (sep : ascii) : list string :=
  split_on (Ascii.eqb sep) s.

Definition strings_TrimPrefix (s pre : string) : string :=
  if String.prefix pre s
  then String.substring (String.length pre) (String.length s - String.length pre) s
  else s.

Definition strings_HasSuffix (s suffix : string) : bool :=
  let n := String.length s in
  let m := String.length suffix in
  (m <=? n)%nat && String.eqb (String.substring (n - m) m s) suffix.

(** [containsDotDot] of net/http: some element between slashes or
    backslashes is "..". *)
Definition isSlashRune (c : ascii) : bool :=
  Ascii.eqb c "/"%char || Ascii.eqb c "\"%char.

Definition containsDotDot (v : string) : bool :=
  existsb (String.eqb "..") (split_on isSlashRune v).

(** ** Paths *)

(** The part of a path up to its last slash, the slash included. *)
Fixpoint upto_last_slash (s : string) : option string :=
  match s with
  | EmptyString => None
  | String c r =>
      match upto_last_slash r with
      | Some p => Some (String c p)
      | None => if Ascii.eqb c slash then Some (String c EmptyString) else None
      end
  end.

(** The elements of a path that [filepath.Clean] keeps, [kept] holding
    those kept so far, the last one first: empty elements and "." go, a
    ".." takes the element before it with it, and a ".." with nothing
    before it goes when the path is rooted and stays when it is not. *)
Fixpoint clean_elems (rooted : bool) (elems kept : list string) : list string :=
  match elems with
  | [] => rev kept
  | e :: rest =>
      if String.eqb e EmptyString || String.eqb e "." then
        clean_elems rooted rest kept
      else if String.eqb e ".." then
        match kept with
        | top :: below =>
            if String.eqb top ".." then clean_elems rooted rest (e :: kept)
            else clean_elems rooted rest below
        | [] =>
            if rooted then clean_elems rooted rest []
            else clean_elems rooted rest [e]
        end
      else clean_elems rooted rest (e :: kept)
  end.

(** [filepath.Clean] on a system whose separator is the slash. *)
Definition filepath_Clean (path : string) : string :=
  let rooted := String.prefix "/" path in
  let body :=
    String.concat "/" (clean_elems rooted (split_on (Ascii.eqb slash) path) []) in
  if rooted then "/" +:+ body
  else if decide (body = EmptyString) then "."
  else body.

(** [filepath.Dir]: the path up to its last slash, cleaned. *)
Definition filepath_Dir (path : string) : string :=
  filepath_Clean (default EmptyString (upto_last_slash path)).

Fixpoint ends_with_slash (s : string) : bool :=
  match s with
  | EmptyString => false
  | String c EmptyString => Ascii.eqb c slash
  | String _ r => ends_with_slash r
  end.

(** The name [os.CreateTemp] builds from the directory, the pattern (here
    without a star) and a random string. *)
Definition temp_name (dir pattern random : string) : string :=
  if ends_with_slash dir then dir +:+ pattern +:+ random
  else dir +:+ "/" +:+ pattern +:+ random.

(** [filepath.Join] of two elements: the elements from the first one that
    is not empty on, joined by a slash and cleaned; the empty path when both
    are empty. *)
Definition filepath_Join (dir elem : string) : string :=
  if decide (dir = EmptyString) then
    if decide (elem = EmptyString) then EmptyString else filepath_Clean elem
  else filepath_Clean (dir +:+ "/" +:+ elem).

(** A name of a file in a directory: one path element that is not empty,
    "." or "..".  Joined to a directory, any other string gives the
    directory itself, a directory above it, or a path through a
    subdirectory. *)
Definition file_name (name : string) : bool :=
  negb (String.eqb name EmptyString) && negb (String.eqb name ".")
  && negb (String.eqb name "..")
  && negb (existsb (Ascii.eqb slash) (list_ascii_of_string name)).

(** ** The registry of known blobs *)

(** The fields [Hash] and [URL] of the Go struct; [Hash] is also a field of
    [downloadJob]. *)
Record knownBlob := mkKnownBlob {
  kb_Hash : string;
  kb_URL : string
}.

Definition knownBlobs : list knownBlob := [
  mkKnownBlob "77ebb031649ac7a16b89b4078feb197d56a61941b703a980233069a2670c811b"
    "https://huggingface.co/unsloth/Llama-3.3-70B-Instruct-GGUF/resolve/main/Llama-3.3-70B-Instruct-Q6_K/Llama-3.3-70B-Instruct-Q6_K-00001-of-00002.gguf";
  mkKnownBlob "f50428a8c9912e949f5273174e66c9febdc7cd21617595de2dc0e5c9df536434"
    "https://huggingface.co/unsloth/Llama-3.3-70B-Instruct-GGUF/resolve/main/Llama-3.3-70B-Instruct-Q6_K/Llama-3.3-70B-Instruct-Q6_K-00002-of-00002.gguf";
  mkKnownBlob "ecb6908345e7a10be94511eae715b6b6eadbc518b7c1dd0fd5ba8816b62b4dc9"
    "https://huggingface.co/unsloth/gemma-3-12b-it-GGUF/resolve/main/gemma-3-12b-it-Q4_K_M.gguf"
].

(** The loop of [SourceForBlob]: every entry is visited, a matching one
    overwrites [source]. *)
Fixpoint SourceForBlob_loop (blobs : list knownBlob) (hash source : string)
  : string :=
  match blobs with
  | [] => source
  | kb :: rest =>
      SourceForBlob_loop rest hash
        (if decide (kb_Hash kb = hash) then kb_URL kb else source)
  end.

Section Programs.

Variable env : Env.

(** ** Primitives of the operating system *)

(** [os.Open] of a path that is not a directory: of a regular file, or of
    a path at which there is nothing. *)
Definition os_Open (name : string) : M (File + error) := fun w =>
  match fault env (clock w) with
  | Some e => (inr e, tick w, [])
  | None =>
      if absent (fs w) name then (inr ENOENT, tick w, [])
      else (inl (mkFile name false), tick w, [])
  end.

(** [os.CreateTemp]: the first of the random names that is free is created
    empty; the call fails when none is. *)
Definition os_CreateTemp (dir pattern : string) : M (File + error) := fun w =>
  match fault env (clock w) with
  | Some e => (inr e, tick w, [])
  | None =>
      match List.find (absent (fs w))
                      (map (temp_name dir pattern) (temp_random env (clock w))) with
      | Some name =>
          (inl (mkFile name false),
           tick (with_fs (<[name := []]> (fs w)) w),
           [EvCreateTemp dir name])
      | None => (inr EEXIST, tick w, [])
      end
  end.

(** [io.Copy] of a stream into an open file.  When it fails, some prefix of
    the stream has been written. *)
Definition io_Copy (dst : File) (src : list byte) : M (Z * option error) := fun w =>
  match fault env (clock w) with
  | Some e =>
      let k := Nat.min (short_count env (clock w)) (List.length src) in
      ((Z.of_nat k, Some e), tick (with_fs (<[fname dst := take k src]> (fs w)) w), [])
  | None =>
      ((Z.of_nat (List.length src), None),
       tick (with_fs (<[fname dst := src]> (fs w)) w), [])
  end.

(** [Close] of an [os.File]: a second call reports [os.ErrClosed]. *)
Definition file_Close (f : File) : M (option error * File) := fun w =>
  if fclosed f then ((Some ErrClosed, f), w, [])
  else match fault env (clock w) with
       | Some e => ((Some e, mkFile (fname f) true), tick w, [])
       | None => ((None, mkFile (fname f) true), tick w, [])
       end.

(** [os.Rename]: all or nothing. *)
Definition os_Rename (oldpath newpath : string) : M (option error) := fun w =>
  match fault env (clock w) with
  | Some e => (Some e, tick w, [])
  | None =>
      match fs w !! oldpath with
      | None => (Some ENOENT, tick w, [])
      | Some data =>
          (None, tick (with_fs (<[newpath := data]> (delete oldpath (fs w))) w), [])
      end
  end.

(** [os.Remove]. *)
Definition os_Remove (name : string) : M (option error) := fun w =>
  match fault env (clock w) with
  | Some e => (Some e, tick w, [])
  | None =>
      if absent (fs w) name then (Some ENOENT, tick w, [])
      else (None, tick (with_fs (delete name (fs w)) w), [])
  end.

(** ** writeToFile *)

(** The two deferred functions of [writeToFile], in the order in which they
    run: the one deferred last, closing the file, first. *)
Definition deferred_cleanup (tempFile : File)
    (shouldDeleteTempFile shouldCloseTempFile : bool) : M unit :=
  when shouldCloseTempFile
    (let* (cerr, _) := file_Close tempFile in
     match cerr with
     | Some _ => log_Error "closing temp file"
     | None => ret tt
     end) ;;
  when shouldDeleteTempFile
    (let* rerr := os_Remove (fname tempFile) in
     match rerr with
     | Some _ => log_Error "removing temp file"
     | None => ret tt
     end).

Definition writeToFile (src : list byte) (destinationPath : string)
  : M (Z * option error) :=
  let dir := filepath_Dir destinationPath in
  let* created := os_CreateTemp dir "download" in
  match created with
  | inr err => ret (0, Some (Wrapf "creating temp file: %w" [] err))
  | inl tempFile =>
      let* (n, cperr) := io_Copy tempFile src in
      match cperr with
      | Some err =>
          deferred_cleanup tempFile true true ;;
          ret (n, Some (Wrapf "downloading from upstream source: %w" [] err))
      | None =>
          let* (clerr, tempFile) := file_Close tempFile in
          match clerr with
          | Some err =>
              deferred_cleanup tempFile true true ;;
              ret (n, Some (Wrapf "closing temp file: %w" [] err))
          | None =>
              let* rnerr := os_Rename (fname tempFile) destinationPath in
              match rnerr with
              | Some err =>
                  deferred_cleanup tempFile true false ;;
                  ret (n, Some (Wrapf "renaming temp file: %w" [] err))
              | None =>
                  deferred_cleanup tempFile false false ;;
                  ret (n, None)
              end
          end
      end
  end.

(** ** The network and the bucket *)

(** An HTTP request as far as the programs look at it: its method and the
    path of its URL.  It has no query and no range or conditional header. *)
Record Request := mkRequest {
  Method : string;
  Path : string
}.

(** [http.NewRequestWithContext]: fails on a URL that does not parse. *)
Definition http_NewRequest (method url : string) : M (Request + error) :=
  match bad_url env url with
  | Some e => ret (inr e)
  | None => ret (inl (mkRequest method url))
  end.

(** [(&http.Client{}).Do]: one request to the origin. *)
Definition http_Do (req : Request) : M (HttpReply + error) := fun w =>
  match fault env (clock w) with
  | Some e => (inr e, tick w, [EvHTTPDo (Method req) (Path req)])
  | None =>
      (inl (http_reply env (clock w) (Path req)), tick w,
       [EvHTTPDo (Method req) (Path req)])
  end.

(** [storage.NewClient]. *)
Definition storage_NewClient : M (option error) := fun w =>
  match fault env (clock w) with
  | Some e => (Some e, tick w, [])
  | None => (None, tick w, [])
  end.

(** [client.Bucket(b).Object(k).NewReader]: the object's bytes, or
    [storage.ErrObjectNotExist] when the bucket has no such object. *)
Definition gcs_NewReader (bucket key : string) : M (list byte + error) := fun w =>
  match fault env (clock w) with
  | Some e => (inr e, tick w, [EvGCSRead bucket key])
  | None =>
      match gcs w !! key with
      | None => (inr ErrObjectNotExist, tick w, [EvGCSRead bucket key])
      | Some data => (inl data, tick w, [EvGCSRead bucket key])
      end
  end.

(** [obj.Attrs]: whether the object is there. *)
Definition gcs_Attrs (bucket key : string) : M (unit + error) := fun w =>
  match fault env (clock w) with
  | Some e => (inr e, tick w, [EvGCSAttrs bucket key])
  | None =>
      match gcs w !! key with
      | None => (inr ErrObjectNotExist, tick w, [EvGCSAttrs bucket key])
      | Some _ => (inl tt, tick w, [EvGCSAttrs bucket key])
      end
  end.

(** [io.Copy] of an open local file into the object writer: the bytes are
    buffered by the writer, nothing is visible in the bucket yet. *)
Definition gcs_Copy (src : File) : M (list byte * option error) := fun w =>
  let data := default [] (fs w !! fname src) in
  match fault env (clock w) with
  | Some e => ((take (short_count env (clock w)) data, Some e), tick w, [])
  | None => ((data, None), tick w, [])
  end.

(** [Close] of the object writer commits the object. *)
Definition gcs_Writer_Close (bucket key : string) (data : list byte)
  : M (option error) := fun w =>
  match fault env (clock w) with
  | Some e => (Some e, tick w, [])
  | None =>
      (None, tick (with_gcs (<[key := data]> (gcs w)) w), [EvGCSWrite bucket key])
  end.

(** ** The blob cache *)

Record gcsStore := mkGcsStore {
  Bucket : string
}.

(** The [jobs] map of the Go struct is shared and mutated: it lives in the
    [World].  The field [gcsStore] of the struct is [store] here, the name
    being taken by the record. *)
Record blobCache := mkBlobCache {
  BaseDir : string;
  store : gcsStore
}.

Definition SourceForBlob (hash : string) : string + error :=
  let source := SourceForBlob_loop knownBlobs hash EmptyString in
  if decide (source = EmptyString) then inr (Errorf "blob %q not known" [hash])
  else inl source.

Definition gcsURL (s : gcsStore) (objectKey : string) : string :=
  "gs://" +:+ Bucket s +:+ "/" +:+ objectKey.

Definition gcsStore_Download (s : gcsStore) (hash destinationPath : string)
  : M (option error) :=
  let objectKey := hash in
  let* client := storage_NewClient in
  match client with
  | Some err => ret (Some (Wrapf "creating GCS storage client: %w" [] err))
  | None =>
      log_Info "downloading blob from GCS" ;;
      let* r := gcs_NewReader (Bucket s) objectKey in
      match r with
      | inr err =>
          ret (Some (Wrapf "opening object from GCS %q: %w" [gcsURL s objectKey] err))
      | inl r =>
          let* (n, werr) := writeToFile r destinationPath in
          match werr with
          | Some err => ret (Some (Wrapf "downloading from GCS: %w" [] err))
          | None => log_Info "downloaded blob from GCS" ;; ret None
          end
      end
  end.

Definition gcsStore_Upload (s : gcsStore) (sourcePath hash : string)
  : M (option error) :=
  let* opened := os_Open sourcePath in
  match opened with
  | inr err => ret (Some (Wrapf "opening source file: %w" [] err))
  | inl src =>
      let objectKey := hash in
      let* client := storage_NewClient in
      match client with
      | Some err => ret (Some (Wrapf "creating GCS storage client: %w" [] err))
      | None =>
          let* attrs := gcs_Attrs (Bucket s) objectKey in
          let upload : M (option error) :=
            log_Info "uploading blob to GCS" ;;
            let* (data, cperr) := gcs_Copy src in
            match cperr with
            | Some err => ret (Some (Wrapf "uploading to GCS: %w" [] err))
            | None =>
                let* clerr := gcs_Writer_Close (Bucket s) objectKey data in
                match clerr with
                | Some err => ret (Some (Wrapf "closing GCS writer: %w" [] err))
                | None => log_Info "uploaded blob to GCS" ;; ret None
                end
            end in
          match attrs with
          | inr err =>
              if errors_Is err ErrObjectNotExist then
                log_Info "object not found in GCS" ;; upload
              else
                ret (Some (Wrapf "getting object attributes for %q: %w"
                                 [gcsURL s objectKey] err))
          | inl _ => log_Info "object already exists in GCS" ;; ret None
          end
      end
  end.

Definition downloadFromSource (j : downloadJob) (sourceURL : string)
  : M (option error) :=
  log_Info "downloading blob" ;;
  let* made := http_NewRequest "GET" sourceURL in
  match made with
  | inr err => ret (Some (Wrapf "creating request: %w" [] err))
  | inl req =>
      let* done := http_Do req in
      match done with
      | inr err => ret (Some (Wrapf "doing request: %w" [] err))
      | inl resp =>
          if negb (StatusCode resp =? 200) then
            ret (Some (Errorf "unexpected status downloading from upstream source: %v"
                              [Status resp]))
          else
            let* (n, werr) := writeToFile (Body resp) (DestinationPath j) in
            match werr with
            | Some err => ret (Some err)
            | None => log_Info "downloaded blob from source" ;; ret None
            end
      end
  end.

(** The part of [downloadJob.run] after the durable tier has reported that
    it does not have the object. *)
Definition originTier (j : downloadJob) (c : blobCache) : M (option error) :=
  let hash := Hash j in
  let destinationPath := DestinationPath j in
  log_Info "blob not found in GCS cache; will download from upstream" ;;
  match SourceForBlob hash with
  | inr err => ret (Some (Wrapf "getting source for blob %q: %w" [hash] err))
  | inl source =>
      let* derr := downloadFromSource j source in
      match derr with
      | Some err => ret (Some (Wrapf "downloading blob %q: %w" [hash] err))
      | None =>
          let* uerr := gcsStore_Upload (store c) destinationPath hash in
          match uerr with
          | Some err => ret (Some (Wrapf "uploading to GCS: %w" [] err))
          | None => ret None
          end
      end
  end.

Definition downloadJob_run (j : downloadJob) (c : blobCache) : M (option error) :=
  let hash := Hash j in
  let destinationPath := DestinationPath j in
  let* derr := gcsStore_Download (store c) hash destinationPath in
  match derr with
  | Some err =>
      if errors_Is err ErrObjectNotExist then originTier j c
      else ret (Some (Wrapf "downloading from GCS: %w" [] err))
  | None => ret None
  end.

(** The first locked region of [downloadBlob]: look the job up, register a
    new one when there is none. *)
Definition admit_job (hash destinationPath : string) : M (downloadJob + error) :=
  fun w =>
    match jobs w !! hash with
    | Some _ => (inr (Errorf "download of %q already in progress" [hash]), w, [])
    | None =>
        let job := mkJob hash destinationPath in
        (inl job, with_jobs (<[hash := job]> (jobs w)) w, [])
    end.

(** The second locked region: [delete(c.jobs, hash)]. *)
Definition remove_job (hash : string) : M unit :=
  fun w => (tt, with_jobs (delete hash (jobs w)) w, []).

Definition downloadBlob (c : blobCache) (hash destinationPath : string)
  : M (option error) :=
  let* admitted := admit_job hash destinationPath in
  match admitted with
  | inr err => ret (Some err)
  | inl job =>
      let* err := downloadJob_run job c in
      remove_job hash ;;
      ret err
  end.

Definition GetBlob (c : blobCache) (hash : string) : M (File + error) :=
  let localPath := filepath_Join (BaseDir c) hash in
  let* opened := os_Open localPath in
  match opened with
  | inl f => ret (inl f)
  | inr err =>
      if negb (os_IsNotExist err) then
        ret (inr (Wrapf "opening blob %q: %w" [hash] err))
      else
        let* derr := downloadBlob c hash localPath in
        match derr with
        | Some err => ret (inr (Wrapf "downloading blob %q: %w" [hash] err))
        | None => os_Open localPath
        end
  end.

(** ** The HTTP front end *)

(** What a reply carries: a text, the bytes of a file, or, for a redirect,
    no body and the [Location] header. *)
Inductive ResponseBody : Type :=
| Text (msg : string)
| Bytes (data : list byte)
| Redirect (location : string).

Record Response := mkResponse {
  status : Z;
  body : ResponseBody
}.

(** [http.Error]. *)
Definition http_Error (msg : string) (code : Z) : Response :=
  mkResponse code (Text msg).

(** [localRedirect] of net/http. *)
Definition localRedirect (newPath : string) : Response :=
  mkResponse 301 (Redirect newPath).

(** [http.ServeFile] for a request without range or conditional headers and
    a name that is a regular file or is not there: a path with a ".."
    element is refused, a path that ends in "/index.html" is redirected to
    "./", and otherwise the file is sent.  The listings and redirects of
    [http.ServeFile] for a name that is a directory are not part of it. *)
Definition http_ServeFile (r : Request) (name : string) : M Response := fun w =>
  if containsDotDot (Path r) then (http_Error "invalid URL path" 400, w, [])
  else if strings_HasSuffix (Path r) "/index.html" then
    (localRedirect "./", w, [])
  else match fs w !! name with
       | Some data => (mkResponse 200 (Bytes data), w, [])
       | None => (http_Error "404 page not found" 404, w, [])
       end.

Definition serveGETBlob (c : blobCache) (r : Request) (hash : string)
  : M Response :=
  let* got := GetBlob c hash in
  match got with
  | inr err =>
      log_Error "error getting blob" ;;
      ret (http_Error "internal server error" 500)
  | inl f =>
      let p := fname f in
      log_Info "serving blob %q" ;;
      let* resp := http_ServeFile r p in
      let* _ := file_Close f in
      ret resp
  end.

Definition ServeHTTP (c : blobCache) (r : Request) : M Response :=
  let tokens := strings_Split (strings_TrimPrefix (Path r) "/") slash in
  if (Z.of_nat (List.length tokens) =? 1) then
    if decide (Method r = "GET") then
      let hash := hd EmptyString tokens in
      serveGETBlob c r hash
    else ret (http_Error "method not allowed" 405)
  else ret (http_Error "not found" 404).

(** ** The model loader *)

Record ModelLoader := mkModelLoader {
  blobserverURL : string;
  maxDownloadAttempts : Z
}.

Definition downloadToWriter (url : string) (w : File) : M (option error) :=
  log_Info "downloading from url" ;;
  let* made := http_NewRequest "GET" url in
  match made with
  | inr err => ret (Some (Wrapf "creating request: %w" [] err))
  | inl req =>
      let* done := http_Do req in
      match done with
      | inr err => ret (Some (Wrapf "doing request: %w" [] err))
      | inl resp =>
          if negb (StatusCode resp =? 200) then
            ret (Some (Errorf "unexpected status downloading from upstream source: %v"
                              [Status resp]))
          else
            let* (n, cperr) := io_Copy w (Body resp) in
            match cperr with
            | Some err => ret (Some (Wrapf "downloading from upstream source: %w" [] err))
            | None => log_Info "downloaded blob" ;; ret None
            end
      end
  end.

Definition downloadToFileNoRetry (l : ModelLoader) (url destPath : string)
  : M (option error) :=
  let dir := filepath_Dir destPath in
  let* created := os_CreateTemp dir "model" in
  match created with
  | inr err => ret (Some (Wrapf "creating temp file: %w" [] err))
  | inl tempFile =>
      let* dlerr := downloadToWriter url tempFile in
      match dlerr with
      | Some err =>
          deferred_cleanup tempFile true true ;;
          ret (Some (Wrapf "downloading from %q: %w" [url] err))
      | None =>
          let* (clerr, tempFile) := file_Close tempFile in
          match clerr with
          | Some err =>
              deferred_cleanup tempFile true true ;;
              ret (Some (Wrapf "closing temp file: %w" [] err))
          | None =>
              let* rnerr := os_Rename (fname tempFile) destPath in
              match rnerr with
              | Some err =>
                  deferred_cleanup tempFile true false ;;
                  ret (Some (Wrapf "renaming temp file: %w" [] err))
              | None =>
                  deferred_cleanup tempFile false false ;;
                  ret None
              end
          end
      end
  end.

(** The [for] loop of [downloadToFile].  [fuel] bounds the number of
    iterations of the model; [None] is returned when it runs out.
    [attempt] stays below the bound of the loader, far from the end of
    Go's [int]. *)
Fixpoint downloadToFile_loop (fuel : nat) (l : ModelLoader)
    (url destPath : string) (attempt : Z) : M (option (option error)) :=
  match fuel with
  | O => ret None
  | S fuel' =>
      let attempt := attempt + 1 in
      let* err := downloadToFileNoRetry l url destPath in
      match err with
      | None => ret (Some None)
      | Some err =>
          if attempt >=? maxDownloadAttempts l then ret (Some (Some err))
          else
            log_Error "downloading url, will retry" ;;
            emit (EvSleep 5) ;;
            downloadToFile_loop fuel' l url destPath attempt
      end
  end.

Definition downloadToFile (fuel : nat) (l : ModelLoader) (url destPath : string)
  : M (option (option error)) :=
  downloadToFile_loop fuel l url destPath 0.

End Programs.

(** ** What a run left in its events *)

Definition logged (msg : string) (evs : list Event) : bool :=
  existsb (fun e => match e with
                    | EvLog m => String.eqb m msg
                    | _ => false
                    end) evs.

Definition origin_requests (evs : list Event) : list string :=
  flat_map (fun e => match e with
                     | EvHTTPDo _ url => [url]
                     | _ => []
                     end) evs.

Definition temp_dirs (evs : list Event) : list string :=
  flat_map (fun e => match e with
                     | EvCreateTemp dir _ => [dir]
                     | _ => []
                     end) evs.

Definition temp_files (evs : list Event) : list string :=
  flat_map (fun e => match e with
                     | EvCreateTemp _ name => [name]
                     | _ => []
                     end) evs.

Definition upload_requests (evs : list Event) : list string :=
  flat_map (fun e => match e with
                     | EvGCSAttrs _ key => [key]
                     | EvGCSWrite _ key => [key]
                     | _ => []
                     end) evs.

Definition sleeps (evs : list Event) : list Z :=
  flat_map (fun e => match e with
                     | EvSleep s => [s]
                     | _ => []
                     end) evs.

(** The line with which [downloadJob.run] enters the origin tier. *)
Definition fell_through (evs : list Event) : bool :=
  logged "blob not found in GCS cache; will download from upstream" evs.

(** How many separators a string holds. *)
Fixpoint count_sep (is_sep : ascii -> bool) (s : string) : nat :=
  match s with
  | EmptyString => O
  | String c r => if is_sep c then S (count_sep is_sep r) else count_sep is_sep r
  end.

(** The world in which the pipeline of an admitted call starts. *)
Definition admitted_world (hash dest : string) (w : World) : World :=
  with_jobs (<[hash := mkJob hash dest]> (jobs w)) w.

(** The world an admitted call returns in, given the one its pipeline left. *)
Definition released_world (hash : string) (w : World) : World :=
  with_jobs (delete hash (jobs w)) w.

(** What a run of the loop of [downloadToFile] that has [left] attempts
    before it looks like. *)
Definition loop_outcome (env : Env) (l : ModelLoader) (url destPath : string) (left : Z)
    (r : option (option error)) (w' : World) (evs : list Event) : Prop :=
  exists res,
    r = Some res /\
    Forall (eq 5) (sleeps evs) /\
    Z.of_nat (List.length (sleeps evs)) < left /\
    (List.length (origin_requests evs) <= S (List.length (sleeps evs)))%nat /\
    (forall e, res = Some e ->
       Z.of_nat (S (List.length (sleeps evs))) = left /\
       exists wl before last,
         downloadToFileNoRetry env l url destPath wl = (Some e, w', last) /\
         evs = before ++ last /\ sleeps last = []).

(** A run of [n] attempts of the loader, from the world [w] to the world
    [w'].  Every attempt is one call of [downloadToFileNoRetry], made in the
    world the attempt before it left.  All attempts but the last returned an
    error, and each of these was followed by the line of the log and a sleep
    of 5 seconds.  [err] is what the last attempt returned. *)
Inductive attempts (env : Env) (l : ModelLoader) (url destPath : string)
  : nat -> World -> option error -> World -> list Event -> Prop :=
| attempts_last w err w' evs :
    downloadToFileNoRetry env l url destPath w = (err, w', evs) ->
    attempts env l url destPath 1 w err w' evs
| attempts_more n w e w1 e1 err w' evs :
    downloadToFileNoRetry env l url destPath w = (Some e, w1, e1) ->
    attempts env l url destPath n w1 err w' evs ->
    attempts env l url destPath (S n) w err w'
      (e1 ++ EvLog "downloading url, will retry" :: EvSleep 5 :: evs).

(** ** Paths as the spec counts them *)

(** The segments of a path in the words of the spec: the names between
    the slashes, of which "/" and the empty path have none. *)
Definition spec_path_segments (path : string) : list string :=
  List.filter (fun t => match t with
                        | EmptyString => false
                        | _ => true
                        end)
              (strings_Split path slash).

(** ** Scenarios *)

Definition gemma_hash : string :=
  "ecb6908345e7a10be94511eae715b6b6eadbc518b7c1dd0fd5ba8816b62b4dc9".

Definition gemma_url : string :=
  "https://huggingface.co/unsloth/gemma-3-12b-it-GGUF/resolve/main/gemma-3-12b-it-Q4_K_M.gguf".

Definition cache : blobCache := mkBlobCache "/cache" (mkGcsStore "models").

Definition gemma_path : string := filepath_Join (BaseDir cache) gemma_hash.

Definition gguf : list byte := [x47; x47; x55; x46].

Definition empty_world : World := mkWorld ∅ ∅ ∅ 0.

(** Another call is asking for a blob that nobody knows. *)
Definition asked_world : World :=
  mkWorld ∅ ∅ {["0badc0de" := mkJob "0badc0de" "/cache/0badc0de"]} 0.

(** A file with the name of an index page is in the local cache. *)
Definition index_world : World := mkWorld {["/cache/index.html" := gguf]} ∅ ∅ 0.

(** Another call is downloading the gemma blob. *)
Definition busy_world : World :=
  mkWorld ∅ ∅ {[gemma_hash := mkJob gemma_hash gemma_path]} 0.

(** An outside world in which the primitives called at the ticks of
    [faults] fail and the origin answers [reply]. *)
Definition scripted_env (faults : list (nat * error))
    (reply : nat -> HttpReply) : Env :=
  mkEnv (fun t => snd <$> List.find (fun f => Nat.eqb (fst f) t) faults)
        (fun _ => ["482193"])
        (fun _ => 1%nat)
        (fun t _ => reply t)
        (fun _ => None).

Definition ok_reply : HttpReply := mkReply 200 "200 OK" gguf.

Definition unavailable : HttpReply := mkReply 503 "503 Service Unavailable" [].

(** Nothing fails. *)
Definition quiet_env : Env := scripted_env [] (fun _ => ok_reply).

(** The disk gives up while the stream is copied and the file system is
    remounted read-only: the copy, the second primitive of [writeToFile],
    fails, and so does the removal, the fourth. *)
Definition failing_disk_env : Env :=
  scripted_env [(1%nat, EIO "input/output error");
                (3%nat, EIO "read-only file system")]
               (fun _ => ok_reply).

(** The local cache directory cannot be read. *)
Definition unreadable_cache_env : Env :=
  scripted_env [(0%nat, EIO "permission denied")] (fun _ => ok_reply).

(** The credentials of the store allow reads only: the commit of the
    uploaded object, the thirteenth primitive of a [GetBlob] that goes
    through all tiers, is refused. *)
Definition read_only_bucket_env : Env :=
  scripted_env [(12%nat, EIO "googleapi: Error 403: Forbidden")]
               (fun _ => ok_reply).

(** The origin is unavailable at tick [t] and well at any other time. *)
Definition flaky_origin_env (t : nat) : Env :=
  scripted_env [] (fun t' => if Nat.eqb t' t then unavailable else ok_reply).

(** ** Outside worlds in which nothing goes wrong *)

Definition no_faults (env : Env) : Prop := forall t, fault env t = None.

(** Whenever [os.CreateTemp] is called for this directory and pattern, one
    of the names it tries is free in the file system [f]. *)
Definition temp_free (env : Env) (dir pattern : string)
    (f : gmap string (list byte)) : Prop :=
  forall t,
    List.find (absent f) (map (temp_name dir pattern) (temp_random env t)) <> None.

(** Every file of [w] other than [dest] is in [w'] with the same content. *)
Definition files_kept (dest : string) (w w' : World) : Prop :=
  forall p old, p <> dest -> fs w !! p = Some old -> fs w' !! p = Some old.

(** ** Callers of downloadBlob side by side *)

(** Where a caller of [downloadBlob] stands.  The two locked regions and the
    pipeline between them are its three steps; the steps of different callers
    interleave. *)
Inductive Caller : Type :=
| Calling (hash destinationPath : string)
| Downloading (job : downloadJob)
| Finishing (job : downloadJob) (err : option error)
| Returned (err : option error).

Definition in_pipeline (caller : Caller) : option downloadJob :=
  match caller with
  | Downloading job => Some job
  | Finishing job _ => Some job
  | _ => None
  end.

Inductive caller_step (env : Env) (c : blobCache)
  : World * list Caller -> World * list Caller -> Prop :=
| step_admitted i hash dest w cs job w' evs :
    cs !! i = Some (Calling hash dest) ->
    admit_job hash dest w = (inl job, w', evs) ->
    caller_step env c (w, cs) (w', <[i := Downloading job]> cs)
| step_rejected i hash dest w cs err w' evs :
    cs !! i = Some (Calling hash dest) ->
    admit_job hash dest w = (inr err, w', evs) ->
    caller_step env c (w, cs) (w', <[i := Returned (Some err)]> cs)
| step_pipeline i job w cs err w' evs :
    cs !! i = Some (Downloading job) ->
    downloadJob_run env job c w = (err, w', evs) ->
    caller_step env c (w, cs) (w', <[i := Finishing job err]> cs)
| step_removed i job err w cs w' evs :
    cs !! i = Some (Finishing job err) ->
    remove_job (Hash job) w = (tt, w', evs) ->
    caller_step env c (w, cs) (w', <[i := Returned err]> cs).

Inductive caller_steps (env : Env) (c : blobCache)
  : World * list Caller -> World * list Caller -> Prop :=
| steps_none st : caller_steps env c st st
| steps_more st1 st2 st3 :
    caller_steps env c st1 st2 -> caller_step env c st2 st3 ->
    caller_steps env c st1 st3.

(** The jobs map and the callers agree: a caller in its pipeline has its job
    in the map, no two callers are in the pipeline for one hash, and every
    job of the map is the job of a caller in its pipeline. *)
Definition single_flight (w : World) (cs : list Caller) : Prop :=
  (forall i caller job,
     cs !! i = Some caller -> in_pipeline caller = Some job ->
     jobs w !! Hash job = Some job) /\
  (forall i i' caller caller' job job',
     cs !! i = Some caller -> cs !! i' = Some caller' ->
     in_pipeline caller = Some job -> in_pipeline caller' = Some job' ->
     Hash job = Hash job' -> i = i') /\
  (forall hash job,
     jobs w !! hash = Some job ->
     Hash job = hash /\
     exists i caller, cs !! i = Some caller /\ in_pipeline caller = Some job).

(** ** The split model of the loader *)

(** [%d] of a number that is not negative. *)
Definition fmt_d (n : nat) : string :=
  NilEmpty.string_of_uint (Nat.to_uint n).

(** [%05d] of a number that is not negative: zeros in front up to five
    characters. *)
Definition fmt_05d (n : nat) : string :=
  string_of_list_ascii (repeat "0"%char (5 - String.length (fmt_d n)))
    +:+ fmt_d n.

(** [baseName + fmt.Sprintf("-%05d-of-%05d.gguf", i+1, len(chunks))]. *)
Definition chunk_path (baseName : string) (i total : nat) : string :=
  baseName +:+ "-" +:+ fmt_05d (S i) +:+ "-of-" +:+ fmt_05d total +:+ ".gguf".

Section SplitModel.

Variable env : Env.

(** [JoinPath] of a [url.URL] followed by [String], of net/url. *)
Variable JoinPath : string -> string -> string.

(** The [range] loop of [downloadSplitModel]: [i] is the index of the first
    of [chunks], [total] is [len(chunks)] of the whole slice. *)
Fixpoint downloadSplitModel_loop (fuel : nat) (l : ModelLoader)
    (baseName : string) (total i : nat) (chunks chunkPaths : list string)
  : M (option (list string + error)) :=
  match chunks with
  | [] => ret (Some (inl chunkPaths))
  | chunk :: rest =>
      let chunkPath := chunk_path baseName i total in
      let url := JoinPath (blobserverURL l) chunk in
      let* r := downloadToFile env fuel l url chunkPath in
      match r with
      | None => ret None
      | Some (Some err) =>
          ret (Some (inr (Wrapf "downloading chunk from %q: %w" [url] err)))
      | Some None =>
          downloadSplitModel_loop fuel l baseName total (S i) rest
            (chunkPaths ++ [chunkPath])
      end
  end.

Definition downloadSplitModel (fuel : nat) (l : ModelLoader)
    (chunks : list string) (baseName : string)
  : M (option (list string + error)) :=
  downloadSplitModel_loop fuel l baseName (List.length chunks) 0 chunks [].

End SplitModel.

(** ** The launcher of llama-server *)

(** What the launcher was started with: its environment, the flags of its
    command line as [flag.Parse] reads them, the arguments left over, and
    the directory [os.TempDir] answers. *)
Record Process := mkProcess {
  getenv : string -> string;
  environ : list string;
  flag_given : string -> option string;
  flag_args : list string;
  temp_dir : string
}.

(** [flag.StringVar] followed by [flag.Parse]: the value of the flag when it
    is on the command line, the default otherwise. *)
Definition flag_StringVar (p : Process) (name value : string) : string :=
  default value (flag_given p name).

Definition strings_Join (elems : list string) (sep : string) : string :=
  String.concat sep elems.

Definition log_Warning (msg : string) : M unit := emit (EvLog msg).

(** [%d] of an [int]. *)
Definition fmt_int (z : Z) : string :=
  if z <? 0 then "-" +:+ fmt_d (Z.to_nat (- z)) else fmt_d (Z.to_nat z).

(** [fmt.Sprintf(hostTemplate, i)] for a worker index that is not
    negative. *)
Definition hostTemplate (i : nat) : string :=
  "rpc-server-" +:+ fmt_d i +:+ ".rpc-server".

Module Launcher.

Section Outside.

Variable env : Env.

(** [JoinPath] of a [url.URL] followed by [String], of net/url. *)
Variable JoinPath : string -> string -> string.

(** [url.Parse]; the URL is kept as the string it prints as. *)
Variable url_Parse : string -> string + error.

(** What [net.LookupIP] answers at a tick for a host: the addresses, as
    their [String] prints them, or an error. *)
Variable LookupIP : nat -> string -> list string + error.

(** [Start] and [Wait] of the command built by [exec.CommandContext] from a
    path, its arguments and its environment. *)
Variable cmd_Start : string -> list string -> list string -> M (option error).
Variable cmd_Wait : M (option error).

Definition net_LookupIP (host : string) : M (list string + error) :=
  fun w => (LookupIP (clock w) host, tick w, []).

(** The inner [for] of [run]: the host is looked up until it resolves.
    [fuel] bounds the number of iterations, [None] is a loop cut short. *)
Fixpoint lookup_loop (fuel : nat) (host : string) (attempt : Z)
  : M (option (string + error)) :=
  match fuel with
  | O => ret None
  | S fuel' =>
      let maxAttempts := 100 in
      let attempt := attempt + 1 in
      let* r := net_LookupIP host in
      match r with
      | inr err =>
          if attempt >=? maxAttempts then
            ret (Some (inr (Wrapf "looking up host %q: %w" [host] err)))
          else
            log_Warning "retrying lookup of host %q: %v" ;;
            emit (EvSleep 3) ;;
            lookup_loop fuel' host attempt
      | inl ips =>
          match ips with
          | [] =>
              ret (Some (inr (Errorf "host %q resolved, but did not return IPs"
                                     [host])))
          | ip :: _ =>
              log_Info "resolved host %q to %v" ;;
              ret (Some (inl ip))
          end
      end
  end.

(** The outer [for] of [run] from worker [i] on, with [count] workers to
    go: [workerCount - i]. *)
Fixpoint hosts_loop (fuel count i : nat) (rpcPort : Z)
    (rpcHosts : list string) : M (option (list string + error)) :=
  match count with
  | O => ret (Some (inl rpcHosts))
  | S count' =>
      let host := hostTemplate i in
      let* r := lookup_loop fuel host 0 in
      match r with
      | None => ret None
      | Some (inr err) => ret (Some (inr err))
      | Some (inl host) =>
          hosts_loop fuel count' (S i) rpcPort
            (rpcHosts ++ [host +:+ ":" +:+ fmt_int rpcPort])
      end
  end.

Definition is_url (s : string) : bool :=
  String.prefix "http://" s || String.prefix "https://" s.

Definition run (fuel : nat) (p : Process) : M (option (option error)) :=
  let rpcPort := 50052 in
  let workerCount := 4%nat in
  let maxDownloadAttempts := 5 in
  let llmModel := flag_StringVar p "llm-model" (getenv p "LLM_MODEL") in
  let llmChunks := flag_StringVar p "llm-chunks" (getenv p "LLM_CHUNKS") in
  let blobserver := getenv p "BLOBSERVER" in
  let blobserver :=
    if decide (blobserver = EmptyString) then "http://blobserver"
    else blobserver in
  let blobserver := flag_StringVar p "blobserver" blobserver in
  match url_Parse blobserver with
  | inr err =>
      ret (Some (Some (Wrapf "parsing blobserver url %q: %w" [blobserver] err)))
  | inl blobserverURL =>
      let modelLoader := mkModelLoader blobserverURL maxDownloadAttempts in
      let* model1 :=
        (if is_url llmModel then
           let tmpDir := temp_dir p in
           let localPath := filepath_Join tmpDir "model.bin" in
           let* r := downloadToFile env fuel modelLoader llmModel localPath in
           match r with
           | None => ret None
           | Some (Some err) =>
               ret (Some (inr (Wrapf "downloading model: %w" [] err)))
           | Some None => ret (Some (inl localPath))
           end
         else ret (Some (inl llmModel))) in
      match model1 with
      | None => ret None
      | Some (inr err) => ret (Some (Some err))
      | Some (inl llmModel) =>
          let* model2 :=
            (if decide (llmChunks = EmptyString) then ret (Some (inl llmModel))
             else
               let tmpDir := temp_dir p in
               let basePath := filepath_Join tmpDir "model" in
               let chunks := strings_Split llmChunks ","%char in
               let* r := downloadSplitModel env JoinPath fuel modelLoader chunks
                           basePath in
               match r with
               | None => ret None
               | Some (inr err) =>
                   ret (Some (inr (Wrapf "downloading model chunks: %w" [] err)))
               | Some (inl chunkPaths) =>
                   ret (Some (inl (hd EmptyString chunkPaths)))
               end) in
          match model2 with
          | None => ret None
          | Some (inr err) => ret (Some (Some err))
          | Some (inl llmModel) =>
              let* resolved := hosts_loop fuel workerCount 0 rpcPort [] in
              match resolved with
              | None => ret None
              | Some (inr err) => ret (Some (Some err))
              | Some (inl rpcHosts) =>
                  let args :=
                    ["--model"; llmModel; "--host"; "0.0.0.0"; "--jinja";
                     "--verbose"; "--rpc"; strings_Join rpcHosts ","]
                    ++ flag_args p in
                  log_Info "starting llama-server with args: %v" ;;
                  let cmdEnv :=
                    environ p ++ ["LLAMA_ARG_FLASH_ATTN=yes";
                                  "LLAMA_ARG_N_GPU_LAYERS=999"] in
                  let* started := cmd_Start "/llama-server" args cmdEnv in
                  match started with
                  | Some err =>
                      ret (Some (Some (Wrapf "starting llama-server: %w" [] err)))
                  | None =>
                      let* waited := cmd_Wait in
                      match waited with
                      | Some err =>
                          ret (Some (Some
                            (Wrapf "llama-server exited with error: %w" [] err)))
                      | None => ret (Some None)
                      end
                  end
              end
          end
      end
  end.

End Outside.

End Launcher.

(** ** More scenarios *)

(** The gemma blob is in the local cache. *)
Definition warm_world : World := mkWorld {[gemma_path := gguf]} ∅ ∅ 0.

(** The gemma blob is in the bucket and not in the local cache. *)
Definition stored_world : World := mkWorld ∅ {[gemma_hash := gguf]} ∅ 0.

(** The gemma blob is in the local cache and in the bucket. *)
Definition synced_world : World :=
  mkWorld {[gemma_path := gguf]} {[gemma_hash := gguf]} ∅ 0.

(** Two callers ask for the gemma blob at the same time. *)
Definition two_callers : list Caller :=
  [Calling gemma_hash gemma_path; Calling gemma_hash gemma_path].

Definition gemma_job : downloadJob := mkJob gemma_hash gemma_path.

Definition loader : ModelLoader := mkModelLoader "http://blobserver" 5.

(** [JoinPath] on a base without a path and an element without dots or
    slashes. *)
Definition join_url (base elem : string) : string := base +:+ "/" +:+ elem.

Definition getenv_of (vars : list (string * string)) (name : string) : string :=
  default EmptyString
    (snd <$> List.find (fun kv => String.eqb (fst kv) name) vars).

(** A pod of the launcher whose model comes in two chunks. *)
Definition pod : Process :=
  mkProcess (getenv_of [("LLM_CHUNKS", "0a1b,2c3d")])
            ["HOME=/root"]
            (fun _ => None)
            ["--ctx-size"; "8192"]
            "/tmp".

Definition parse_any (s : string) : string + error := inl s.

(** The name service knows no worker before tick [ready] and every worker
    from then on. *)
Definition slow_dns (ready : nat) (t : nat) (host : string)
  : list string + error :=
  if (t <? ready)%nat then inr (EIO "no such host") else inl ["10.8.0.4"].

(** A llama-server that starts and exits without error. *)
Definition llama_starts (path : string) (args cmdEnv : list string)
  : M (option error) := ret None.

Definition llama_exits : M (option error) := ret None.

(** * Properties *)

Lemma logged_app msg e1 e2 :
  logged msg (e1 ++ e2) = logged msg e1 || logged msg e2.
Proof. apply existsb_app. Qed.

Lemma origin_requests_app e1 e2 :
  origin_requests (e1 ++ e2) = origin_requests e1 ++ origin_requests e2.
Proof. apply flat_map_app. Qed.

Lemma temp_dirs_app e1 e2 : temp_dirs (e1 ++ e2) = temp_dirs e1 ++ temp_dirs e2.
Proof. apply flat_map_app. Qed.

Lemma temp_files_app e1 e2 :
  temp_files (e1 ++ e2) = temp_files e1 ++ temp_files e2.
Proof. apply flat_map_app. Qed.

Lemma fell_through_app e1 e2 :
  fell_through (e1 ++ e2) = fell_through e1 || fell_through e2.
Proof. apply logged_app. Qed.

Lemma upload_requests_app e1 e2 :
  upload_requests (e1 ++ e2) = upload_requests e1 ++ upload_requests e2.
Proof. apply flat_map_app. Qed.

Lemma sleeps_app e1 e2 : sleeps (e1 ++ e2) = sleeps e1 ++ sleeps e2.
Proof. apply flat_map_app. Qed.

(** ** writeToFile *)

Lemma find_absent_Some f names name :
  List.find (absent f) names = Some name -> f !! name = None.
Proof.
  intros H. apply find_some in H as [_ H].
  unfold absent in H. destruct (f !! name); [discriminate | reflexivity].
Qed.

Lemma absent_insert f name (x : list byte) : absent (<[name := x]> f) name = false.
Proof. unfold absent. by rewrite lookup_insert_eq. Qed.

Lemma find_absent_name f dir pattern randoms name :
  List.find (absent f) (map (temp_name dir pattern) randoms) = Some name ->
  f !! name = None /\ exists random, name = temp_name dir pattern random.
Proof.
  intros H. split; [by eapply find_absent_Some|].
  apply find_some in H as [H _]. apply in_map_iff in H as (r & <- & _).
  by exists r.
Qed.

(** One step of a run: the answer of the outside world at the next tick. *)
Ltac ask_env :=
  match goal with
  | |- context [fault ?e ?t] =>
      let F := fresh "F" in destruct (fault e t) eqn:F
  | |- context [List.find ?p ?l] =>
      let F := fresh "Hfind" in
      destruct (List.find p l) eqn:F;
      [apply find_absent_name in F as [F [? ->]]|]
  end.

Ltac use_lookups :=
  repeat match goal with
         | H : ?m !! ?k = _ |- context [?m !! ?k] => rewrite H
         end.

Ltac run_step :=
  cbn;
  rewrite ?lookup_insert_eq, ?absent_insert;
  use_lookups;
  cbn.

Ltac tidy_fs :=
  rewrite ?insert_insert_eq;
  rewrite ?delete_insert_id by assumption.

Section WriteToFile.

Variable env : Env.

(** Every way [writeToFile] can end. *)
Lemma writeToFile_cases src dest w :
  let '(n, err, w', evs) := writeToFile env src dest w in
  gcs w' = gcs w /\ jobs w' = jobs w /\
  origin_requests evs = [] /\ upload_requests evs = [] /\ sleeps evs = [] /\
  fell_through evs = false /\
  (temp_files evs = [] /\ temp_dirs evs = [] /\ err <> None \/
   exists random,
     temp_files evs = [temp_name (filepath_Dir dest) "download" random] /\
     temp_dirs evs = [filepath_Dir dest] /\
     fs w !! temp_name (filepath_Dir dest) "download" random = None) /\
  match err with
  | None => n = Z.of_nat (List.length src) /\ fs w' = <[dest := src]> (fs w)
  | Some _ => logged "removing temp file" evs = false -> fs w' = fs w
  end.
Proof.
  unfold writeToFile, deferred_cleanup, when, bind, ret, log_Error, emit,
    os_CreateTemp, io_Copy, file_Close, os_Rename, os_Remove.
  repeat (run_step; try ask_env);
    repeat split; try reflexivity; try discriminate; eauto 6;
    try (intros _; tidy_fs; reflexivity).
  by tidy_fs.
Qed.

End WriteToFile.

Arguments writeToFile : simpl never.

(** ** The two remote tiers *)

Ltac call_writeToFile :=
  match goal with
  | |- context [writeToFile ?env ?src ?dest ?w] =>
      let E := fresh "E" in
      let H := fresh "H" in
      pose proof (writeToFile_cases env src dest w) as H;
      destruct (writeToFile env src dest w) as [[[? [?|]] ?] ?] eqn:E;
      destruct H as (? & ? & ? & ? & ? & ? & ? & ?)
  end.

Ltac events :=
  rewrite ?origin_requests_app, ?upload_requests_app, ?sleeps_app,
    ?temp_files_app, ?temp_dirs_app, ?fell_through_app, ?app_nil_r;
  repeat match goal with
         | H : origin_requests ?l = _ |- context [origin_requests ?l] => rewrite H
         | H : upload_requests ?l = _ |- context [upload_requests ?l] => rewrite H
         | H : sleeps ?l = _ |- context [sleeps ?l] => rewrite H
         | H : temp_files ?l = _ |- context [temp_files ?l] => rewrite H
         | H : fell_through ?l = _ |- context [fell_through ?l] => rewrite H
         end;
  rewrite ?orb_false_r, ?app_nil_r.

Ltac settle :=
  repeat split; intros; subst; cbn in *; events;
  repeat match goal with
         | H : _ /\ _ |- _ => destruct H
         end;
  try discriminate; try congruence; try tauto; eauto.

Section Tiers.

Variable env : Env.

Lemma gcsStore_Download_cases s hash dest w :
  let '(err, w', evs) := gcsStore_Download env s hash dest w in
  gcs w' = gcs w /\ jobs w' = jobs w /\
  origin_requests evs = [] /\ upload_requests evs = [] /\ sleeps evs = [] /\
  fell_through evs = false /\
  (gcs w !! hash = None ->
   fs w' = fs w /\ temp_files evs = [] /\ err <> None /\
   (fault env (clock w) = None -> fault env (S (clock w)) = None ->
    err = Some (Wrapf "opening object from GCS %q: %w" [gcsURL s hash]
                      ErrObjectNotExist))) /\
  (err = None ->
   exists data, gcs w !! hash = Some data /\ fs w' = <[dest := data]> (fs w)).
Proof.
  unfold gcsStore_Download, bind, ret, log_Info, emit, storage_NewClient,
    gcs_NewReader.
  destruct (gcs w !! hash) as [data|] eqn:G;
    repeat (run_step; try ask_env); try solve [settle].
  call_writeToFile; cbn in *; events; settle.
Qed.

Lemma gcsStore_Upload_cases s src hash w :
  let '(err, w', evs) := gcsStore_Upload env s src hash w in
  fs w' = fs w /\ jobs w' = jobs w /\
  origin_requests evs = [] /\ sleeps evs = [] /\ temp_files evs = [] /\
  fell_through evs = false /\
  (err = None -> exists data, gcs w' !! hash = Some data).
Proof.
  unfold gcsStore_Upload, bind, ret, log_Info, emit, os_Open,
    storage_NewClient, gcs_Attrs, gcs_Copy, gcs_Writer_Close.
  destruct (gcs w !! hash) as [data|] eqn:G;
    destruct (absent (fs w) src) eqn:A;
    repeat (run_step; try ask_env;
            try match goal with
              | |- context [errors_Is ?e ?t] => destruct (errors_Is e t) eqn:?
              end);
    try solve [settle].
  all: repeat split; try reflexivity; try discriminate;
    intros _; eexists; apply lookup_insert_eq.
Qed.

Lemma downloadFromSource_cases j url w :
  let reply := http_reply env (clock w) url in
  let '(err, w', evs) := downloadFromSource env j url w in
  gcs w' = gcs w /\ jobs w' = jobs w /\
  upload_requests evs = [] /\ sleeps evs = [] /\ fell_through evs = false /\
  (origin_requests evs = [] \/ origin_requests evs = [url]) /\
  (err = None ->
   StatusCode reply = 200 /\ origin_requests evs = [url] /\
   fs w' = <[DestinationPath j := Body reply]> (fs w)) /\
  (bad_url env url = None -> fault env (clock w) = None ->
   StatusCode reply <> 200 ->
   err = Some (Errorf "unexpected status downloading from upstream source: %v"
                      [Status reply]) /\
   origin_requests evs = [url] /\ temp_files evs = [] /\ fs w' = fs w).
Proof.
  unfold downloadFromSource, http_NewRequest, http_Do, bind, ret, log_Info, emit.
  destruct (bad_url env url) eqn:B; cbn; [settle|].
  destruct (fault env (clock w)) eqn:F; cbn; [settle|].
  destruct (StatusCode (http_reply env (clock w) url) =? 200) eqn:S; cbn.
  - apply Z.eqb_eq in S.
    call_writeToFile; cbn in *; events; settle.
  - apply Z.eqb_neq in S. settle.
Qed.

End Tiers.

Arguments gcsStore_Download : simpl never.
Arguments gcsStore_Upload : simpl never.
Arguments downloadFromSource : simpl never.

Ltac call_tier :=
  match goal with
  | |- context [gcsStore_Download ?env ?s ?h ?d ?w] =>
      let H := fresh "D" in
      pose proof (gcsStore_Download_cases env s h d w) as H;
      destruct (gcsStore_Download env s h d w) as [[[?|] ?] ?] eqn:?;
      destruct H as (? & ? & ? & ? & ? & ? & ? & ?)
  | |- context [downloadFromSource ?env ?j ?u ?w] =>
      let H := fresh "O" in
      pose proof (downloadFromSource_cases env j u w) as H;
      destruct (downloadFromSource env j u w) as [[[?|] ?] ?] eqn:?;
      cbv zeta in H;
      destruct H as (? & ? & ? & ? & ? & ? & ? & ?)
  | |- context [gcsStore_Upload ?env ?s ?p ?h ?w] =>
      let H := fresh "U" in
      pose proof (gcsStore_Upload_cases env s p h w) as H;
      destruct (gcsStore_Upload env s p h w) as [[[?|] ?] ?] eqn:?;
      destruct H as (? & ? & ? & ? & ? & ? & ?)
  end.

Section Pipeline.

Variable env : Env.

Lemma originTier_cases j c w :
  let '(err, w', evs) := originTier env j c w in
  jobs w' = jobs w /\ sleeps evs = [] /\ fell_through evs = true /\
  (forall e, SourceForBlob (Hash j) = inr e ->
     err = Some (Wrapf "getting source for blob %q: %w" [Hash j] e) /\
     fs w' = fs w /\ gcs w' = gcs w /\
     temp_files evs = [] /\ origin_requests evs = [] /\ upload_requests evs = []).
Proof.
  unfold originTier, bind, ret, log_Info, emit.
  destruct (SourceForBlob (Hash j)) as [source|e0] eqn:S; cbn.
  - call_tier; cbn; [settle|].
    call_tier; cbn; settle.
  - settle.
Qed.

End Pipeline.

Arguments originTier : simpl never.

Section Run.

Variable env : Env.

Lemma downloadJob_run_jobs j c w :
  jobs (downloadJob_run env j c w).1.2 = jobs w.
Proof.
  unfold downloadJob_run, bind, ret.
  call_tier; cbn; [|assumption].
  destruct (errors_Is _ _); cbn; [|assumption].
  pose proof (originTier_cases env j c w0) as HO.
  destruct (originTier env j c w0) as [[? ?] ?]; cbn.
  destruct HO as [HO _]. congruence.
Qed.

(** C3. [downloadJob.run] goes on to the origin tier exactly when the
    download from the durable store failed with an error that is
    [storage.ErrObjectNotExist]: then the run is the origin tier, started in
    the world the download left.  Any other error of the durable store is
    returned at once, wrapped; a download that succeeded returns success.
    In these two cases the run did nothing after the download: its final
    world and its events are the download's own, and the download sends no
    request to the origin and uploads nothing. *)
Theorem run_falls_through_only_on_missing_object (j : downloadJob) (c : blobCache)
    (w : World) :
  let '(derr, w1, e1) :=
    gcsStore_Download env (store c) (Hash j) (DestinationPath j) w in
  let '(err, w', evs) := downloadJob_run env j c w in
  origin_requests e1 = [] /\ upload_requests e1 = [] /\
  match derr with
  | None => (err, w', evs) = (None, w1, e1)
  | Some de =>
      if errors_Is de ErrObjectNotExist then
        let '(oerr, w2, e2) := originTier env j c w1 in
        (err, w', evs) = (oerr, w2, e1 ++ e2)
      else
        (err, w', evs) = (Some (Wrapf "downloading from GCS: %w" [] de), w1, e1)
  end /\
  (fell_through evs = true <->
   exists de, derr = Some de /\ errors_Is de ErrObjectNotExist = true).
Proof.
  unfold downloadJob_run, bind, ret.
  call_tier; cbn.
  - destruct (errors_Is e ErrObjectNotExist) eqn:Is; cbn.
    + pose proof (originTier_cases env j c w0) as HO.
      destruct (originTier env j c w0) as [[oerr w2] e2]; cbn.
      destruct HO as (_ & _ & FT & _).
      repeat split; try assumption.
      * intros _. by exists e.
      * intros _. events. reflexivity.
    + rewrite app_nil_r. repeat split; try assumption.
      * congruence.
      * intros (de & [= <-] & ?). congruence.
  - rewrite app_nil_r. repeat split; try assumption.
    + congruence.
    + intros (de & ? & _). discriminate.
Qed.

End Run.

Arguments downloadJob_run : simpl never.

(** ** The coordinator *)

Section Coordinator.

Variable env : Env.

Lemma downloadBlob_admitted c hash dest w :
  jobs w !! hash = None ->
  downloadBlob env c hash dest w =
  let '(err, w1, e1) :=
    downloadJob_run env (mkJob hash dest) c (admitted_world hash dest w) in
  (err, released_world hash w1, e1).
Proof.
  intros J. unfold downloadBlob, admit_job, remove_job, bind, ret.
  rewrite J. cbn. fold (admitted_world hash dest w).
  destruct (downloadJob_run _ _ _ _) as [[err w1] e1]. cbn.
  by rewrite app_nil_r.
Qed.

Lemma downloadBlob_rejected c hash dest w job :
  jobs w !! hash = Some job ->
  downloadBlob env c hash dest w =
  (Some (Errorf "download of %q already in progress" [hash]), w, []).
Proof.
  intros J. unfold downloadBlob, admit_job, bind, ret. by rewrite J.
Qed.

(** While an admitted call is in its pipeline, a second call for the same
    hash is turned away. *)
Lemma second_call_is_rejected c hash dest dest' w :
  downloadBlob env c hash dest' (admitted_world hash dest w) =
  (Some (Errorf "download of %q already in progress" [hash]),
   admitted_world hash dest w, []).
Proof.
  apply (downloadBlob_rejected c hash dest' _ (mkJob hash dest)).
  apply lookup_insert_eq.
Qed.

(** C1. A call of [downloadBlob] for a hash that has a job in the jobs map
    returns the "already in progress" error and changes nothing: the world
    it returns in, jobs map included, is the world it was called in, and it
    has no effect on the outside. *)
Theorem downloadBlob_already_in_progress (c : blobCache)
    (hash destinationPath : string) (w : World) (job : downloadJob) :
  jobs w !! hash = Some job ->
  downloadBlob env c hash destinationPath w =
    (Some (Errorf "download of %q already in progress" [hash]), w, []) /\
  jobs (downloadBlob env c hash destinationPath w).1.2 = jobs w /\
  jobs (downloadBlob env c hash destinationPath w).1.2 !! hash = Some job.
Proof.
  intros J. rewrite (downloadBlob_rejected c hash destinationPath w job J).
  by repeat split.
Qed.

(** C8. A call of [downloadBlob] that runs the pipeline, which it does when
    no job for the hash is registered as it is made, returns what the
    pipeline returned, whatever that is, success or failure, and in the
    world it returns in no job for the hash is registered; the jobs of the
    other hashes are as the pipeline found them. *)
Theorem downloadBlob_removes_its_job (c : blobCache)
    (hash destinationPath : string) (w : World) :
  jobs w !! hash = None ->
  let '(err, w', evs) := downloadBlob env c hash destinationPath w in
  jobs w' !! hash = None /\
  jobs w' = jobs w /\
  err = (downloadJob_run env (mkJob hash destinationPath) c
           (admitted_world hash destinationPath w)).1.1.
Proof.
  intros J. rewrite (downloadBlob_admitted c hash destinationPath w J).
  pose proof (downloadJob_run_jobs env (mkJob hash destinationPath) c
                (admitted_world hash destinationPath w)) as HJ.
  destruct (downloadJob_run _ _ _ _) as [[err w1] e1]. cbn in *.
  rewrite HJ. repeat split.
  - apply lookup_delete_eq.
  - by apply delete_insert_id.
Qed.

End Coordinator.

Arguments downloadBlob : simpl never.

(** ** GetBlob *)

Section Cache.

Variable env : Env.

Lemma os_Open_world name w r w' evs :
  os_Open env name w = (r, w', evs) -> w' = tick w /\ evs = [].
Proof.
  unfold os_Open.
  destruct (fault env (clock w)); [|destruct (absent (fs w) name)];
    intros [= <- <- <-]; by split.
Qed.

Lemma os_Open_ok name w f w' evs :
  os_Open env name w = (inl f, w', evs) ->
  fname f = name /\ exists data, fs w' !! name = Some data.
Proof.
  unfold os_Open, absent.
  destruct (fault env (clock w)); [discriminate|].
  destruct (fs w !! name) as [data|] eqn:L; [|discriminate].
  intros [= <- <- <-]. cbn. eauto.
Qed.

Lemma GetBlob_hit c hash w f w' evs :
  os_Open env (filepath_Join (BaseDir c) hash) w = (inl f, w', evs) ->
  GetBlob env c hash w = (inl f, w', evs).
Proof.
  intros E. unfold GetBlob, bind, ret. rewrite E. cbn. by rewrite app_nil_r.
Qed.

Lemma GetBlob_miss c hash w oe w1 e1 :
  os_Open env (filepath_Join (BaseDir c) hash) w = (inr oe, w1, e1) ->
  os_IsNotExist oe = true ->
  GetBlob env c hash w =
  let localPath := filepath_Join (BaseDir c) hash in
  let '(derr, w2, e2) := downloadBlob env c hash localPath w1 in
  match derr with
  | Some err => (inr (Wrapf "downloading blob %q: %w" [hash] err), w2, e1 ++ e2)
  | None =>
      let '(r, w3, e3) := os_Open env localPath w2 in
      (r, w3, e1 ++ e2 ++ e3)
  end.
Proof.
  intros E N. unfold GetBlob, bind, ret. rewrite E. cbn. rewrite N. cbn.
  destruct (downloadBlob _ _ _ _ _) as [[[err|] w2] e2]; cbn.
  - by rewrite app_nil_r.
  - destruct (os_Open env _ w2) as [[r w3] e3]. reflexivity.
Qed.

(** A file that [GetBlob] returns is there. *)
Lemma GetBlob_ok c hash w f w' evs :
  GetBlob env c hash w = (inl f, w', evs) ->
  fname f = filepath_Join (BaseDir c) hash /\
  exists data, fs w' !! fname f = Some data.
Proof.
  unfold GetBlob, bind, ret.
  destruct (os_Open env _ w) as [[[f0|oe] w1] e1] eqn:E; cbn.
  - intros [= <- <- _]. apply os_Open_ok in E as [-> ?]. by split.
  - destruct (os_IsNotExist oe); cbn; [|discriminate].
    destruct (downloadBlob _ _ _ _ _) as [[[err|] w2] e2]; cbn; [discriminate|].
    destruct (os_Open env _ w2) as [[r w3] e3] eqn:E2. cbn.
    intros [= -> <- _]. apply os_Open_ok in E2 as [-> ?]. by split.
Qed.

(** C9. When opening the local path fails, [GetBlob] goes on to the
    download only if the error is the "does not exist" one.  Any other
    error is returned at once, wrapped: the world [GetBlob] returns in is
    the one the failed open left, in which the file system, the bucket and
    the jobs map are untouched, and nothing was sent or logged. *)
Theorem GetBlob_returns_other_open_errors (c : blobCache) (hash : string)
    (w : World) (oe : error) (w1 : World) (e1 : list Event) :
  os_Open env (filepath_Join (BaseDir c) hash) w = (inr oe, w1, e1) ->
  (os_IsNotExist oe = false ->
   GetBlob env c hash w = (inr (Wrapf "opening blob %q: %w" [hash] oe), w1, e1) /\
   fs w1 = fs w /\ gcs w1 = gcs w /\ jobs w1 = jobs w /\ e1 = []) /\
  (os_IsNotExist oe = true ->
   GetBlob env c hash w =
   let localPath := filepath_Join (BaseDir c) hash in
   let '(derr, w2, e2) := downloadBlob env c hash localPath w1 in
   match derr with
   | Some err => (inr (Wrapf "downloading blob %q: %w" [hash] err), w2, e1 ++ e2)
   | None =>
       let '(r, w3, e3) := os_Open env localPath w2 in
       (r, w3, e1 ++ e2 ++ e3)
   end).
Proof.
  intros E. split.
  - intros N. apply os_Open_world in E as E'. destruct E' as [-> ->].
    repeat split. unfold GetBlob, bind, ret. rewrite E. cbn. by rewrite N.
  - intros N. exact (GetBlob_miss c hash w oe w1 e1 E N).
Qed.

End Cache.

(** ** SourceForBlob *)

Lemma SourceForBlob_loop_no_match blobs hash source :
  (forall kb, In kb blobs -> kb_Hash kb <> hash) ->
  SourceForBlob_loop blobs hash source = source.
Proof.
  revert source. induction blobs as [|kb rest IH]; intros source H; cbn.
  - reflexivity.
  - rewrite decide_False by (apply H; by left).
    apply IH. intros k Hk. apply H. by right.
Qed.

Lemma SourceForBlob_loop_app l1 l2 hash source :
  SourceForBlob_loop (l1 ++ l2) hash source =
  SourceForBlob_loop l2 hash (SourceForBlob_loop l1 hash source).
Proof.
  revert source. induction l1 as [|kb rest IH]; intros source; cbn.
  - reflexivity.
  - apply IH.
Qed.

Lemma SourceForBlob_loop_last l1 kb l2 hash source :
  kb_Hash kb = hash ->
  (forall k, In k l2 -> kb_Hash k <> hash) ->
  SourceForBlob_loop (l1 ++ kb :: l2) hash source = kb_URL kb.
Proof.
  intros Hkb Hl2. rewrite SourceForBlob_loop_app. cbn.
  rewrite decide_True by assumption.
  by apply SourceForBlob_loop_no_match.
Qed.

(** Among the entries of a list one of which matches, there is a last one
    that does. *)
Lemma last_matching_entry blobs hash :
  (exists kb, In kb blobs /\ kb_Hash kb = hash) ->
  exists l1 kb l2,
    blobs = l1 ++ kb :: l2 /\ kb_Hash kb = hash /\
    (forall k, In k l2 -> kb_Hash k <> hash).
Proof.
  induction blobs as [|b rest IH]; intros (kb & Hin & Hkb).
  - destruct Hin.
  - destruct (decide (Exists (fun k => kb_Hash k = hash) rest)) as [Hrest|Hrest];
      rewrite List.Exists_exists in Hrest.
    + destruct (IH Hrest) as (l1 & k & l2 & -> & ? & ?).
      by exists (b :: l1), k, l2.
    + destruct Hin as [<-|Hin]; [|exfalso; eauto].
      exists [], b, rest. repeat split; [assumption|].
      intros k Hk Heq. apply Hrest. eauto.
Qed.

Lemma knownBlobs_have_URLs :
  forall kb, In kb knownBlobs -> kb_URL kb <> EmptyString.
Proof.
  intros kb H. unfold knownBlobs in H. cbn in H.
  destruct H as [<-|[<-|[<-|[]]]]; discriminate.
Qed.

Lemma SourceForBlob_unknown hash :
  (forall kb, In kb knownBlobs -> kb_Hash kb <> hash) ->
  SourceForBlob hash = inr (Errorf "blob %q not known" [hash]).
Proof.
  intros H. unfold SourceForBlob.
  by rewrite (SourceForBlob_loop_no_match _ _ _ H).
Qed.

Lemma SourceForBlob_known l1 kb l2 hash :
  knownBlobs = l1 ++ kb :: l2 ->
  kb_Hash kb = hash ->
  (forall k, In k l2 -> kb_Hash k <> hash) ->
  SourceForBlob hash = inl (kb_URL kb).
Proof.
  intros Hsplit Hkb Hl2. unfold SourceForBlob.
  rewrite Hsplit, (SourceForBlob_loop_last _ _ _ _ _ Hkb Hl2).
  rewrite decide_False; [reflexivity|].
  apply knownBlobs_have_URLs. rewrite Hsplit. apply in_elt.
Qed.

(** C10. The loop of [SourceForBlob] visits the whole list: whatever
    precedes and whatever [source] held, its result is the URL of the last
    entry that carries the hash.  On the registry of the program,
    [SourceForBlob] returns the URL of the last matching entry, and it
    returns an error, the "not known" one, exactly when no entry matches. *)
Theorem SourceForBlob_last_match_wins (hash : string) :
  (forall l1 kb l2 source,
     kb_Hash kb = hash ->
     (forall k, In k l2 -> kb_Hash k <> hash) ->
     SourceForBlob_loop (l1 ++ kb :: l2) hash source = kb_URL kb) /\
  (forall l1 kb l2,
     knownBlobs = l1 ++ kb :: l2 ->
     kb_Hash kb = hash ->
     (forall k, In k l2 -> kb_Hash k <> hash) ->
     SourceForBlob hash = inl (kb_URL kb)) /\
  ((exists e, SourceForBlob hash = inr e) <->
   (forall kb, In kb knownBlobs -> kb_Hash kb <> hash)) /\
  (forall e, SourceForBlob hash = inr e -> e = Errorf "blob %q not known" [hash]).
Proof.
  split; [|split; [|split]].
  - intros l1 kb l2 source. apply SourceForBlob_loop_last.
  - intros l1 kb l2. apply SourceForBlob_known.
  - split.
    + intros [e He] kb Hin Hkb.
      destruct (last_matching_entry knownBlobs hash) as (l1 & k & l2 & S & ? & ?);
        [by exists kb|].
      rewrite (SourceForBlob_known l1 k l2 hash) in He by assumption.
      discriminate.
    + intros H. eexists. by apply SourceForBlob_unknown.
  - unfold SourceForBlob. intros e.
    destruct (decide _); [|discriminate]. by intros [= <-].
Qed.

(** ** A request through the tiers *)

Section Requests.

Variable env : Env.

(** C4. Take a call admitted for a hash whose object the durable store
    reports missing and whose origin is known.  If the fetch from the origin
    succeeds and the upload that follows fails, the pipeline returns the
    error of the upload, wrapped, and so does [downloadBlob]; [GetBlob],
    when this is the call it makes after missing the file locally, returns
    that error wrapped once more.  All the same the destination holds the
    whole body of the origin's reply. *)
Theorem upload_failure_fails_the_request (c : blobCache)
    (hash destinationPath : string) (w0 : World)
    (de : error) (w1 : World) (e1 : list Event) (source : string)
    (w2 : World) (e2 : list Event)
    (ue : error) (w3 : World) (e3 : list Event) :
  let j := mkJob hash destinationPath in
  let failure := Wrapf "uploading to GCS: %w" [] ue in
  let evs :=
    e1 ++ EvLog "blob not found in GCS cache; will download from upstream"
       :: e2 ++ e3 in
  jobs w0 !! hash = None ->
  gcsStore_Download env (store c) hash destinationPath
    (admitted_world hash destinationPath w0) = (Some de, w1, e1) ->
  errors_Is de ErrObjectNotExist = true ->
  SourceForBlob hash = inl source ->
  downloadFromSource env j source w1 = (None, w2, e2) ->
  gcsStore_Upload env (store c) destinationPath hash w2 = (Some ue, w3, e3) ->
  downloadJob_run env j c (admitted_world hash destinationPath w0)
    = (Some failure, w3, evs) /\
  downloadBlob env c hash destinationPath w0
    = (Some failure, released_world hash w3, evs) /\
  fs (released_world hash w3) !! destinationPath
    = Some (Body (http_reply env (clock w1) source)) /\
  (forall wg oe,
     destinationPath = filepath_Join (BaseDir c) hash ->
     os_Open env destinationPath wg = (inr oe, w0, []) ->
     os_IsNotExist oe = true ->
     GetBlob env c hash wg
       = (inr (Wrapf "downloading blob %q: %w" [hash] failure),
          released_world hash w3, evs)).
Proof.
  intros j failure evs J D Is S O U.
  assert (R : downloadJob_run env j c (admitted_world hash destinationPath w0)
              = (Some failure, w3, evs)).
  { unfold downloadJob_run, bind, ret. cbn. rewrite D. cbn. rewrite Is.
    unfold originTier, bind, ret, log_Info, emit. cbn.
    rewrite S. cbn. rewrite O. cbn. rewrite U. cbn.
    subst evs. by rewrite !app_nil_r. }
  assert (B : downloadBlob env c hash destinationPath w0
              = (Some failure, released_world hash w3, evs)).
  { rewrite (downloadBlob_admitted env c hash destinationPath w0 J).
    fold j. by rewrite R. }
  repeat split; try assumption.
  - pose proof (downloadFromSource_cases env j source w1) as HO.
    rewrite O in HO. cbv zeta in HO.
    destruct HO as (_ & _ & _ & _ & _ & _ & HO & _).
    destruct (HO eq_refl) as (_ & _ & Hfs).
    pose proof (gcsStore_Upload_cases env (store c) destinationPath hash w2) as HU.
    rewrite U in HU. destruct HU as (HU & _).
    cbn. rewrite HU, Hfs. apply lookup_insert_eq.
  - intros wg oe -> Hopen Hne.
    rewrite (GetBlob_miss env c hash wg oe w0 [] Hopen Hne).
    cbn. by rewrite B.
Qed.

Lemma downloadJob_run_unknown c hash dest w e0 :
  gcs w !! hash = None ->
  SourceForBlob hash = inr e0 ->
  let '(err, w', evs) := downloadJob_run env (mkJob hash dest) c w in
  err <> None /\ fs w' = fs w /\ gcs w' = gcs w /\ jobs w' = jobs w /\
  temp_files evs = [] /\ origin_requests evs = [] /\ upload_requests evs = [] /\
  (fault env (clock w) = None -> fault env (S (clock w)) = None ->
   err = Some (Wrapf "getting source for blob %q: %w" [hash] e0)).
Proof.
  intros G S. unfold downloadJob_run, bind, ret. cbn.
  call_tier; cbn;
    match goal with
    | H : gcs w !! hash = None -> _ |- _ =>
        destruct (H G) as (Hfs & Htmp & Herr & Hmiss)
    end; [|congruence].
  destruct (errors_Is e ErrObjectNotExist) eqn:Is; cbn.
  - pose proof (originTier_cases env (mkJob hash dest) c w0) as HO.
    destruct (originTier env (mkJob hash dest) c w0) as [[oerr w2] e2]; cbn.
    destruct HO as (HJ & _ & _ & HO).
    destruct (HO e0 S) as (-> & ? & ? & ? & ? & ?).
    events. settle.
  - events. repeat split; try congruence.
    intros F0 F1. specialize (Hmiss F0 F1). injection Hmiss as ->.
    cbn in Is. discriminate.
Qed.

Lemma downloadBlob_unknown c hash dest w e0 :
  gcs w !! hash = None ->
  SourceForBlob hash = inr e0 ->
  let '(err, w', evs) := downloadBlob env c hash dest w in
  err <> None /\ fs w' = fs w /\ gcs w' = gcs w /\
  temp_files evs = [] /\ origin_requests evs = [] /\ upload_requests evs = [] /\
  (jobs w !! hash = None ->
   fault env (clock w) = None -> fault env (S (clock w)) = None ->
   err = Some (Wrapf "getting source for blob %q: %w" [hash] e0)).
Proof.
  intros G S.
  destruct (jobs w !! hash) as [job|] eqn:J.
  - rewrite (downloadBlob_rejected env c hash dest w job J).
    repeat split; discriminate.
  - rewrite (downloadBlob_admitted env c hash dest w J).
    pose proof (downloadJob_run_unknown c hash dest
                  (admitted_world hash dest w) e0 G S) as H.
    destruct (downloadJob_run _ _ _ _) as [[err w1] e1].
    destruct H as (? & ? & ? & ? & ? & ? & ? & ?).
    repeat split; auto.
Qed.

(** C7, as amended.  Take a hash that is the name of a file (not empty,
    not "." and not "..", without a slash), with nothing at its local path,
    no object in the bucket and no entry in the registry.  Whatever the
    outside world does, [GetBlob] fails, and it creates nothing: the file
    system and the bucket are as they were, no temporary file was made,
    nothing was asked of the origin and nothing was uploaded.  When no
    download of the hash is running and the open of the local path, the
    client of the store and the read of the object meet no fault of their
    own, the error is the "not known" one of [SourceForBlob], wrapped by
    the pipeline and by [GetBlob].  While a download of the hash is running
    the error is the "already in progress" one of [downloadBlob] instead,
    and then nothing but the open was done.  The statement is about the
    names of files: for the empty hash, "." and ".." the local path is the
    cache directory or the one above it, which [os.Open] opens and the file
    system of this development does not hold. *)
Theorem unknown_blob_creates_nothing (c : blobCache) (hash : string) (w : World) :
  file_name hash = true ->
  fs w !! filepath_Join (BaseDir c) hash = None ->
  gcs w !! hash = None ->
  (forall kb, In kb knownBlobs -> kb_Hash kb <> hash) ->
  let '(r, w', evs) := GetBlob env c hash w in
  (exists e, r = inr e) /\
  fs w' = fs w /\ gcs w' = gcs w /\
  temp_files evs = [] /\ origin_requests evs = [] /\ upload_requests evs = [] /\
  (jobs w !! hash = None ->
   fault env (clock w) = None ->
   fault env (S (clock w)) = None ->
   fault env (S (S (clock w))) = None ->
   r = inr (Wrapf "downloading blob %q: %w" [hash]
              (Wrapf "getting source for blob %q: %w" [hash]
                 (Errorf "blob %q not known" [hash])))) /\
  (jobs w !! hash <> None ->
   fault env (clock w) = None ->
   r = inr (Wrapf "downloading blob %q: %w" [hash]
              (Errorf "download of %q already in progress" [hash])) /\
   w' = tick w /\ evs = []).
Proof.
  intros _ L G K.
  pose proof (SourceForBlob_unknown hash K) as Src.
  set (localPath := filepath_Join (BaseDir c) hash) in *.
  destruct (os_Open env localPath w) as [[[f|oe] wo] eo] eqn:E.
  { apply os_Open_world in E as E'. destruct E' as [-> ->].
    apply os_Open_ok in E as [_ [data E]]. cbn in E. congruence. }
  apply os_Open_world in E as E'. destruct E' as [-> ->].
  assert (Free : fault env (clock w) = None -> oe = ENOENT).
  { intros F. revert E. unfold os_Open, absent. rewrite F, L. congruence. }
  destruct (os_IsNotExist oe) eqn:N.
  - rewrite (GetBlob_miss env c hash w oe (tick w) [] E N). fold localPath. cbn.
    pose proof (downloadBlob_unknown c hash localPath (tick w) _ G Src) as H.
    destruct (jobs w !! hash) as [job|] eqn:J.
    + rewrite (downloadBlob_rejected env c hash localPath (tick w) job J) in *.
      cbn in *. destruct H as (? & ? & ? & ? & ? & ? & Hk).
      repeat split; eauto. intros Hn. congruence.
    + destruct (downloadBlob _ _ _ _ _) as [[[err|] w1] e1]; cbn in *;
        destruct H as (? & ? & ? & ? & ? & ? & Hk); [|congruence].
      split; [eauto|]. split; [assumption|]. split; [assumption|].
      split; [assumption|]. split; [assumption|]. split; [assumption|].
      split; [|intros Hn; congruence].
      intros _ _ F1 F2. specialize (Hk J F1 F2). congruence.
  - unfold GetBlob, bind, ret. fold localPath. rewrite E. cbn. rewrite N. cbn.
    split; [eauto|]. split; [reflexivity|]. split; [reflexivity|].
    split; [reflexivity|]. split; [reflexivity|]. split; [reflexivity|].
    split.
    + intros _ F _ _. rewrite (Free F) in N. discriminate.
    + intros _ F. rewrite (Free F) in N. discriminate.
Qed.

End Requests.

Arguments GetBlob : simpl never.

(** ** writeToFile as seen by its caller *)

(** C2, as amended.  The temporary file of [writeToFile] is created in the
    directory of the destination, under a name that was free.  When
    [writeToFile] returns no error, the destination holds the whole stream,
    nothing else in the file system has changed, and the temporary name is
    gone.  When it returns an error and the removal of the temporary file
    did not itself fail (no "removing temp file" line was logged), the
    file system is as it was: the destination has its previous content, or
    is absent as before, and the temporary file is gone. *)
Theorem writeToFile_publishes_or_cleans_up (env : Env) (src : list byte)
    (destinationPath : string) (w : World) :
  let '(n, err, w', evs) := writeToFile env src destinationPath w in
  (forall dir, In dir (temp_dirs evs) -> dir = filepath_Dir destinationPath) /\
  (forall name, In name (temp_files evs) ->
     fs w !! name = None /\
     exists random,
       name = temp_name (filepath_Dir destinationPath) "download" random) /\
  match err with
  | None =>
      n = Z.of_nat (List.length src) /\
      fs w' = <[destinationPath := src]> (fs w) /\
      (forall name, In name (temp_files evs) -> name <> destinationPath ->
         fs w' !! name = None)
  | Some _ =>
      logged "removing temp file" evs = false ->
      fs w' = fs w /\
      fs w' !! destinationPath = fs w !! destinationPath /\
      (forall name, In name (temp_files evs) -> fs w' !! name = None)
  end.
Proof.
  pose proof (writeToFile_cases env src destinationPath w) as H.
  destruct (writeToFile env src destinationPath w) as [[[n err] w'] evs].
  destruct H as (_ & _ & _ & _ & _ & _ & T & R).
  assert (Tf : forall name, In name (temp_files evs) ->
            fs w !! name = None /\
            exists random,
              name = temp_name (filepath_Dir destinationPath) "download" random).
  { destruct T as [(-> & _ & _)|(random & -> & _ & Hfree)]; [intros ? []|].
    intros name [<-|[]]. eauto. }
  split; [|split; [exact Tf|]].
  - destruct T as [(_ & -> & _)|(random & _ & -> & _)]; [intros ? []|].
    by intros dir [<-|[]].
  - destruct err as [e|].
    + intros NoLog. specialize (R NoLog). rewrite R. repeat split.
      intros name Hname. by apply Tf.
    + destruct R as [-> ->]. repeat split.
      intros name Hname Hne. rewrite lookup_insert_ne by congruence.
      by apply Tf.
Qed.

(** ** The HTTP front end *)

Lemma split_on_length is_sep s :
  List.length (split_on is_sep s) = S (count_sep is_sep s).
Proof.
  induction s as [|c r IH]; cbn; [reflexivity|].
  destruct (is_sep c); cbn; [by rewrite IH|].
  destruct (split_on is_sep r); cbn in *; congruence.
Qed.

Section FrontEnd.

Variable env : Env.

Lemma serveGETBlob_cases c r hash w :
  let '(resp, w', evs) := serveGETBlob env c r hash w in
  match GetBlob env c hash w with
  | (inr _, _, _) => resp = http_Error "internal server error" 500
  | (inl f, w1, _) =>
      if containsDotDot (Path r) then resp = http_Error "invalid URL path" 400
      else if strings_HasSuffix (Path r) "/index.html" then
        resp = localRedirect "./"
      else
        exists data,
          fs w1 !! filepath_Join (BaseDir c) hash = Some data /\
          resp = mkResponse 200 (Bytes data)
  end.
Proof.
  unfold serveGETBlob, bind, ret, log_Info, log_Error, emit.
  destruct (GetBlob env c hash w) as [[[f|err] w1] e1] eqn:G; cbn;
    [|reflexivity].
  apply GetBlob_ok in G as [Hname [data L]].
  unfold http_ServeFile.
  destruct (containsDotDot (Path r)); cbn.
  - by destruct (file_Close env f w1) as [[? ?] ?].
  - destruct (strings_HasSuffix (Path r) "/index.html"); cbn.
    + by destruct (file_Close env f w1) as [[? ?] ?].
    + rewrite L. rewrite Hname in L.
      destruct (file_Close env f w1) as [[? ?] ?]; cbn. eauto.
Qed.

Lemma split_on_one_token is_sep s :
  List.length (split_on is_sep s) = 1%nat -> split_on is_sep s = [s].
Proof.
  induction s as [|ch r IH]; cbn; [reflexivity|].
  destruct (is_sep ch); cbn.
  - pose proof (split_on_length is_sep r). lia.
  - pose proof (split_on_length is_sep r) as Hlen.
    destruct (split_on is_sep r) as [|t ts] eqn:E; cbn in *; [discriminate|].
    intros [= Hts]. destruct ts; [|discriminate].
    specialize (IH eq_refl). by injection IH as ->.
Qed.

(** C5, as amended.  [ServeHTTP] takes one leading slash off the path and
    splits the rest at the slashes; this gives one token more than the rest
    has slashes, so at least one, and no path is without a segment.  With
    more than one token the reply is 404.  With one token, which then is
    the rest itself and is empty for the paths "/" and the empty one, any
    method but GET is answered 405.  A GET with one token that is the name
    of a file (not empty, not "." and not "..") is the request of the blob
    of that name: the reply is 500 when [GetBlob] fails; when it succeeds,
    the reply is 400 for a path with a ".." element between slashes or
    backslashes, a redirect to "./" for a path that ends in "/index.html",
    and in every other case 200 with the bytes of the file of the blob.
    Nothing is said of a GET whose token is empty, "." or "..": its local
    path is a directory, which the file system of this development does not
    hold. *)
Theorem ServeHTTP_routes (c : blobCache) (r : Request) (w : World) :
  let rest := strings_TrimPrefix (Path r) "/" in
  let tokens := strings_Split rest slash in
  let '(resp, w', evs) := ServeHTTP env c r w in
  List.length tokens = S (count_sep (Ascii.eqb slash) rest) /\
  (List.length tokens <> 1%nat ->
   resp = http_Error "not found" 404 /\ w' = w /\ evs = []) /\
  (List.length tokens = 1%nat -> tokens = [rest]) /\
  (List.length tokens = 1%nat -> Method r <> "GET" ->
   resp = http_Error "method not allowed" 405 /\ w' = w /\ evs = []) /\
  (List.length tokens = 1%nat -> Method r = "GET" -> file_name rest = true ->
   match GetBlob env c rest w with
   | (inr _, _, _) => resp = http_Error "internal server error" 500
   | (inl f, w1, _) =>
       if containsDotDot (Path r) then resp = http_Error "invalid URL path" 400
       else if strings_HasSuffix (Path r) "/index.html" then
         resp = mkResponse 301 (Redirect "./")
       else
         exists data,
           fs w1 !! filepath_Join (BaseDir c) rest = Some data /\
           resp = mkResponse 200 (Bytes data)
   end).
Proof.
  intros rest tokens. unfold ServeHTTP. fold rest. fold tokens.
  assert (Hlen : List.length tokens = S (count_sep (Ascii.eqb slash) rest))
    by apply split_on_length.
  assert (One : List.length tokens = 1%nat -> tokens = [rest])
    by apply split_on_one_token.
  destruct (Z.of_nat (List.length tokens) =? 1) eqn:E.
  - apply Z.eqb_eq in E.
    destruct (decide (Method r = "GET")) as [Get|NoGet].
    + assert (Hhd : hd EmptyString tokens = rest)
        by (rewrite One by lia; reflexivity).
      rewrite Hhd.
      pose proof (serveGETBlob_cases c r rest w) as H.
      destruct (serveGETBlob env c r rest w) as [[resp w'] evs].
      split; [exact Hlen|].
      split; [intros; exfalso; lia|].
      split; [exact One|].
      split; [intros; exfalso; congruence|].
      intros _ _ _. exact H.
    + cbn.
      split; [exact Hlen|].
      split; [intros; exfalso; lia|].
      split; [exact One|].
      split; [done|].
      intros; exfalso; congruence.
  - apply Z.eqb_neq in E. cbn.
    split; [exact Hlen|].
    split; [done|].
    split; [exact One|].
    split; intros; exfalso; lia.
Qed.

End FrontEnd.

(** ** Attempts at the origin *)

Section Attempts.

Variable env : Env.

Lemma downloadToWriter_cases url f w :
  let reply := http_reply env (clock w) url in
  let '(err, w', evs) := downloadToWriter env url f w in
  sleeps evs = [] /\
  (origin_requests evs = [] \/ origin_requests evs = [url]) /\
  (bad_url env url = None -> fault env (clock w) = None ->
   StatusCode reply <> 200 ->
   err = Some (Errorf "unexpected status downloading from upstream source: %v"
                      [Status reply]) /\
   origin_requests evs = [url] /\ fs w' = fs w).
Proof.
  unfold downloadToWriter, http_NewRequest, http_Do, io_Copy, bind, ret,
    log_Info, emit.
  destruct (bad_url env url) eqn:B; cbn; [settle|].
  destruct (fault env (clock w)) eqn:F; cbn; [settle|].
  destruct (StatusCode (http_reply env (clock w) url) =? 200) eqn:St; cbn.
  - apply Z.eqb_eq in St.
    destruct (fault env (S (clock w))); cbn; settle.
  - apply Z.eqb_neq in St. settle.
Qed.

Lemma deferred_cleanup_events f del cl w :
  let '(_, _, evs) := deferred_cleanup env f del cl w in
  sleeps evs = [] /\ origin_requests evs = [].
Proof.
  unfold deferred_cleanup, when, file_Close, os_Remove, bind, ret,
    log_Error, emit.
  destruct del, cl, (fclosed f); cbn;
    repeat (run_step; try ask_env;
            try match goal with
              | |- context [absent ?m ?k] => destruct (absent m k)
              end);
    by split.
Qed.

End Attempts.

Arguments downloadToWriter : simpl never.
Arguments deferred_cleanup : simpl never.

Ltac call_cleanup :=
  match goal with
  | |- context [deferred_cleanup ?env ?f ?d ?c ?w] =>
      let H := fresh "C" in
      pose proof (deferred_cleanup_events env f d c w) as H;
      destruct (deferred_cleanup env f d c w) as [[[] ?] ?];
      destruct H as [? ?]
  end.

Section Loader.

Variable env : Env.

Lemma downloadToFileNoRetry_cases l url dest w :
  let '(err, w', evs) := downloadToFileNoRetry env l url dest w in
  sleeps evs = [] /\ (List.length (origin_requests evs) <= 1)%nat.
Proof.
  unfold downloadToFileNoRetry, bind, ret, os_CreateTemp.
  destruct (fault env (clock w)) eqn:F; cbn; [split; [reflexivity|lia]|].
  destruct (List.find _ _) as [name|] eqn:Hfind; cbn; [|split; [reflexivity|lia]].
  match goal with
  | |- context [downloadToWriter env url ?f ?w1] =>
      pose proof (downloadToWriter_cases env url f w1) as H;
      destruct (downloadToWriter env url f w1) as [[[e|] w2] e2]
  end; cbv zeta in H; destruct H as (Sl & Rq & _); cbn.
  - call_cleanup. cbn. events.
    split; [reflexivity|]. destruct Rq as [-> | ->]; cbn; lia.
  - unfold file_Close, os_Rename. cbn.
    repeat (run_step; try ask_env;
            try match goal with
              | |- context [match ?m !! ?k with _ => _ end] => destruct (m !! k)
              end;
            try call_cleanup);
      cbn; events;
      (split; [reflexivity|]); destruct Rq as [-> | ->]; cbn; lia.
Qed.

End Loader.

Arguments downloadToFileNoRetry : simpl never.

Section Retry.

Variable env : Env.

Lemma downloadToFile_loop_spec l url destPath fuel :
  forall attempt w,
    (Z.to_nat (Z.max 1 (maxDownloadAttempts l - attempt)) <= fuel)%nat ->
    let '(r, w', evs) := downloadToFile_loop env fuel l url destPath attempt w in
    loop_outcome env l url destPath (Z.max 1 (maxDownloadAttempts l - attempt))
      r w' evs.
Proof.
  induction fuel as [|fuel IH]; intros attempt w Hfuel; [lia|].
  cbn. unfold bind, ret, log_Error, emit.
  pose proof (downloadToFileNoRetry_cases env l url destPath w) as H.
  destruct (downloadToFileNoRetry env l url destPath w) as [[[e|] w1] e1] eqn:E;
    destruct H as [Sl Rq]; cbn.
  - rewrite Z.geb_leb.
    destruct (Z.leb_spec (maxDownloadAttempts l) (attempt + 1)) as [Last|More];
      cbn.
    + exists (Some e). events. cbn.
      split; [reflexivity|]. split; [constructor|].
      split; [lia|]. split; [assumption|].
      intros e0 [= <-]. split; [lia|].
      by exists w, [], e1.
    + specialize (IH (attempt + 1) w1).
      destruct (downloadToFile_loop env fuel l url destPath (attempt + 1) w1)
        as [[r w'] evs].
      destruct IH as (res & -> & Hfive & Hlen & Hreq & Hlast); [lia|].
      exists res. rewrite sleeps_app, origin_requests_app, Sl.
      change (sleeps (EvLog "downloading url, will retry" :: EvSleep 5 :: evs))
        with (5 :: sleeps evs).
      change (origin_requests
                (EvLog "downloading url, will retry" :: EvSleep 5 :: evs))
        with (origin_requests evs).
      rewrite !length_app. cbn [app List.length].
      split; [reflexivity|]. split; [by constructor|].
      split; [lia|]. split; [lia|].
      intros e0 He0. destruct (Hlast e0 He0) as (Hn & wl & before & last & ? & -> & ?).
      split; [lia|].
      exists wl, (e1 ++ EvLog "downloading url, will retry" :: EvSleep 5 :: before),
        last.
      split; [assumption|]. split; [|assumption].
      by rewrite <- app_assoc.
  - exists None. events. cbn.
    split; [reflexivity|]. split; [constructor|].
    split; [lia|]. split; [assumption|]. discriminate.
Qed.

Lemma downloadToFile_loop_attempts l url destPath fuel :
  forall attempt w,
    (Z.to_nat (Z.max 1 (maxDownloadAttempts l - attempt)) <= fuel)%nat ->
    let '(r, w', evs) := downloadToFile_loop env fuel l url destPath attempt w in
    exists (n : nat) err,
      r = Some err /\
      attempts env l url destPath n w err w' evs /\
      (1 <= n)%nat /\
      Z.of_nat n <= Z.max 1 (maxDownloadAttempts l - attempt) /\
      sleeps evs = repeat 5 (n - 1) /\
      (err <> None -> Z.of_nat n = Z.max 1 (maxDownloadAttempts l - attempt)).
Proof.
  induction fuel as [|fuel IH]; intros attempt w Hfuel; [lia|].
  cbn. unfold bind, ret, log_Error, emit.
  pose proof (downloadToFileNoRetry_cases env l url destPath w) as H.
  destruct (downloadToFileNoRetry env l url destPath w) as [[[e|] w1] e1] eqn:E;
    destruct H as [Sl _]; cbn.
  - rewrite Z.geb_leb.
    destruct (Z.leb_spec (maxDownloadAttempts l) (attempt + 1)) as [Last|More];
      cbn.
    + exists 1%nat, (Some e). rewrite app_nil_r.
      split; [reflexivity|]. split; [by apply attempts_last|].
      split; [lia|]. split; [lia|]. split; [exact Sl|]. intros _. lia.
    + specialize (IH (attempt + 1) w1).
      destruct (downloadToFile_loop env fuel l url destPath (attempt + 1) w1)
        as [[r w'] evs].
      destruct IH as (n & err & -> & Hchain & Hn & Hle & Hsl & Hlast); [lia|].
      exists (S n), err.
      split; [reflexivity|].
      split; [by apply (attempts_more env l url destPath n w e w1 e1)|].
      split; [lia|]. split; [lia|].
      split.
      { rewrite sleeps_app, Sl.
        change (sleeps (EvLog "downloading url, will retry" :: EvSleep 5 :: evs))
          with (5 :: sleeps evs).
        rewrite Hsl. replace (S n - 1)%nat with (S (n - 1)) by lia.
        reflexivity. }
      intros Herr. specialize (Hlast Herr). lia.
  - exists 1%nat, None. rewrite app_nil_r.
    split; [reflexivity|]. split; [by apply attempts_last|].
    split; [lia|]. split; [lia|]. split; [exact Sl|]. congruence.
Qed.

Lemma downloadJob_run_requests j c w :
  let '(err, w', evs) := downloadJob_run env j c w in
  (List.length (origin_requests evs) <= 1)%nat /\ sleeps evs = [].
Proof.
  unfold downloadJob_run, bind, ret. cbv zeta.
  pose proof (gcsStore_Download_cases env (store c) (Hash j) (DestinationPath j) w)
    as D.
  destruct (gcsStore_Download env (store c) (Hash j) (DestinationPath j) w)
    as [[[derr|] w0] e0]; destruct D as (_ & _ & R0 & _ & S0 & _);
    cbn -[origin_requests sleeps];
    [|events; cbn; split; [lia|reflexivity]].
  destruct (errors_Is derr ErrObjectNotExist); cbn -[origin_requests sleeps];
    [|events; cbn; split; [lia|reflexivity]].
  unfold originTier, bind, ret, log_Info, emit. cbv zeta.
  destruct (SourceForBlob (Hash j)) as [url|se]; cbn -[origin_requests sleeps];
    [|events; cbn; split; [lia|reflexivity]].
  pose proof (downloadFromSource_cases env j url w0) as F. cbv zeta in F.
  destruct (downloadFromSource env j url w0) as [[[ferr|] w1] e1];
    destruct F as (_ & _ & _ & S1 & _ & R1 & _); cbn -[origin_requests sleeps].
  - rewrite app_nil_r, origin_requests_app, sleeps_app, R0, S0.
    change (origin_requests (EvLog ?m :: e1)) with (origin_requests e1).
    change (sleeps (EvLog ?m :: e1)) with (sleeps e1).
    rewrite S1. split; [|reflexivity]. destruct R1 as [-> | ->]; cbn; lia.
  - pose proof (gcsStore_Upload_cases env (store c) (DestinationPath j) (Hash j) w1)
      as U.
    destruct (gcsStore_Upload env (store c) (DestinationPath j) (Hash j) w1)
      as [[uerr w2] e2]; destruct U as (_ & _ & R2 & S2 & _).
    assert (Hev : origin_requests
                (e0 ++ EvLog
                   "blob not found in GCS cache; will download from upstream"
                 :: e1 ++ e2 ++ []) = origin_requests e1 /\
              sleeps (e0 ++ EvLog
                "blob not found in GCS cache; will download from upstream"
                :: e1 ++ e2 ++ []) = []).
    { rewrite origin_requests_app, sleeps_app, R0, S0, app_nil_r.
      change (origin_requests (EvLog ?m :: e1 ++ e2))
        with (origin_requests (e1 ++ e2)).
      change (sleeps (EvLog ?m :: e1 ++ e2)) with (sleeps (e1 ++ e2)).
      rewrite !origin_requests_app, !sleeps_app, R2, S1, S2, app_nil_r.
      by split. }
    destruct uerr; cbn -[origin_requests sleeps]; destruct Hev as [-> ->];
      (split; [|reflexivity]); destruct R1 as [-> | ->]; cbn; lia.
Qed.

(** C6, as amended.  The fetch from the origin of the blob server,
    [downloadFromSource], sends at most one request and never sleeps; a
    reply whose status is not 200 makes it return an error, and the file
    system is left as it was.  The pipeline does not retry it either: no
    run of [downloadJob.run] sleeps or sends more than one request, and when
    the fetch returns an error, [run] returns that error, wrapped, in the
    world and with the events the fetch left, nothing more being done.  The
    retries are the model loader's.  [downloadToWriter] too turns a status
    other than 200 into an error of the attempt, and [downloadToFile]
    repeats the whole attempt: given fuel for its loop it returns after [n]
    calls of [downloadToFileNoRetry], each made in the world the one before
    left, with [n] between 1 and max(1, maxDownloadAttempts); all calls but
    the last returned an error and were followed by a sleep of 5 seconds;
    what [downloadToFile] returns is what the last call returned,
    unchanged, and when that is an error [n] is max(1,
    maxDownloadAttempts). *)
Theorem origin_fetch_is_single_and_loader_retries :
  (forall j url w,
     let reply := http_reply env (clock w) url in
     let '(err, w', evs) := downloadFromSource env j url w in
     (List.length (origin_requests evs) <= 1)%nat /\ sleeps evs = [] /\
     (bad_url env url = None -> fault env (clock w) = None ->
      StatusCode reply <> 200 ->
      err = Some (Errorf "unexpected status downloading from upstream source: %v"
                         [Status reply]) /\
      origin_requests evs = [url] /\ fs w' = fs w)) /\
  (forall j c w,
     let '(err, w', evs) := downloadJob_run env j c w in
     (List.length (origin_requests evs) <= 1)%nat /\ sleeps evs = []) /\
  (forall j c w derr w0 e0 url e w1 e1,
     gcsStore_Download env (store c) (Hash j) (DestinationPath j) w
       = (Some derr, w0, e0) ->
     errors_Is derr ErrObjectNotExist = true ->
     SourceForBlob (Hash j) = inl url ->
     downloadFromSource env j url w0 = (Some e, w1, e1) ->
     downloadJob_run env j c w
       = (Some (Wrapf "downloading blob %q: %w" [Hash j] e), w1,
          e0 ++ EvLog "blob not found in GCS cache; will download from upstream"
             :: e1)) /\
  (forall url f w,
     let reply := http_reply env (clock w) url in
     bad_url env url = None -> fault env (clock w) = None ->
     StatusCode reply <> 200 ->
     (downloadToWriter env url f w).1.1
       = Some (Errorf "unexpected status downloading from upstream source: %v"
                      [Status reply])) /\
  (forall l url destPath w fuel,
     (Z.to_nat (Z.max 1 (maxDownloadAttempts l)) <= fuel)%nat ->
     let '(r, w', evs) := downloadToFile env fuel l url destPath w in
     exists (n : nat) err,
       r = Some err /\
       attempts env l url destPath n w err w' evs /\
       (1 <= n)%nat /\
       Z.of_nat n <= Z.max 1 (maxDownloadAttempts l) /\
       sleeps evs = repeat 5 (n - 1) /\
       (err <> None -> Z.of_nat n = Z.max 1 (maxDownloadAttempts l))).
Proof.
  split; [|split; [|split; [|split]]].
  - intros j url w.
    pose proof (downloadFromSource_cases env j url w) as H. cbv zeta in *.
    destruct (downloadFromSource env j url w) as [[err w'] evs].
    destruct H as (_ & _ & _ & Sl & _ & Rq & _ & Bad).
    repeat split; try assumption.
    + destruct Rq as [-> | ->]; cbn; lia.
    + by destruct (Bad H H0 H1) as (? & _).
    + by destruct (Bad H H0 H1) as (_ & ? & _).
    + by destruct (Bad H H0 H1) as (_ & _ & _ & ?).
  - intros j c w. apply downloadJob_run_requests.
  - intros j c w derr w0 e0 url e w1 e1 D Is Src F.
    unfold downloadJob_run, originTier, bind, ret, log_Info, emit.
    rewrite D. cbn. rewrite Is. cbn. rewrite Src, F. cbn.
    by rewrite app_nil_r.
  - intros url f w reply B F St.
    pose proof (downloadToWriter_cases env url f w) as H. cbv zeta in H.
    destruct (downloadToWriter env url f w) as [[err w'] evs].
    destruct H as (_ & _ & Bad). by destruct (Bad B F St) as [-> _].
  - intros l url destPath w fuel Hfuel. unfold downloadToFile.
    pose proof (downloadToFile_loop_attempts l url destPath fuel 0 w) as H.
    rewrite Z.sub_0_r in H. by apply H.
Qed.

End Retry.

(** * Runs of the scenarios *)

(** A request for a known blob that is in no cache goes through all three
    tiers and is answered with the bytes of the origin. *)
Example GET_of_a_known_blob :
  let '(resp, w', evs) :=
    ServeHTTP quiet_env cache (mkRequest "GET" ("/" +:+ gemma_hash)) empty_world in
  resp = mkResponse 200 (Bytes gguf) /\
  fs w' !! gemma_path = Some gguf /\
  gcs w' !! gemma_hash = Some gguf /\
  jobs w' = ∅ /\
  origin_requests evs = [gemma_url] /\
  temp_files evs = ["/cache/download482193"].
Proof. vm_compute. repeat split. Qed.

(** C2, counterexample.  The copy fails after one byte and the removal of
    the temporary file fails too: [writeToFile] returns the error of the
    copy and the temporary file is still there, one byte long. *)
Lemma writeToFile_can_leave_the_temp_file :
  let '(n, err, w', evs) :=
    writeToFile failing_disk_env gguf gemma_path empty_world in
  n = 1 /\
  err = Some (Wrapf "downloading from upstream source: %w" []
                (EIO "input/output error")) /\
  temp_files evs = ["/cache/download482193"] /\
  logged "removing temp file" evs = true /\
  fs w' !! "/cache/download482193" = Some [x47] /\
  fs w' <> fs empty_world.
Proof.
  vm_compute. repeat split. intros H. inversion H.
Qed.

(** C1, witness. *)
Lemma downloadBlob_already_in_progress_witness :
  jobs busy_world !! gemma_hash = Some (mkJob gemma_hash gemma_path) /\
  downloadBlob quiet_env cache gemma_hash gemma_path busy_world =
    (Some (Errorf "download of %q already in progress" [gemma_hash]),
     busy_world, []).
Proof.
  assert (J : jobs busy_world !! gemma_hash = Some (mkJob gemma_hash gemma_path))
    by reflexivity.
  split; [exact J|].
  exact (proj1 (downloadBlob_already_in_progress quiet_env cache gemma_hash
                  gemma_path busy_world _ J)).
Defined.

(** A call made while another download of the hash is running runs no
    pipeline: it returns at once, and the job of that download is still
    registered. *)
Example downloadBlob_rejected_call_leaves_the_job :
  let '(err, w', evs) :=
    downloadBlob quiet_env cache gemma_hash gemma_path busy_world in
  err = Some (Errorf "download of %q already in progress" [gemma_hash]) /\
  jobs w' !! gemma_hash = Some (mkJob gemma_hash gemma_path) /\
  jobs w' !! gemma_hash <> None.
Proof. vm_compute. repeat split. discriminate. Qed.

(** C8, witness. *)
Lemma downloadBlob_removes_its_job_witness :
  jobs empty_world !! gemma_hash = None /\
  let '(err, w', evs) :=
    downloadBlob quiet_env cache gemma_hash gemma_path empty_world in
  jobs w' !! gemma_hash = None /\
  jobs w' = jobs empty_world /\
  err = (downloadJob_run quiet_env (mkJob gemma_hash gemma_path) cache
           (admitted_world gemma_hash gemma_path empty_world)).1.1.
Proof.
  assert (J : jobs empty_world !! gemma_hash = None) by reflexivity.
  split; [exact J|].
  exact (downloadBlob_removes_its_job quiet_env cache gemma_hash gemma_path
           empty_world J).
Defined.

(** C9, witness.  The cache directory cannot be read: [GetBlob] returns the
    error of the open and starts no download. *)
Lemma GetBlob_returns_other_open_errors_witness :
  os_Open unreadable_cache_env gemma_path empty_world
    = (inr (EIO "permission denied"), tick empty_world, []) /\
  GetBlob unreadable_cache_env cache gemma_hash empty_world
    = (inr (Wrapf "opening blob %q: %w" [gemma_hash] (EIO "permission denied")),
       tick empty_world, []).
Proof.
  assert (E : os_Open unreadable_cache_env
                (filepath_Join (BaseDir cache) gemma_hash) empty_world
              = (inr (EIO "permission denied"), tick empty_world, []))
    by reflexivity.
  split; [exact E|].
  exact (proj1 (proj1 (GetBlob_returns_other_open_errors unreadable_cache_env
                         cache gemma_hash empty_world _ _ _ E) eq_refl)).
Defined.

(** C7, witness. *)
Lemma unknown_blob_creates_nothing_witness :
  let '(r, w', evs) := GetBlob quiet_env cache "0badc0de" empty_world in
  (exists e, r = inr e) /\
  fs w' = fs empty_world /\ gcs w' = gcs empty_world /\
  temp_files evs = [] /\ origin_requests evs = [] /\ upload_requests evs = [] /\
  (jobs empty_world !! "0badc0de" = None ->
   fault quiet_env 0 = None -> fault quiet_env 1 = None ->
   fault quiet_env 2 = None ->
   r = inr (Wrapf "downloading blob %q: %w" ["0badc0de"]
              (Wrapf "getting source for blob %q: %w" ["0badc0de"]
                 (Errorf "blob %q not known" ["0badc0de"])))) /\
  (jobs empty_world !! "0badc0de" <> None ->
   fault quiet_env 0 = None ->
   r = inr (Wrapf "downloading blob %q: %w" ["0badc0de"]
              (Errorf "download of %q already in progress" ["0badc0de"])) /\
   w' = tick empty_world /\ evs = []).
Proof.
  apply (unknown_blob_creates_nothing quiet_env cache "0badc0de" empty_world).
  - reflexivity.
  - reflexivity.
  - reflexivity.
  - intros kb [<-|[<-|[<-|[]]]]; discriminate.
Defined.

(** C7, counterexample.  Nobody knows the blob, it is in no cache, and
    another call is asking for it: [GetBlob] fails, but not as "not known":
    the error is that a download is in progress. *)
Lemma GetBlob_of_an_unknown_blob_in_flight :
  fs asked_world !! filepath_Join (BaseDir cache) "0badc0de" = None /\
  gcs asked_world !! "0badc0de" = None /\
  (forall kb, In kb knownBlobs -> kb_Hash kb <> "0badc0de") /\
  let '(r, w', evs) := GetBlob quiet_env cache "0badc0de" asked_world in
  r = inr (Wrapf "downloading blob %q: %w" ["0badc0de"]
             (Errorf "download of %q already in progress" ["0badc0de"])) /\
  r <> inr (Wrapf "downloading blob %q: %w" ["0badc0de"]
              (Wrapf "getting source for blob %q: %w" ["0badc0de"]
                 (Errorf "blob %q not known" ["0badc0de"]))) /\
  errors_Is (Wrapf "downloading blob %q: %w" ["0badc0de"]
               (Errorf "download of %q already in progress" ["0badc0de"]))
            (Errorf "blob %q not known" ["0badc0de"]) = false.
Proof.
  split; [reflexivity|]. split; [reflexivity|].
  split; [intros kb [<-|[<-|[<-|[]]]]; discriminate|].
  vm_compute. repeat split. discriminate.
Qed.

(** C7 on this scenario, computed: the request fails as "not known", one
    read of the bucket was tried, and no file was made. *)
Example GetBlob_of_an_unknown_blob :
  GetBlob quiet_env cache "0badc0de" empty_world
  = (inr (Wrapf "downloading blob %q: %w" ["0badc0de"]
            (Wrapf "getting source for blob %q: %w" ["0badc0de"]
               (Errorf "blob %q not known" ["0badc0de"]))),
     mkWorld ∅ ∅ ∅ 3,
     [EvLog "downloading blob from GCS"; EvGCSRead "models" "0badc0de";
      EvLog "blob not found in GCS cache; will download from upstream"]).
Proof. vm_compute. reflexivity. Qed.

(** C5, counterexample.  The paths "/" and the empty one have no segment,
    and a POST to either is answered 405, not 404. *)
Lemma root_path_is_not_404 :
  spec_path_segments "/" = [] /\
  spec_path_segments EmptyString = [] /\
  (ServeHTTP quiet_env cache (mkRequest "POST" "/") empty_world).1.1
    = http_Error "method not allowed" 405 /\
  (ServeHTTP quiet_env cache (mkRequest "POST" EmptyString) empty_world).1.1
    = http_Error "method not allowed" 405 /\
  status (ServeHTTP quiet_env cache (mkRequest "POST" "/") empty_world).1.1
    <> 404.
Proof. vm_compute. repeat split. discriminate. Qed.

(** A GET for a blob whose name is that of an index page is redirected,
    although the file is in the cache. *)
Example GET_of_index_html_is_redirected :
  let '(resp, w', evs) :=
    ServeHTTP quiet_env cache (mkRequest "GET" "/index.html") index_world in
  resp = mkResponse 301 (Redirect "./") /\ fs w' = fs index_world.
Proof. vm_compute. repeat split. Qed.

(** C6, counterexample.  The origin is unavailable when the pipeline asks
    and would answer any later request: the pipeline fails after its one
    request, without a sleep and without a second attempt. *)
Lemma origin_fetch_makes_one_attempt :
  let '(err, w', evs) :=
    downloadJob_run (flaky_origin_env 2) (mkJob gemma_hash gemma_path) cache
      empty_world in
  err = Some (Wrapf "downloading blob %q: %w" [gemma_hash]
                (Errorf "unexpected status downloading from upstream source: %v"
                        ["503 Service Unavailable"])) /\
  origin_requests evs = [gemma_url] /\
  sleeps evs = [] /\
  fs w' !! gemma_path = None /\
  clock w' = 3%nat /\
  (forall t, t <> 2%nat ->
     StatusCode (http_reply (flaky_origin_env 2) t gemma_url) = 200).
Proof.
  vm_compute. repeat split. intros t Ht.
  destruct t as [|[|[|t]]]; try reflexivity. congruence.
Qed.

(** The model loader in the same situation: its first attempt meets the 503,
    it sleeps 5 seconds, and its second attempt brings the file. *)
Example model_loader_retries :
  let '(r, w', evs) :=
    downloadToFile (flaky_origin_env 1) 5 (mkModelLoader "http://blobserver" 5)
      ("http://blobserver/" +:+ gemma_hash) "/tmp/model.bin" empty_world in
  r = Some None /\
  sleeps evs = [5] /\
  List.length (origin_requests evs) = 2%nat /\
  fs w' !! "/tmp/model.bin" = Some gguf /\
  fs w' !! "/tmp/model482193" = None.
Proof. vm_compute. repeat split. Qed.

(** When every attempt meets the 503 the loader gives up after its five
    attempts and four sleeps, with the error of the last attempt. *)
Example model_loader_gives_up :
  let down := scripted_env [] (fun _ => unavailable) in
  let url := "http://blobserver/" +:+ gemma_hash in
  let '(r, w', evs) :=
    downloadToFile down 5 (mkModelLoader "http://blobserver" 5) url
      "/tmp/model.bin" empty_world in
  r = Some (Some (Wrapf "downloading from %q: %w" [url]
                    (Errorf "unexpected status downloading from upstream source: %v"
                            ["503 Service Unavailable"]))) /\
  sleeps evs = [5; 5; 5; 5] /\
  List.length (origin_requests evs) = 5%nat /\
  fs w' = ∅.
Proof. vm_compute. repeat split. Qed.

(** C4, witness.  The bucket does not have the gemma blob, the origin sends
    it, and the credentials of the store do not allow the write: the request
    fails with the error of the upload although the file is in the cache. *)
Lemma upload_failure_fails_the_request_witness :
  let failure :=
    Wrapf "uploading to GCS: %w" []
      (Wrapf "closing GCS writer: %w" [] (EIO "googleapi: Error 403: Forbidden")) in
  exists w' evs,
    GetBlob read_only_bucket_env cache gemma_hash empty_world
      = (inr (Wrapf "downloading blob %q: %w" [gemma_hash] failure), w', evs) /\
    downloadBlob read_only_bucket_env cache gemma_hash gemma_path
      (tick empty_world) = (Some failure, w', evs) /\
    fs w' !! gemma_path = Some gguf /\
    gcs w' !! gemma_hash = None.
Proof.
  intros failure.
  edestruct (upload_failure_fails_the_request read_only_bucket_env cache
               gemma_hash gemma_path (tick empty_world))
    as (_ & B & F & G).
  - reflexivity.
  - vm_compute. reflexivity.
  - reflexivity.
  - reflexivity.
  - vm_compute. reflexivity.
  - vm_compute. reflexivity.
  - eexists _, _. split; [|split; [exact B|split; [exact F|]]].
    + apply (G empty_world ENOENT); reflexivity.
    + reflexivity.
Defined.

(** * Further properties of the blob server *)

Section Files.

Variable env : Env.

Lemma writeToFile_paths src dest w :
  let '(n, err, w', evs) := writeToFile env src dest w in
  (forall p, In p (temp_files evs) -> fs w !! p = None) /\
  (forall p, ~ In p (temp_files evs) ->
     fs w' !! p = match err with
                  | None => <[dest := src]> (fs w) !! p
                  | Some _ => fs w !! p
                  end).
Proof.
  unfold writeToFile, deferred_cleanup, when, bind, ret, log_Error, emit,
    os_CreateTemp, io_Copy, file_Close, os_Rename, os_Remove.
  repeat (run_step; try ask_env);
    (split; [intros p Hp; cbn in Hp; try tauto;
             destruct Hp as [<-|[]]; assumption|]);
    intros p Hp; cbn in Hp; try reflexivity;
    assert (Hne : temp_name (filepath_Dir dest) "download" x <> p) by tauto;
    tidy_fs;
    rewrite ?lookup_insert_ne by assumption;
    try reflexivity.
Qed.

(** X1. [writeToFile] never damages a file that is there.  Whatever fails,
    the cleanup included, every other file keeps its content, and a
    destination that existed holds the whole new stream when [writeToFile]
    returns no error and its old content when it returns one: never a part
    of the stream. *)
Theorem writeToFile_never_damages_files (src : list byte)
    (destinationPath : string) (w : World) :
  let '(n, err, w', evs) := writeToFile env src destinationPath w in
  files_kept destinationPath w w' /\
  (forall old, fs w !! destinationPath = Some old ->
     fs w' !! destinationPath = match err with
                                | None => Some src
                                | Some _ => Some old
                                end).
Proof.
  pose proof (writeToFile_paths src destinationPath w) as H.
  destruct (writeToFile env src destinationPath w) as [[[n err] w'] evs].
  destruct H as [Fresh Rest].
  assert (Old : forall p old, fs w !! p = Some old -> ~ In p (temp_files evs)).
  { intros p old Hp Hin. rewrite (Fresh p Hin) in Hp. discriminate. }
  split.
  - intros p old Hne Hp. rewrite (Rest p (Old p old Hp)).
    destruct err; [assumption|]. by rewrite lookup_insert_ne.
  - intros old Hp. rewrite (Rest _ (Old _ old Hp)).
    destruct err; [assumption|]. apply lookup_insert_eq.
Qed.

Lemma files_kept_refl dest w : files_kept dest w w.
Proof. by intros p old _ H. Qed.

Lemma files_kept_trans dest w1 w2 w3 :
  files_kept dest w1 w2 -> files_kept dest w2 w3 -> files_kept dest w1 w3.
Proof. intros H12 H23 p old Hne Hp. eauto. Qed.

Lemma files_kept_same_fs dest w w' : fs w' = fs w -> files_kept dest w w'.
Proof. intros E p old _ H. by rewrite E. Qed.

Lemma writeToFile_keeps src dest w :
  files_kept dest w (writeToFile env src dest w).1.2.
Proof.
  pose proof (writeToFile_paths src dest w) as H.
  destruct (writeToFile env src dest w) as [[[n err] w'] evs]. cbn.
  destruct H as [Fresh Rest].
  intros p old Hne Hp. rewrite Rest.
  - destruct err; [assumption|]. by rewrite lookup_insert_ne.
  - intros Hin. rewrite (Fresh p Hin) in Hp. discriminate.
Qed.

(** With no fault and a free temporary name [writeToFile] succeeds. *)
Lemma writeToFile_quiet src dest w :
  no_faults env ->
  temp_free env (filepath_Dir dest) "download" (fs w) ->
  exists n w' evs,
    writeToFile env src dest w = (n, None, w', evs) /\
    fs w' = <[dest := src]> (fs w) /\ gcs w' = gcs w /\ jobs w' = jobs w /\
    clock w' = (4 + clock w)%nat /\
    origin_requests evs = [] /\ upload_requests evs = [].
Proof.
  intros NF TF.
  pose proof (writeToFile_cases env src dest w) as H.
  assert (Ok : (writeToFile env src dest w).1.1.2 = None /\
               clock (writeToFile env src dest w).1.2 = (4 + clock w)%nat).
  { unfold writeToFile, deferred_cleanup, when, bind, ret, log_Error, emit,
      os_CreateTemp, io_Copy, file_Close, os_Rename, os_Remove.
    rewrite NF. specialize (TF (clock w)).
    destruct (List.find _ _) as [name|]; [|congruence].
    repeat (cbn; rewrite ?NF, ?lookup_insert_eq). by split. }
  destruct (writeToFile env src dest w) as [[[n err] w'] evs]. cbn in Ok.
  destruct Ok as [-> Hclock].
  exists n, w', evs. tauto.
Qed.

End Files.

Section MoreTiers.

Variable env : Env.

Lemma gcsStore_Download_keeps s hash dest w :
  files_kept dest w (gcsStore_Download env s hash dest w).1.2.
Proof.
  unfold gcsStore_Download, bind, ret, log_Info, emit, storage_NewClient,
    gcs_NewReader.
  destruct (fault env (clock w)); cbn; [by apply files_kept_same_fs|].
  destruct (fault env (S (clock w))); cbn; [by apply files_kept_same_fs|].
  destruct (gcs w !! hash) as [data|]; cbn; [|by apply files_kept_same_fs].
  pose proof (writeToFile_keeps env data dest (tick (tick w))) as K.
  destruct (writeToFile env data dest (tick (tick w))) as [[[n [e|]] w1] e1];
    exact K.
Qed.

Lemma downloadFromSource_keeps j url w :
  files_kept (DestinationPath j) w (downloadFromSource env j url w).1.2.
Proof.
  unfold downloadFromSource, http_NewRequest, http_Do, bind, ret, log_Info, emit.
  destruct (bad_url env url); cbn; [by apply files_kept_same_fs|].
  destruct (fault env (clock w)); cbn; [by apply files_kept_same_fs|].
  destruct (StatusCode _ =? 200); cbn; [|by apply files_kept_same_fs].
  match goal with
  | |- context [writeToFile env ?src ?dest ?w1] =>
      pose proof (writeToFile_keeps env src dest w1) as K;
      destruct (writeToFile env src dest w1) as [[[n [e|]] w2] e2]
  end; exact K.
Qed.

(** What [gcsStore.Upload] does to the bucket. *)
Lemma gcsStore_Upload_bucket s src hash w :
  let '(err, w', evs) := gcsStore_Upload env s src hash w in
  (forall k, k <> hash -> gcs w' !! k = gcs w !! k) /\
  (err <> None -> gcs w' = gcs w) /\
  (err = None -> gcs w !! hash = None ->
   exists data, fs w !! src = Some data /\ gcs w' = <[hash := data]> (gcs w)) /\
  (fault env (S (S (clock w))) = None -> gcs w !! hash <> None ->
   gcs w' = gcs w /\ (fault env (clock w) = None ->
                      fault env (S (clock w)) = None ->
                      fs w !! src <> None -> err = None)).
Proof.
  unfold gcsStore_Upload, bind, ret, log_Info, emit, os_Open,
    storage_NewClient, gcs_Attrs, gcs_Copy, gcs_Writer_Close, absent.
  destruct (gcs w !! hash) as [old|] eqn:G;
    destruct (fs w !! src) as [data|] eqn:A;
    repeat (run_step; try ask_env;
            try match goal with
              | |- context [errors_Is ?e ?t] => destruct (errors_Is e t) eqn:?
              end);
    repeat split; intros; try congruence; try discriminate; eauto;
    by rewrite lookup_insert_ne.
Qed.

(** With no fault, a known object in the bucket and a free temporary name
    [gcsStore.Download] succeeds. *)
Lemma gcsStore_Download_quiet s hash dest w data :
  no_faults env ->
  gcs w !! hash = Some data ->
  temp_free env (filepath_Dir dest) "download" (fs w) ->
  exists w' evs,
    gcsStore_Download env s hash dest w = (None, w', evs) /\
    fs w' = <[dest := data]> (fs w) /\ gcs w' = gcs w /\ jobs w' = jobs w /\
    clock w' = (6 + clock w)%nat /\
    origin_requests evs = [] /\ upload_requests evs = [].
Proof.
  intros NF G TF.
  unfold gcsStore_Download, bind, ret, log_Info, emit, storage_NewClient,
    gcs_NewReader.
  repeat (cbn; rewrite ?NF, ?G).
  destruct (writeToFile_quiet env data dest (tick (tick w)) NF TF)
    as (n & w' & evs & -> & ? & ? & ? & ? & ? & ?).
  cbn. eexists _, _. split; [reflexivity|]. cbn in *. events.
  repeat split; try assumption.
Qed.

End MoreTiers.

Section MorePipeline.

Variable env : Env.

(** X2. [gcsStore.Upload] changes nothing but the object it is asked to
    store: the local files and every other object are as before.  When it
    returns an error the whole bucket is unchanged; when it returns none the
    object is there, and if it was missing before it holds the bytes of the
    source file. *)
Theorem gcsStore_Upload_is_all_or_nothing (s : gcsStore)
    (sourcePath hash : string) (w : World) :
  let '(err, w', evs) := gcsStore_Upload env s sourcePath hash w in
  fs w' = fs w /\ jobs w' = jobs w /\
  (forall k, k <> hash -> gcs w' !! k = gcs w !! k) /\
  (err <> None -> gcs w' = gcs w) /\
  (err = None -> exists data, gcs w' !! hash = Some data) /\
  (err = None -> gcs w !! hash = None ->
   exists data,
     fs w !! sourcePath = Some data /\ gcs w' = <[hash := data]> (gcs w)).
Proof.
  pose proof (gcsStore_Upload_cases env s sourcePath hash w) as C.
  pose proof (gcsStore_Upload_bucket env s sourcePath hash w) as B.
  destruct (gcsStore_Upload env s sourcePath hash w) as [[err w'] evs].
  destruct C as (? & ? & _ & _ & _ & _ & ?), B as (? & ? & ? & _).
  repeat split; assumption.
Qed.

(** X3. An object that is in the bucket already is not written again: when
    the lookup of its attributes is answered, [gcsStore.Upload] leaves the
    bucket as it is, and it returns no error if the source file could be
    opened and the client created. *)
Theorem gcsStore_Upload_skips_existing (s : gcsStore) (sourcePath hash : string)
    (w : World) (old : list byte) :
  gcs w !! hash = Some old ->
  fault env (S (S (clock w))) = None ->
  let '(err, w', evs) := gcsStore_Upload env s sourcePath hash w in
  gcs w' = gcs w /\
  (fault env (clock w) = None -> fault env (S (clock w)) = None ->
   fs w !! sourcePath <> None -> err = None).
Proof.
  intros G F.
  pose proof (gcsStore_Upload_bucket env s sourcePath hash w) as B.
  destruct (gcsStore_Upload env s sourcePath hash w) as [[err w'] evs].
  destruct B as (_ & _ & _ & B). apply B; congruence.
Qed.

Lemma gcsStore_Upload_quiet s src hash w data :
  no_faults env ->
  fs w !! src = Some data ->
  gcs w !! hash = None ->
  exists w' evs,
    gcsStore_Upload env s src hash w = (None, w', evs) /\
    fs w' = fs w /\ gcs w' = <[hash := data]> (gcs w) /\ jobs w' = jobs w /\
    origin_requests evs = [].
Proof.
  intros NF A G.
  pose proof (gcsStore_Upload_cases env s src hash w) as C.
  pose proof (gcsStore_Upload_bucket env s src hash w) as B.
  assert (Ok : (gcsStore_Upload env s src hash w).1.1 = None).
  { unfold gcsStore_Upload, bind, ret, log_Info, emit, os_Open,
      storage_NewClient, gcs_Attrs, gcs_Copy, gcs_Writer_Close, absent.
    repeat (cbn; rewrite ?NF, ?A, ?G;
            rewrite ?(bool_decide_eq_true_2 (ErrObjectNotExist = ErrObjectNotExist)
                        eq_refl)).
    reflexivity. }
  destruct (gcsStore_Upload env s src hash w) as [[err w'] evs]. cbn in Ok.
  subst err.
  destruct C as (? & ? & ? & _), B as (_ & _ & B & _).
  destruct (B eq_refl G) as (data' & A' & ?).
  exists w', evs. repeat split; try assumption. congruence.
Qed.

Lemma downloadFromSource_quiet j url w :
  no_faults env ->
  bad_url env url = None ->
  StatusCode (http_reply env (clock w) url) = 200 ->
  temp_free env (filepath_Dir (DestinationPath j)) "download" (fs w) ->
  exists w' evs,
    downloadFromSource env j url w = (None, w', evs) /\
    fs w' = <[DestinationPath j := Body (http_reply env (clock w) url)]> (fs w) /\
    gcs w' = gcs w /\ jobs w' = jobs w /\
    origin_requests evs = [url].
Proof.
  intros NF B St TF.
  pose proof (downloadFromSource_cases env j url w) as C. cbv zeta in C.
  assert (Ok : (downloadFromSource env j url w).1.1 = None).
  { unfold downloadFromSource, http_NewRequest, http_Do, bind, ret,
      log_Info, emit.
    rewrite B. cbn. rewrite NF. cbn.
    rewrite (proj2 (Z.eqb_eq _ _) St). cbn.
    match goal with
    | |- context [writeToFile env ?src ?dest ?w1] =>
        destruct (writeToFile_quiet env src dest w1 NF TF)
          as (n & w' & evs & -> & _)
    end.
    reflexivity. }
  destruct (downloadFromSource env j url w) as [[err w'] evs]. cbn in Ok.
  subst err.
  destruct C as (? & ? & _ & _ & _ & _ & C & _).
  destruct (C eq_refl) as (_ & ? & ?).
  exists w', evs. repeat split; assumption.
Qed.

End MorePipeline.

Lemma errors_Is_refl e : errors_Is e e = true.
Proof. destruct e; cbn; by rewrite bool_decide_eq_true_2. Qed.

Lemma errors_Is_wrapped format args e target :
  errors_Is e target = true -> errors_Is (Wrapf format args e) target = true.
Proof. intros H. cbn. by destruct (bool_decide _). Qed.

Section Resolution.

Variable env : Env.

Lemma downloadJob_run_durable_hit c hash dest w data :
  no_faults env ->
  gcs w !! hash = Some data ->
  temp_free env (filepath_Dir dest) "download" (fs w) ->
  exists w' evs,
    downloadJob_run env (mkJob hash dest) c w = (None, w', evs) /\
    fs w' = <[dest := data]> (fs w) /\ gcs w' = gcs w /\ jobs w' = jobs w /\
    origin_requests evs = [] /\ upload_requests evs = [].
Proof.
  intros NF G TF. unfold downloadJob_run, bind, ret. cbn.
  destruct (gcsStore_Download_quiet env (store c) hash dest w data NF G TF)
    as (w' & evs & -> & ? & ? & ? & _ & ? & ?).
  cbn. rewrite app_nil_r. eauto 10.
Qed.

Lemma downloadJob_run_origin c hash dest w url :
  no_faults env ->
  gcs w !! hash = None ->
  SourceForBlob hash = inl url ->
  bad_url env url = None ->
  StatusCode (http_reply env (2 + clock w) url) = 200 ->
  temp_free env (filepath_Dir dest) "download" (fs w) ->
  let body := Body (http_reply env (2 + clock w) url) in
  exists w' evs,
    downloadJob_run env (mkJob hash dest) c w = (None, w', evs) /\
    fs w' = <[dest := body]> (fs w) /\
    gcs w' = <[hash := body]> (gcs w) /\ jobs w' = jobs w /\
    origin_requests evs = [url].
Proof.
  intros NF G Src B St TF body. unfold downloadJob_run, bind, ret. cbn.
  assert (D : gcsStore_Download env (store c) hash dest w
              = (Some (Wrapf "opening object from GCS %q: %w"
                         [gcsURL (store c) hash] ErrObjectNotExist),
                 tick (tick w),
                 [EvLog "downloading blob from GCS"; EvGCSRead (Bucket (store c)) hash])).
  { unfold gcsStore_Download, bind, ret, log_Info, emit, storage_NewClient,
      gcs_NewReader.
    repeat (cbn; rewrite ?NF, ?G). reflexivity. }
  rewrite D. cbn [fst snd].
  rewrite (errors_Is_wrapped _ _ _ _ (errors_Is_refl ErrObjectNotExist)).
  unfold originTier, bind, ret, log_Info, emit. cbn. rewrite Src. cbn.
  destruct (downloadFromSource_quiet env (mkJob hash dest) url (tick (tick w))
              NF B St TF) as (w2 & e2 & -> & Hfs & Hgcs & Hjobs & Hreq).
  cbn in *.
  destruct (gcsStore_Upload_quiet env (store c) dest hash w2 body NF)
    as (w3 & e3 & -> & Hfs3 & Hgcs3 & Hjobs3 & Hreq3).
  { rewrite Hfs. apply lookup_insert_eq. }
  { by rewrite Hgcs. }
  cbn. eexists _, _. split; [reflexivity|].
  rewrite Hfs3, Hgcs3, Hjobs3, Hfs, Hgcs, Hjobs.
  repeat split.
  cbn. rewrite app_nil_r, flat_map_app.
  fold (origin_requests e2) (origin_requests e3).
  by rewrite Hreq, Hreq3.
Qed.

Lemma os_Open_quiet_miss name w :
  no_faults env -> fs w !! name = None ->
  os_Open env name w = (inr ENOENT, tick w, []).
Proof. intros NF A. unfold os_Open, absent. by rewrite NF, A. Qed.

Lemma os_Open_quiet_hit name w data :
  fault env (clock w) = None -> fs w !! name = Some data ->
  os_Open env name w = (inl (mkFile name false), tick w, []).
Proof. intros F A. unfold os_Open, absent. by rewrite F, A. Qed.

(** X4. A blob that is in the local cache is served from it: when the file
    is there and can be opened, [GetBlob] returns it and does nothing else.
    No job is registered, nothing is asked of the bucket or of the origin,
    and file system, bucket and jobs map are untouched. *)
Theorem GetBlob_local_hit (c : blobCache) (hash : string) (w : World)
    (data : list byte) :
  fs w !! filepath_Join (BaseDir c) hash = Some data ->
  fault env (clock w) = None ->
  GetBlob env c hash w
    = (inl (mkFile (filepath_Join (BaseDir c) hash) false), tick w, []).
Proof.
  intros A F. apply GetBlob_hit. by apply (os_Open_quiet_hit _ _ data).
Qed.

(** X5. Once [GetBlob] has returned a blob, the next [GetBlob] of the same
    hash finds it in the local cache: if the file can be opened it is
    returned without any request, whatever tier the first call went to. *)
Theorem GetBlob_second_time_is_local (c : blobCache) (hash : string)
    (w : World) (f : File) (w' : World) (evs : list Event) :
  GetBlob env c hash w = (inl f, w', evs) ->
  fault env (clock w') = None ->
  GetBlob env c hash w'
    = (inl (mkFile (filepath_Join (BaseDir c) hash) false), tick w', []).
Proof.
  intros G F. apply GetBlob_ok in G as [Hname [data Hdata]].
  rewrite Hname in Hdata.
  apply GetBlob_hit. by apply (os_Open_quiet_hit _ _ data).
Qed.

(** X6. The durable store short-circuits the origin.  For a hash that is not
    in the local cache but is in the bucket, with no download of it running,
    no fault and a free temporary name, [GetBlob] returns the local file,
    which then holds the bytes of the object; no request goes to the origin,
    nothing is uploaded, and bucket and jobs map are as before. *)
Theorem GetBlob_durable_hit (c : blobCache) (hash : string) (w : World)
    (data : list byte) :
  let localPath := filepath_Join (BaseDir c) hash in
  no_faults env ->
  fs w !! localPath = None ->
  gcs w !! hash = Some data ->
  jobs w !! hash = None ->
  temp_free env (filepath_Dir localPath) "download" (fs w) ->
  let '(r, w', evs) := GetBlob env c hash w in
  r = inl (mkFile localPath false) /\
  fs w' = <[localPath := data]> (fs w) /\
  gcs w' = gcs w /\ jobs w' = jobs w /\
  origin_requests evs = [] /\ upload_requests evs = [].
Proof.
  intros localPath NF A G J TF.
  rewrite (GetBlob_miss env c hash w ENOENT (tick w) []
             (os_Open_quiet_miss _ _ NF A) eq_refl).
  fold localPath. cbv zeta.
  rewrite (downloadBlob_admitted env c hash localPath (tick w) J).
  destruct (downloadJob_run_durable_hit c hash localPath
              (admitted_world hash localPath (tick w)) data NF G TF)
    as (w1 & e1 & -> & Hfs & Hgcs & Hjobs & Hreq & Hup).
  cbn in *.
  rewrite (os_Open_quiet_hit localPath (released_world hash w1) data (NF _)).
  2: { cbn. rewrite Hfs. apply lookup_insert_eq. }
  cbn. rewrite app_nil_r, Hjobs.
  repeat split; try assumption. by apply delete_insert_id.
Qed.

(** X7. The whole fallback.  For a hash that is neither in the local cache
    nor in the bucket but has a source in the registry, with no download of
    it running, no fault, a free temporary name and an origin that answers
    200, [GetBlob] returns the local file.  Exactly one request went to the
    origin, to the source of the registry, and both the local file and the
    object of the bucket hold the body of its reply. *)
Theorem GetBlob_origin_fetch_fills_both_caches (c : blobCache) (hash : string)
    (w : World) (url : string) :
  let localPath := filepath_Join (BaseDir c) hash in
  let body := Body (http_reply env (3 + clock w) url) in
  no_faults env ->
  fs w !! localPath = None ->
  gcs w !! hash = None ->
  jobs w !! hash = None ->
  SourceForBlob hash = inl url ->
  bad_url env url = None ->
  StatusCode (http_reply env (3 + clock w) url) = 200 ->
  temp_free env (filepath_Dir localPath) "download" (fs w) ->
  let '(r, w', evs) := GetBlob env c hash w in
  r = inl (mkFile localPath false) /\
  fs w' = <[localPath := body]> (fs w) /\
  gcs w' = <[hash := body]> (gcs w) /\
  jobs w' = jobs w /\
  origin_requests evs = [url].
Proof.
  intros localPath body NF A G J Src B St TF.
  rewrite (GetBlob_miss env c hash w ENOENT (tick w) []
             (os_Open_quiet_miss _ _ NF A) eq_refl).
  fold localPath. cbv zeta.
  rewrite (downloadBlob_admitted env c hash localPath (tick w) J).
  destruct (downloadJob_run_origin c hash localPath
              (admitted_world hash localPath (tick w)) url NF G Src B St TF)
    as (w1 & e1 & -> & Hfs & Hgcs & Hjobs & Hreq).
  cbn in *.
  rewrite (os_Open_quiet_hit localPath (released_world hash w1) body (NF _)).
  2: { cbn. rewrite Hfs. apply lookup_insert_eq. }
  cbn. rewrite app_nil_r, Hjobs.
  repeat split; try assumption. by apply delete_insert_id.
Qed.

End Resolution.

Section Frame.

Variable env : Env.

Lemma originTier_keeps j c w :
  files_kept (DestinationPath j) w (originTier env j c w).1.2.
Proof.
  unfold originTier, bind, ret, log_Info, emit.
  destruct (SourceForBlob (Hash j)) as [source|e0]; cbn;
    [|apply files_kept_refl].
  pose proof (downloadFromSource_keeps env j source w) as K.
  destruct (downloadFromSource env j source w) as [[[e|] w1] e1]; cbn in *;
    [exact K|].
  pose proof (gcsStore_Upload_cases env (store c) (DestinationPath j) (Hash j) w1)
    as U.
  destruct (gcsStore_Upload env (store c) (DestinationPath j) (Hash j) w1)
    as [[[e|] w2] e2]; cbn; destruct U as [U _];
    (eapply files_kept_trans; [exact K|by apply files_kept_same_fs]).
Qed.

Lemma downloadJob_run_keeps j c w :
  files_kept (DestinationPath j) w (downloadJob_run env j c w).1.2.
Proof.
  unfold downloadJob_run, bind, ret.
  pose proof (gcsStore_Download_keeps env (store c) (Hash j) (DestinationPath j) w)
    as K.
  destruct (gcsStore_Download env (store c) (Hash j) (DestinationPath j) w)
    as [[[e|] w1] e1]; cbn in *; [|exact K].
  destruct (errors_Is e ErrObjectNotExist); cbn; [|exact K].
  pose proof (originTier_keeps j c w1) as K2.
  destruct (originTier env j c w1) as [[oerr w2] e2]; cbn in *.
  by eapply files_kept_trans.
Qed.

Lemma downloadBlob_keeps c hash dest w :
  files_kept dest w (downloadBlob env c hash dest w).1.2.
Proof.
  destruct (jobs w !! hash) as [job|] eqn:J.
  - rewrite (downloadBlob_rejected env c hash dest w job J).
    apply files_kept_refl.
  - rewrite (downloadBlob_admitted env c hash dest w J).
    pose proof (downloadJob_run_keeps (mkJob hash dest) c
                  (admitted_world hash dest w)) as K.
    destruct (downloadJob_run _ _ _ _) as [[err w1] e1]. exact K.
Qed.

Lemma downloadBlob_jobs c hash dest w :
  jobs (downloadBlob env c hash dest w).1.2 = jobs w.
Proof.
  destruct (jobs w !! hash) as [job|] eqn:J.
  - by rewrite (downloadBlob_rejected env c hash dest w job J).
  - rewrite (downloadBlob_admitted env c hash dest w J).
    pose proof (downloadJob_run_jobs env (mkJob hash dest) c
                  (admitted_world hash dest w)) as HJ.
    destruct (downloadJob_run _ _ _ _) as [[err w1] e1]. cbn in *.
    rewrite HJ. by apply delete_insert_id.
Qed.

Lemma GetBlob_frame c hash w :
  let '(r, w', evs) := GetBlob env c hash w in
  files_kept (filepath_Join (BaseDir c) hash) w w' /\ jobs w' = jobs w.
Proof.
  unfold GetBlob, bind, ret.
  set (localPath := filepath_Join (BaseDir c) hash).
  destruct (os_Open env localPath w) as [[[f|oe] w1] e1] eqn:E;
    apply os_Open_world in E as [-> ->]; cbn.
  { split; [by apply files_kept_same_fs|reflexivity]. }
  destruct (os_IsNotExist oe); cbn;
    [|split; [by apply files_kept_same_fs|reflexivity]].
  pose proof (downloadBlob_keeps c hash localPath (tick w)) as K.
  pose proof (downloadBlob_jobs c hash localPath (tick w)) as J.
  destruct (downloadBlob env c hash localPath (tick w)) as [[[e|] w2] e2];
    cbn in *; [by split|].
  destruct (os_Open env localPath w2) as [[r w3] e3] eqn:E2.
  apply os_Open_world in E2 as [-> ->]. cbn. by split.
Qed.

Lemma originTier_bucket j c w k :
  k <> Hash j -> gcs (originTier env j c w).1.2 !! k = gcs w !! k.
Proof.
  intros Hk. unfold originTier, bind, ret, log_Info, emit.
  destruct (SourceForBlob (Hash j)) as [source|e0]; cbn; [|reflexivity].
  pose proof (downloadFromSource_cases env j source w) as D. cbv zeta in D.
  destruct (downloadFromSource env j source w) as [[[e|] w1] e1]; cbn;
    destruct D as (D & _); [by rewrite D|].
  pose proof (gcsStore_Upload_bucket env (store c) (DestinationPath j) (Hash j) w1)
    as U.
  destruct (gcsStore_Upload env (store c) (DestinationPath j) (Hash j) w1)
    as [[[e|] w2] e2]; cbn; destruct U as [U _];
    by rewrite (U k Hk), D.
Qed.

Lemma downloadJob_run_bucket j c w k :
  k <> Hash j -> gcs (downloadJob_run env j c w).1.2 !! k = gcs w !! k.
Proof.
  intros Hk. unfold downloadJob_run, bind, ret.
  pose proof (gcsStore_Download_cases env (store c) (Hash j) (DestinationPath j) w)
    as D.
  destruct (gcsStore_Download env (store c) (Hash j) (DestinationPath j) w)
    as [[[e|] w1] e1]; cbn; destruct D as (D & _); [|by rewrite D].
  destruct (errors_Is e ErrObjectNotExist); cbn; [|by rewrite D].
  pose proof (originTier_bucket j c w1 k Hk) as O.
  destruct (originTier env j c w1) as [[oerr w2] e2]; cbn in *.
  by rewrite O, D.
Qed.

Lemma GetBlob_bucket c hash w k :
  k <> hash -> gcs (GetBlob env c hash w).1.2 !! k = gcs w !! k.
Proof.
  intros Hk. unfold GetBlob, bind, ret.
  set (localPath := filepath_Join (BaseDir c) hash).
  destruct (os_Open env localPath w) as [[[f|oe] w1] e1] eqn:E;
    apply os_Open_world in E as [-> ->]; cbn; [reflexivity|].
  destruct (os_IsNotExist oe); cbn; [|reflexivity].
  assert (B : gcs (downloadBlob env c hash localPath (tick w)).1.2 !! k
              = gcs w !! k).
  { destruct (jobs (tick w) !! hash) as [job|] eqn:J.
    - by rewrite (downloadBlob_rejected env c hash localPath (tick w) job J).
    - rewrite (downloadBlob_admitted env c hash localPath (tick w) J).
      pose proof (downloadJob_run_bucket (mkJob hash localPath) c
                    (admitted_world hash localPath (tick w)) k Hk) as R.
      destruct (downloadJob_run _ _ _ _) as [[err w1] e1]. exact R. }
  destruct (downloadBlob env c hash localPath (tick w)) as [[[e|] w2] e2];
    cbn in *; [exact B|].
  destruct (os_Open env localPath w2) as [[r w3] e3] eqn:E2.
  apply os_Open_world in E2 as [-> ->]. exact B.
Qed.

(** X8. [GetBlob] touches nothing but the requested blob.  Whatever
    happens, every file that was there under a path other than the local
    path of the hash is still there with the same content, every object of
    the bucket under another key is as before, and the jobs map is as
    [GetBlob] found it. *)
Theorem GetBlob_touches_only_its_blob (c : blobCache) (hash : string)
    (w : World) :
  let '(r, w', evs) := GetBlob env c hash w in
  (forall p old, p <> filepath_Join (BaseDir c) hash ->
     fs w !! p = Some old -> fs w' !! p = Some old) /\
  (forall k, k <> hash -> gcs w' !! k = gcs w !! k) /\
  jobs w' = jobs w.
Proof.
  pose proof (GetBlob_frame c hash w) as F.
  pose proof (GetBlob_bucket c hash w) as B.
  destruct (GetBlob env c hash w) as [[r w'] evs].
  destruct F as [K J]. split; [exact K|]. split; [exact B|exact J].
Qed.

(** X9. A request served by [ServeHTTP], whatever its method, its path and
    its outcome, leaves the jobs map as it was and every file of the cache
    other than the one of the requested blob in place. *)
Theorem ServeHTTP_frame (c : blobCache) (r : Request) (w : World) :
  let hash :=
    hd EmptyString (strings_Split (strings_TrimPrefix (Path r) "/") slash) in
  let '(resp, w', evs) := ServeHTTP env c r w in
  jobs w' = jobs w /\
  (forall p old, p <> filepath_Join (BaseDir c) hash ->
     fs w !! p = Some old -> fs w' !! p = Some old).
Proof.
  intros hash. unfold ServeHTTP. fold hash.
  destruct (Z.of_nat _ =? 1); [|by split].
  destruct (decide (Method r = "GET")); [|by split].
  unfold serveGETBlob, bind, ret, log_Info, log_Error, emit, http_ServeFile.
  pose proof (GetBlob_frame c hash w) as H.
  destruct (GetBlob env c hash w) as [[[f|err] w1] e1]; cbn;
    destruct H as [K J]; [|by split].
  destruct (containsDotDot (Path r));
    [|destruct (strings_HasSuffix (Path r) "/index.html");
      [|destruct (fs w1 !! fname f)]];
    unfold file_Close; destruct (fclosed f); cbn;
    try destruct (fault env (clock w1)); cbn; by split.
Qed.

End Frame.

(** ** Callers side by side *)

Section SingleFlight.

Variable env : Env.
Variable c : blobCache.

(** Replacing a caller by one that stands in the pipeline as it did. *)
Lemma single_flight_same_standing w w' cs i caller caller' :
  cs !! i = Some caller ->
  in_pipeline caller' = in_pipeline caller ->
  jobs w' = jobs w ->
  single_flight w cs -> single_flight w' (<[i := caller']> cs).
Proof.
  intros Hi Hsame Hjobs (I1 & I2 & I3).
  assert (At : forall k x job,
            <[i := caller']> cs !! k = Some x -> in_pipeline x = Some job ->
            exists y, cs !! k = Some y /\ in_pipeline y = Some job).
  { intros k x job Hk Hx.
    apply list_lookup_insert_Some in Hk as [(-> & <- & _)|[_ Hk]]; eauto.
    exists caller. split; [assumption|congruence]. }
  repeat split.
  - intros k x job Hk Hx. rewrite Hjobs.
    destruct (At k x job Hk Hx) as (y & ? & ?). eauto.
  - intros k k' x x' job job' Hk Hk' Hx Hx' Heq.
    destruct (At k x job Hk Hx) as (y & ? & ?).
    destruct (At k' x' job' Hk' Hx') as (y' & ? & ?). eauto.
  - rewrite Hjobs in H. by destruct (I3 hash job H).
  - rewrite Hjobs in H. destruct (I3 hash job H) as (_ & k & y & Hk & Hy).
    destruct (decide (k = i)) as [->|Hne].
    + exists i, caller'. split.
      * apply list_lookup_insert_eq. by eapply lookup_lt_Some.
      * congruence.
    + exists k, y. split; [|assumption]. by rewrite list_lookup_insert_ne.
Qed.

Lemma single_flight_step st st' :
  caller_step env c st st' ->
  single_flight st.1 st.2 -> single_flight st'.1 st'.2.
Proof.
  intros Step. destruct Step as
    [i hash dest w cs job w' evs Hi Hadmit
    |i hash dest w cs err w' evs Hi Hadmit
    |i job w cs err w' evs Hi Hrun
    |i job err w cs w' evs Hi Hremove]; cbn.
  - (* admitted *)
    unfold admit_job in Hadmit.
    destruct (jobs w !! hash) eqn:J; [discriminate|].
    injection Hadmit as <- <- _.
    intros (I1 & I2 & I3).
    assert (Lt : (i < List.length cs)%nat) by by eapply lookup_lt_Some.
    assert (Other : forall k x job,
              cs !! k = Some x -> in_pipeline x = Some job -> Hash job <> hash).
    { intros k x job Hk Hx Heq. specialize (I1 k x job Hk Hx). congruence. }
    repeat split; cbn.
    + intros k x job Hk Hx.
      apply list_lookup_insert_Some in Hk as [(-> & <- & _)|[Hne Hk]].
      * injection Hx as <-. cbn. apply lookup_insert_eq.
      * rewrite lookup_insert_ne by (intros E; eapply Other; eauto).
        eauto.
    + intros k k' x x' job job' Hk Hk' Hx Hx' Heq.
      apply list_lookup_insert_Some in Hk as [(-> & <- & _)|[Hne Hk]];
        apply list_lookup_insert_Some in Hk' as [(-> & <- & _)|[Hne' Hk']];
        try reflexivity.
      * injection Hx as <-. cbn in Heq. exfalso. eapply Other; eauto.
      * injection Hx' as <-. cbn in Heq. exfalso. eapply Other; eauto.
      * eauto.
    + cbn in H.
      apply lookup_insert_Some in H as [[<- <-]|[Hne H]]; [reflexivity|].
      by destruct (I3 _ _ H).
    + cbn in H. apply lookup_insert_Some in H as [[<- <-]|[Hne H]].
      * exists i, (Downloading (mkJob hash dest)).
        split; [by apply list_lookup_insert_eq|reflexivity].
      * destruct (I3 _ _ H) as (_ & k & x & Hk & Hx).
        exists k, x. split; [|assumption].
        rewrite list_lookup_insert_ne; [assumption|].
        intros <-. rewrite Hi in Hk. injection Hk as <-. discriminate.
  - (* rejected *)
    unfold admit_job in Hadmit.
    destruct (jobs w !! hash) eqn:J; [|discriminate].
    injection Hadmit as _ <- _.
    by apply (single_flight_same_standing w w cs i (Calling hash dest)).
  - (* the pipeline *)
    apply (single_flight_same_standing w w' cs i (Downloading job));
      [assumption|reflexivity|].
    pose proof (downloadJob_run_jobs env job c w) as J.
    by rewrite Hrun in J.
  - (* removed *)
    unfold remove_job in Hremove. injection Hremove as <- _.
    intros (I1 & I2 & I3).
    assert (Other : forall k x job',
              k <> i -> cs !! k = Some x -> in_pipeline x = Some job' ->
              Hash job' <> Hash job).
    { intros k x job' Hne Hk Hx Heq.
      apply Hne. eapply (I2 k i x (Finishing job err)); eauto. }
    repeat split; cbn.
    + intros k x job' Hk Hx.
      apply list_lookup_insert_Some in Hk as [(-> & <- & _)|[Hne Hk]];
        [discriminate|].
      rewrite lookup_delete_ne by (intros E; eapply Other; eauto).
      eauto.
    + intros k k' x x' j1 j2 Hk Hk' Hx Hx' Heq.
      apply list_lookup_insert_Some in Hk as [(-> & <- & _)|[Hne Hk]];
        [discriminate|].
      apply list_lookup_insert_Some in Hk' as [(-> & <- & _)|[Hne' Hk']];
        [discriminate|].
      eauto.
    + cbn in H. apply lookup_delete_Some in H as [_ H]. by destruct (I3 _ _ H).
    + cbn in H. apply lookup_delete_Some in H as [Hne H].
      destruct (I3 _ _ H) as (Hh & k & x & Hk & Hx).
      exists k, x. split; [|assumption].
      rewrite list_lookup_insert_ne; [assumption|].
      intros <-. rewrite Hi in Hk. injection Hk as <-.
      injection Hx as <-. congruence.
Qed.

Lemma single_flight_steps st st' :
  caller_steps env c st st' ->
  single_flight st.1 st.2 -> single_flight st'.1 st'.2.
Proof.
  induction 1 as [st|st1 st2 st3 _ IH Step]; [tauto|].
  intros H. eapply single_flight_step; eauto.
Qed.

(** X10. Single flight.  Start with an empty jobs map and callers none of
    which is in the pipeline, and let them take their steps in any order.
    Then at every moment no two callers are in the pipeline for the same
    hash, the hashes of the jobs map are those of the callers in the
    pipeline, and once no caller is in the pipeline the map is empty. *)
Theorem downloadBlob_single_flight (w0 : World) (cs0 : list Caller)
    (w : World) (cs : list Caller) :
  jobs w0 = ∅ ->
  (forall i caller, cs0 !! i = Some caller -> in_pipeline caller = None) ->
  caller_steps env c (w0, cs0) (w, cs) ->
  (forall i i' caller caller' job job',
     cs !! i = Some caller -> cs !! i' = Some caller' ->
     in_pipeline caller = Some job -> in_pipeline caller' = Some job' ->
     Hash job = Hash job' -> i = i') /\
  (forall hash,
     is_Some (jobs w !! hash) <->
     exists i caller job,
       cs !! i = Some caller /\ in_pipeline caller = Some job /\
       Hash job = hash) /\
  ((forall i caller, cs !! i = Some caller -> in_pipeline caller = None) ->
   jobs w = ∅).
Proof.
  intros Empty Idle Steps.
  assert (Init : single_flight w0 cs0).
  { repeat split.
    - intros i caller job Hi Hc. rewrite (Idle i caller Hi) in Hc. discriminate.
    - intros i i' caller caller' job job' Hi _ Hc.
      rewrite (Idle i caller Hi) in Hc. discriminate.
    - rewrite Empty in H. by apply lookup_empty_Some in H.
    - rewrite Empty in H. by apply lookup_empty_Some in H. }
  destruct (single_flight_steps _ _ Steps Init) as (I1 & I2 & I3). cbn in *.
  split; [exact I2|]. split.
  - intros hash. split.
    + intros [job Hjob]. destruct (I3 hash job Hjob) as (Hh & i & x & ? & ?).
      by exists i, x, job.
    + intros (i & x & job & Hi & Hx & <-). exists job. eauto.
  - intros Done. apply map_empty. intros hash.
    destruct (jobs w !! hash) as [job|] eqn:J; [|reflexivity].
    destruct (I3 hash job J) as (_ & i & x & Hi & Hx).
    rewrite (Done i x Hi) in Hx. discriminate.
Qed.

End SingleFlight.

(** * Further properties of the model loader *)

Section LoaderFiles.

Variable env : Env.

Lemma kept_when_fresh (f f' : gmap string (list byte)) (t dest : string) :
  f !! t = None ->
  (forall p, p <> t -> p <> dest -> f' !! p = f !! p) ->
  forall p old, p <> dest -> f !! p = Some old -> f' !! p = Some old.
Proof.
  intros Fresh Same p old Hne Hp.
  destruct (decide (p = t)) as [->|Hpt]; [congruence|].
  by rewrite Same.
Qed.

Lemma downloadToFileNoRetry_files l url dest w :
  let reply := http_reply env (S (clock w)) url in
  let '(err, w', evs) := downloadToFileNoRetry env l url dest w in
  gcs w' = gcs w /\ jobs w' = jobs w /\
  files_kept dest w w' /\
  match err with
  | None => StatusCode reply = 200 /\ fs w' = <[dest := Body reply]> (fs w)
  | Some _ =>
      (logged "removing temp file" evs = false -> fs w' = fs w) /\
      (forall old, fs w !! dest = Some old -> fs w' !! dest = Some old)
  end.
Proof.
  unfold downloadToFileNoRetry, downloadToWriter, deferred_cleanup, when,
    http_NewRequest, http_Do, bind, ret, log_Info, log_Error, emit,
    os_CreateTemp, io_Copy, file_Close, os_Rename, os_Remove, files_kept.
  destruct (bad_url env url) eqn:B;
    repeat (run_step; try ask_env;
            try match goal with
              | |- context [StatusCode ?r =? 200] =>
                  destruct (Z.eqb_spec (StatusCode r) 200)
              end);
    repeat split; try reflexivity; try discriminate; try assumption;
    try (intros _; tidy_fs; reflexivity);
    try (tidy_fs; reflexivity);
    try tauto;
    try (match goal with
         | Hf : fs w !! ?t = None |- forall p old, _ =>
             apply (kept_when_fresh (fs w) _ t dest Hf);
             intros p Hpt Hpd; tidy_fs;
             rewrite ?lookup_insert_ne by congruence; reflexivity
         end);
    try (match goal with
         | Hf : fs w !! ?t = None |- forall old, _ =>
             intros old Hold;
             assert (t <> dest) by congruence;
             tidy_fs; rewrite ?lookup_insert_ne by assumption; assumption
         end).
Qed.

(** X11. One attempt of the model loader publishes or cleans up.  When
    [downloadToFileNoRetry] returns no error the origin answered 200 and the
    destination holds the whole body of the reply.  When it returns an error
    a destination that existed still has its content, whatever failed, and
    if the removal of the temporary file did not fail the file system is as
    it was.  In every case the other files are kept. *)
Theorem downloadToFileNoRetry_publishes_or_cleans_up (l : ModelLoader)
    (url destPath : string) (w : World) :
  let reply := http_reply env (S (clock w)) url in
  let '(err, w', evs) := downloadToFileNoRetry env l url destPath w in
  (forall p old, p <> destPath -> fs w !! p = Some old -> fs w' !! p = Some old) /\
  match err with
  | None => StatusCode reply = 200 /\ fs w' = <[destPath := Body reply]> (fs w)
  | Some _ =>
      (forall old, fs w !! destPath = Some old -> fs w' !! destPath = Some old) /\
      (logged "removing temp file" evs = false -> fs w' = fs w)
  end.
Proof.
  pose proof (downloadToFileNoRetry_files l url destPath w) as H.
  cbv zeta in *.
  destruct (downloadToFileNoRetry env l url destPath w) as [[[e|] w'] evs];
    destruct H as (_ & _ & K & H); (split; [exact K|]); tauto.
Qed.

Lemma downloadToFile_loop_files l url dest fuel :
  forall attempt w,
    let '(r, w', evs) := downloadToFile_loop env fuel l url dest attempt w in
    files_kept dest w w' /\ gcs w' = gcs w /\ jobs w' = jobs w /\
    match r with
    | None => True
    | Some None =>
        exists t,
          StatusCode (http_reply env t url) = 200 /\
          fs w' !! dest = Some (Body (http_reply env t url))
    | Some (Some _) =>
        (forall old, fs w !! dest = Some old -> fs w' !! dest = Some old) /\
        (logged "removing temp file" evs = false -> fs w' = fs w)
    end.
Proof.
  induction fuel as [|fuel IH]; intros attempt w; cbn.
  { split; [apply files_kept_refl|]. by repeat split. }
  unfold bind, ret, log_Error, emit.
  pose proof (downloadToFileNoRetry_files l url dest w) as H. cbv zeta in H.
  destruct (downloadToFileNoRetry env l url dest w) as [[[e|] w1] e1];
    destruct H as (G1 & J1 & K1 & H1); cbn.
  - destruct (attempt + 1 >=? maxDownloadAttempts l); cbn.
    + rewrite app_nil_r. repeat split; tauto.
    + specialize (IH (attempt + 1) w1).
      destruct (downloadToFile_loop env fuel l url dest (attempt + 1) w1)
        as [[r w'] evs].
      destruct IH as (K & G & J & IH), H1 as [Clean Old].
      split; [by eapply files_kept_trans|].
      split; [congruence|]. split; [congruence|].
      destruct r as [[e'|]|]; [|assumption|exact I].
      destruct IH as [Old' Clean']. split; [eauto|].
      rewrite logged_app. cbn. intros L.
      apply orb_false_elim in L as [L1 L2].
      rewrite (Clean' L2). by apply Clean.
  - destruct H1 as [St ->]. repeat split; try assumption.
    eexists. split; [exact St|]. apply lookup_insert_eq.
Qed.

End LoaderFiles.

(** ** The names of the chunks *)

Lemma list_ascii_of_string_app a b :
  list_ascii_of_string (a +:+ b) = list_ascii_of_string a ++ list_ascii_of_string b.
Proof.
  induction a as [|ch a IH]; [reflexivity|].
  change (ch :: list_ascii_of_string (a +:+ b)
          = ch :: list_ascii_of_string a ++ list_ascii_of_string b).
  by rewrite IH.
Qed.

Lemma string_app_inv_tail a b rest : a +:+ rest = b +:+ rest -> a = b.
Proof.
  intros H. apply (f_equal list_ascii_of_string) in H.
  rewrite !list_ascii_of_string_app in H. apply app_inv_tail in H.
  apply (f_equal string_of_list_ascii) in H.
  by rewrite !string_of_list_ascii_of_string in H.
Qed.

Lemma uint_of_zeros k s :
  NilEmpty.uint_of_string (string_of_list_ascii (repeat "0"%char k) +:+ s)
  = option_map (Nat.iter k Decimal.D0) (NilEmpty.uint_of_string s).
Proof.
  induction k as [|k IH].
  - change (NilEmpty.uint_of_string s
            = option_map (Nat.iter 0 Decimal.D0) (NilEmpty.uint_of_string s)).
    by destruct (NilEmpty.uint_of_string s).
  - change (NilEmpty.uint_of_string
              (String "0" (string_of_list_ascii (repeat "0"%char k) +:+ s))
            = option_map (Nat.iter (S k) Decimal.D0) (NilEmpty.uint_of_string s)).
    cbn. rewrite IH. by destruct (NilEmpty.uint_of_string s).
Qed.

Lemma of_uint_zeros k d : Nat.of_uint (Nat.iter k Decimal.D0 d) = Nat.of_uint d.
Proof. induction k as [|k IH]; [reflexivity|]. cbn. exact IH. Qed.

Lemma fmt_05d_read n :
  option_map Nat.of_uint (NilEmpty.uint_of_string (fmt_05d n)) = Some n.
Proof.
  unfold fmt_05d, fmt_d. rewrite uint_of_zeros, NilEmpty.usu. cbn.
  by rewrite of_uint_zeros, DecimalNat.Unsigned.of_to.
Qed.

Lemma fmt_05d_inj n m : fmt_05d n = fmt_05d m -> n = m.
Proof.
  intros H. pose proof (fmt_05d_read n) as Hn. rewrite H, fmt_05d_read in Hn.
  congruence.
Qed.

Lemma chunk_path_inj (baseName : string) (total i j : nat) :
  chunk_path baseName i total = chunk_path baseName j total -> i = j.
Proof.
  unfold chunk_path. intros H.
  apply String.app_inj in H. apply String.app_inj in H.
  apply string_app_inv_tail in H. apply fmt_05d_inj in H. congruence.
Qed.

(** X12. Different chunks of a split model go to different files: for one
    base name and one number of chunks, the paths built for two different
    indices differ, however many chunks there are. *)
Theorem chunk_paths_differ (baseName : string) (total i j : nat) :
  i <> j -> chunk_path baseName i total <> chunk_path baseName j total.
Proof. intros Hne E. apply Hne. by apply (chunk_path_inj baseName total). Qed.

Section Split.

Variable env : Env.
Variable JoinPath : string -> string -> string.

Lemma downloadToFileNoRetry_requests l url dest w :
  Forall (eq url) (origin_requests (downloadToFileNoRetry env l url dest w).2).
Proof.
  unfold downloadToFileNoRetry, bind, ret, os_CreateTemp.
  destruct (fault env (clock w)) eqn:F; cbn; [constructor|].
  destruct (List.find _ _) as [name|] eqn:Hfind; cbn; [|constructor].
  match goal with
  | |- context [downloadToWriter env url ?f ?w1] =>
      pose proof (downloadToWriter_cases env url f w1) as H;
      destruct (downloadToWriter env url f w1) as [[[e|] w2] e2]
  end; cbv zeta in H; destruct H as (_ & Rq & _); cbn.
  - call_cleanup. cbn. events.
    destruct Rq as [-> | ->]; repeat constructor.
  - unfold file_Close, os_Rename. cbn.
    repeat (run_step; try ask_env;
            try match goal with
              | |- context [match ?m !! ?k with _ => _ end] => destruct (m !! k)
              end;
            try call_cleanup);
      cbn; events; destruct Rq as [-> | ->]; repeat constructor.
Qed.

Lemma downloadToFile_loop_requests l url dest fuel :
  forall attempt w,
    Forall (eq url)
      (origin_requests (downloadToFile_loop env fuel l url dest attempt w).2).
Proof.
  induction fuel as [|fuel IH]; intros attempt w; cbn; [constructor|].
  unfold bind, ret, log_Error, emit.
  pose proof (downloadToFileNoRetry_requests l url dest w) as H.
  destruct (downloadToFileNoRetry env l url dest w) as [[[e|] w1] e1]; cbn in *.
  - destruct (attempt + 1 >=? maxDownloadAttempts l); cbn.
    + by rewrite app_nil_r.
    + specialize (IH (attempt + 1) w1).
      destruct (downloadToFile_loop env fuel l url dest (attempt + 1) w1)
        as [[r w'] evs]. cbn in *.
      rewrite origin_requests_app. apply Forall_app. split; [assumption|].
      exact IH.
  - by rewrite app_nil_r.
Qed.

Lemma downloadSplitModel_loop_keeps l baseName total fuel :
  forall chunks i chunkPaths w p old,
    (forall k, (k < List.length chunks)%nat ->
       p <> chunk_path baseName (i + k) total) ->
    fs w !! p = Some old ->
    fs (downloadSplitModel_loop env JoinPath fuel l baseName total i chunks
          chunkPaths w).1.2 !! p = Some old.
Proof.
  induction chunks as [|chunk rest IH]; intros i chunkPaths w p old Hp Hold; cbn.
  { assumption. }
  unfold bind, ret, downloadToFile.
  set (url := JoinPath (blobserverURL l) chunk).
  set (dest := chunk_path baseName i total).
  pose proof (downloadToFile_loop_files env l url dest fuel 0 w) as F.
  destruct (downloadToFile_loop env fuel l url dest 0 w) as [[r w1] e1].
  destruct F as (K & _).
  assert (Hold1 : fs w1 !! p = Some old).
  { apply K; [|assumption]. specialize (Hp 0%nat). rewrite Nat.add_0_r in Hp.
    apply Hp. cbn. lia. }
  destruct r as [[err|]|]; cbn; try assumption.
  specialize (IH (S i) (chunkPaths ++ [dest]) w1 p old).
  destruct (downloadSplitModel_loop env JoinPath fuel l baseName total (S i)
              rest (chunkPaths ++ [dest]) w1) as [[r w'] evs]. cbn in *.
  apply IH; [|assumption].
  intros k Hk. replace (S (i + k)) with (i + S k)%nat by lia. apply Hp. lia.
Qed.

Lemma downloadSplitModel_loop_spec l baseName total fuel :
  (Z.to_nat (Z.max 1 (maxDownloadAttempts l)) <= fuel)%nat ->
  forall chunks i chunkPaths w,
    let '(r, w', evs) :=
      downloadSplitModel_loop env JoinPath fuel l baseName total i chunks
        chunkPaths w in
    exists res,
      r = Some res /\
      match res with
      | inl paths =>
          paths = chunkPaths
                  ++ map (fun k => chunk_path baseName k total)
                         (seq i (List.length chunks)) /\
          (forall k chunk, chunks !! k = Some chunk ->
             exists t,
               let reply := http_reply env t (JoinPath (blobserverURL l) chunk) in
               StatusCode reply = 200 /\
               fs w' !! chunk_path baseName (i + k) total = Some (Body reply))
      | inr e =>
          exists k chunk cause,
            chunks !! k = Some chunk /\
            e = Wrapf "downloading chunk from %q: %w"
                  [JoinPath (blobserverURL l) chunk] cause /\
            Forall (fun u => In u (map (JoinPath (blobserverURL l))
                                       (take (S k) chunks)))
                   (origin_requests evs)
      end.
Proof.
  intros Hfuel. induction chunks as [|chunk rest IH]; intros i chunkPaths w; cbn.
  { exists (inl chunkPaths). split; [reflexivity|]. split; [by rewrite app_nil_r|].
    intros k chunk Hk. discriminate. }
  unfold bind, ret.
  set (url := JoinPath (blobserverURL l) chunk).
  set (dest := chunk_path baseName i total).
  pose proof (downloadToFile_loop_spec env l url dest fuel 0 w) as T.
  pose proof (downloadToFile_loop_files env l url dest fuel 0 w) as F.
  pose proof (downloadToFile_loop_requests l url dest fuel 0 w) as R.
  unfold downloadToFile.
  destruct (downloadToFile_loop env fuel l url dest 0 w) as [[r w1] e1].
  rewrite Z.sub_0_r in T. destruct (T Hfuel) as (res & -> & _).
  destruct F as (_ & _ & _ & F). cbn in R.
  destruct res as [err|]; cbn.
  - eexists. split; [reflexivity|]. exists 0%nat, chunk, err.
    split; [reflexivity|]. split; [reflexivity|].
    rewrite app_nil_r. cbn. eapply Forall_impl; [exact R|].
    intros u <-. by left.
  - specialize (IH (S i) (chunkPaths ++ [dest]) w1).
    pose proof (downloadSplitModel_loop_keeps l baseName total fuel rest (S i)
                  (chunkPaths ++ [dest]) w1 dest) as Keep.
    destruct (downloadSplitModel_loop env JoinPath fuel l baseName total (S i)
                rest (chunkPaths ++ [dest]) w1) as [[r w'] evs].
    destruct IH as (res & -> & IH). exists res. split; [reflexivity|].
    destruct res as [paths|e].
    + destruct IH as [-> Hfiles]. split; [by rewrite <- app_assoc|].
      intros [|k] ch Hk.
      * injection Hk as <-. destruct F as (t & St & Hfs).
        exists t. split; [exact St|]. rewrite Nat.add_0_r. cbn in Keep.
        apply Keep; [|exact Hfs].
        intros k _ E. apply chunk_path_inj in E. lia.
      * destruct (Hfiles k ch Hk) as (t & ? & ?). exists t.
        replace (i + S k)%nat with (S i + k)%nat by lia. by split.
    + destruct IH as (k & ch & cause & Hk & -> & Hreq).
      exists (S k), ch, cause. split; [exact Hk|]. split; [reflexivity|].
      rewrite origin_requests_app. apply Forall_app. split.
      * eapply Forall_impl; [exact R|]. intros u <-. by left.
      * eapply Forall_impl; [exact Hreq|]. intros u Hu. by right.
Qed.

(** X13. What [downloadToFile] leaves on disk.  Given fuel for all its
    attempts it returns; the files other than the destination are kept.  If
    it returns no error, the destination holds the whole body of a reply of
    status 200 to the URL.  If it returns an error, a destination that
    existed still has its content, and if no removal of a temporary file
    failed the file system is as it was before the first attempt. *)
Theorem downloadToFile_outcome_on_files (l : ModelLoader) (url destPath : string)
    (w : World) (fuel : nat) :
  (Z.to_nat (Z.max 1 (maxDownloadAttempts l)) <= fuel)%nat ->
  let '(r, w', evs) := downloadToFile env fuel l url destPath w in
  exists res,
    r = Some res /\
    (forall p old, p <> destPath -> fs w !! p = Some old -> fs w' !! p = Some old) /\
    match res with
    | None =>
        exists t,
          StatusCode (http_reply env t url) = 200 /\
          fs w' !! destPath = Some (Body (http_reply env t url))
    | Some _ =>
        (forall old, fs w !! destPath = Some old -> fs w' !! destPath = Some old) /\
        (logged "removing temp file" evs = false -> fs w' = fs w)
    end.
Proof.
  intros Hfuel. unfold downloadToFile.
  pose proof (downloadToFile_loop_spec env l url destPath fuel 0 w) as T.
  pose proof (downloadToFile_loop_files env l url destPath fuel 0 w) as F.
  destruct (downloadToFile_loop env fuel l url destPath 0 w) as [[r w'] evs].
  rewrite Z.sub_0_r in T. destruct (T Hfuel) as (res & -> & _).
  destruct F as (K & _ & _ & F).
  exists res. split; [reflexivity|]. split; [exact K|].
  destruct res; exact F.
Qed.

(** X14. [downloadSplitModel], given fuel for the attempts of each chunk.
    If it returns the paths, there is one for each chunk, in the order of
    the chunks, the path of chunk [k] being the one built from the base
    name, [k+1] and the number of chunks; and the file at that path holds
    the whole body of a reply of status 200 to the URL of that chunk.  If it
    returns an error, it is the error of the download of some chunk,
    wrapped, and requests were sent for the URLs of the chunks up to that
    one only: the chunks after the one that failed are not asked for. *)
Theorem downloadSplitModel_outcome (l : ModelLoader) (chunks : list string)
    (baseName : string) (w : World) (fuel : nat) :
  (Z.to_nat (Z.max 1 (maxDownloadAttempts l)) <= fuel)%nat ->
  let total := List.length chunks in
  let '(r, w', evs) :=
    downloadSplitModel env JoinPath fuel l chunks baseName w in
  exists res,
    r = Some res /\
    match res with
    | inl paths =>
        paths = map (fun k => chunk_path baseName k total) (seq 0 total) /\
        (forall k chunk, chunks !! k = Some chunk ->
           exists t,
             let reply := http_reply env t (JoinPath (blobserverURL l) chunk) in
             StatusCode reply = 200 /\
             fs w' !! chunk_path baseName k total = Some (Body reply))
    | inr e =>
        exists k chunk cause,
          chunks !! k = Some chunk /\
          e = Wrapf "downloading chunk from %q: %w"
                [JoinPath (blobserverURL l) chunk] cause /\
          Forall (fun u => In u (map (JoinPath (blobserverURL l))
                                     (take (S k) chunks)))
                 (origin_requests evs)
    end.
Proof.
  intros Hfuel total. unfold downloadSplitModel. fold total.
  pose proof (downloadSplitModel_loop_spec l baseName total fuel Hfuel chunks
                0%nat [] w) as H.
  destruct (downloadSplitModel_loop env JoinPath fuel l baseName total 0 chunks
              [] w) as [[r w'] evs].
  destruct H as (res & -> & H). exists res. split; [reflexivity|].
  destruct res as [paths|e]; exact H.
Qed.

End Split.

(** ** A blob served twice *)

Section Again.

Variable env : Env.

(** X15. A blob that was served is served again, the same and from the local
    cache.  If a request was answered 200 with some bytes, the same request
    made next, when the file can be opened, is answered 200 with the same
    bytes; nothing is asked of the bucket or of the origin, and file system,
    bucket and jobs map stay as the first request left them. *)
Theorem ServeHTTP_again_serves_the_same_bytes (c : blobCache) (r : Request)
    (w w' : World) (evs : list Event) (data : list byte) :
  ServeHTTP env c r w = (mkResponse 200 (Bytes data), w', evs) ->
  fault env (clock w') = None ->
  let '(resp2, w2, evs2) := ServeHTTP env c r w' in
  resp2 = mkResponse 200 (Bytes data) /\
  fs w2 = fs w' /\ gcs w2 = gcs w' /\ jobs w2 = jobs w' /\
  evs2 = [EvLog "serving blob %q"].
Proof.
  unfold ServeHTTP.
  destruct (Z.of_nat _ =? 1); [|discriminate].
  destruct (decide (Method r = "GET")); [|discriminate].
  set (hash := hd EmptyString _).
  unfold serveGETBlob, bind, ret, log_Info, log_Error, emit, http_ServeFile.
  destruct (GetBlob env c hash w) as [[[f|err] w1] e1] eqn:G; cbn;
    [|discriminate].
  apply GetBlob_ok in G as [Hname [data1 L]].
  destruct (containsDotDot (Path r)) eqn:D; cbn.
  { destruct (file_Close env f w1) as [[? ?] ?]; cbn. discriminate. }
  destruct (strings_HasSuffix (Path r) "/index.html") eqn:Sx; cbn.
  { unfold localRedirect.
    destruct (file_Close env f w1) as [[? ?] ?]; cbn. discriminate. }
  rewrite L.
  assert (Hfs : fs (file_Close env f w1).1.2 = fs w1).
  { unfold file_Close. destruct (fclosed f); cbn; [reflexivity|].
    by destruct (fault env (clock w1)). }
  destruct (file_Close env f w1) as [[? w1'] ?]; cbn in *.
  intros [= <- <- _] F.
  rewrite Hname in L. rewrite <- Hfs in L.
  rewrite (GetBlob_hit env c hash w1' _ _ _
             (os_Open_quiet_hit env _ w1' data1 F L)).
  cbn. rewrite L. unfold file_Close. cbn.
  by destruct (fault env (S (clock w1'))).
Qed.

End Again.

(** * Further properties of the launcher *)

Section LauncherFacts.

Variable LookupIP : nat -> string -> list string + error.

Lemma lookup_loop_spec host :
  forall fuel attempt w,
    0 <= attempt < 100 ->
    (Z.to_nat (100 - attempt) <= fuel)%nat ->
    let '(r, w', evs) := Launcher.lookup_loop LookupIP fuel host attempt w in
    exists n : nat,
      (1 <= n)%nat /\ Z.of_nat n <= 100 - attempt /\
      w' = Nat.iter n tick w /\
      sleeps evs = repeat 3 (n - 1) /\
      origin_requests evs = [] /\
      (forall k, (k < n - 1)%nat ->
         exists err, LookupIP (clock w + k)%nat host = inr err) /\
      match r with
      | Some (inl ip) =>
          exists ips, LookupIP (clock w + (n - 1))%nat host = inl (ip :: ips)
      | Some (inr e) =>
          (LookupIP (clock w + (n - 1))%nat host = inl [] /\
           e = Errorf "host %q resolved, but did not return IPs" [host]) \/
          (Z.of_nat n = 100 - attempt /\
           exists err,
             LookupIP (clock w + (n - 1))%nat host = inr err /\
             e = Wrapf "looking up host %q: %w" [host] err)
      | None => False
      end.
Proof.
  induction fuel as [|fuel IH]; intros attempt w Ha Hfuel; [lia|].
  cbn. unfold bind, ret, Launcher.net_LookupIP, log_Info, log_Warning, emit. cbn.
  destruct (LookupIP (clock w) host) as [[|ip ips]|err] eqn:L; cbn.
  - exists 1%nat. rewrite Nat.add_0_r. cbn.
    split; [lia|]. split; [lia|]. split; [reflexivity|].
    split; [reflexivity|]. split; [reflexivity|]. split; [intros k Hk; lia|].
    left. by split.
  - exists 1%nat. rewrite Nat.add_0_r. cbn.
    split; [lia|]. split; [lia|]. split; [reflexivity|].
    split; [reflexivity|]. split; [reflexivity|]. split; [intros k Hk; lia|].
    by exists ips.
  - rewrite Z.geb_leb.
    destruct (Z.leb_spec 100 (attempt + 1)) as [Last|More]; cbn.
    + exists 1%nat. rewrite Nat.add_0_r. cbn.
      split; [lia|]. split; [lia|]. split; [reflexivity|].
      split; [reflexivity|]. split; [reflexivity|]. split; [intros k Hk; lia|].
      right. split; [lia|]. by exists err.
    + specialize (IH (attempt + 1) (tick w)).
      destruct (Launcher.lookup_loop LookupIP fuel host (attempt + 1) (tick w))
        as [[r w'] evs].
      destruct IH as (n & Hn & Hle & -> & Hs & Hr & Hfail & Hres); [lia|lia|].
      exists (S n).
      split; [lia|]. split; [lia|].
      split; [by rewrite Nat.iter_succ_r|].
      split.
      { change (sleeps (_ :: EvSleep 3 :: evs)) with (3 :: sleeps evs).
        rewrite Hs. replace (S n - 1)%nat with (S (n - 1)) by lia. reflexivity. }
      split; [exact Hr|].
      split.
      { intros [|k] Hk.
        - rewrite Nat.add_0_r. by exists err.
        - destruct (Hfail k) as [e He]; [lia|]. exists e.
          cbn in He. by replace (clock w + S k)%nat with (S (clock w + k)) by lia. }
      replace (clock w + (S n - 1))%nat with (S (clock w + (n - 1))) by lia.
      cbn in Hres.
      destruct r as [[ip|e]|]; [exact Hres| |exact Hres].
      destruct Hres as [H|[Hn' H]]; [by left|right]. split; [lia|exact H].
Qed.

Lemma iter_tick_fs n w :
  fs (Nat.iter n tick w) = fs w /\ gcs (Nat.iter n tick w) = gcs w /\
  jobs (Nat.iter n tick w) = jobs w /\
  clock (Nat.iter n tick w) = (n + clock w)%nat.
Proof.
  induction n as [|n IH]; [done|].
  rewrite Nat.iter_succ. destruct IH as (F & G & J & C). cbn.
  rewrite F, G, J, C. done.
Qed.

Lemma hosts_loop_spec fuel rpcPort :
  (100 <= fuel)%nat ->
  forall count i rpcHosts w,
    let '(r, w', evs) :=
      Launcher.hosts_loop LookupIP fuel count i rpcPort rpcHosts w in
    fs w' = fs w /\ gcs w' = gcs w /\ jobs w' = jobs w /\
    (clock w <= clock w' <= clock w + 100 * count)%nat /\
    Forall (fun s => s = 3) (sleeps evs) /\
    origin_requests evs = [] /\
    match r with
    | Some (inl hosts) =>
        exists ips,
          List.length ips = count /\
          hosts = rpcHosts ++ map (fun ip => ip +:+ ":" +:+ fmt_int rpcPort) ips /\
          (forall k ip, ips !! k = Some ip ->
             exists t rest,
               (clock w <= t < clock w')%nat /\
               LookupIP t (hostTemplate (i + k)) = inl (ip :: rest))
    | Some (inr e) =>
        exists k,
          (k < count)%nat /\
          (e = Errorf "host %q resolved, but did not return IPs"
                 [hostTemplate (i + k)] \/
           exists err,
             e = Wrapf "looking up host %q: %w" [hostTemplate (i + k)] err)
    | None => False
    end.
Proof.
  intros Hfuel. induction count as [|count IH]; intros i rpcHosts w; cbn.
  { split; [done|]. split; [done|]. split; [done|]. split; [lia|].
    split; [constructor|]. split; [done|].
    exists []. split; [done|]. split; [by rewrite app_nil_r|].
    intros k ip Hk. discriminate. }
  unfold bind, ret.
  pose proof (lookup_loop_spec (hostTemplate i) fuel 0 w) as L.
  destruct (Launcher.lookup_loop LookupIP fuel (hostTemplate i) 0 w)
    as [[r w1] e1].
  destruct L as (n & Hn & Hle & -> & Hs & Hr & Hfail & Hres); [lia|lia|].
  destruct (iter_tick_fs n w) as (Hfs & Hgcs & Hjobs & Hclock).
  destruct r as [[ip|e]|]; [| |done]; cbn.
  - specialize (IH (S i) (rpcHosts ++ [ip +:+ ":" +:+ fmt_int rpcPort])
                  (Nat.iter n tick w)).
    destruct (Launcher.hosts_loop LookupIP fuel count (S i) rpcPort
                (rpcHosts ++ [ip +:+ ":" +:+ fmt_int rpcPort]) (Nat.iter n tick w))
      as [[r w'] evs].
    destruct IH as (Ifs & Igcs & Ijobs & Iclock & Isl & Irq & Ires).
    rewrite Ifs, Igcs, Ijobs, Hfs, Hgcs, Hjobs, Hclock in *.
    split; [done|]. split; [done|]. split; [done|]. split; [lia|].
    rewrite sleeps_app, origin_requests_app, Hs, Hr, Irq.
    split. { apply Forall_app. split; [|exact Isl]. apply List.Forall_forall.
             intros x Hx. by apply repeat_spec in Hx. }
    split; [done|].
    destruct r as [[hosts|e]|]; [| |done].
    + destruct Ires as (ips & Hlen & -> & Hips).
      destruct Hres as [rest Hres].
      exists (ip :: ips). split; [cbn; lia|]. split; [by rewrite <- app_assoc|].
      intros [|k] ip' Hk.
      * injection Hk as <-. exists (clock w + (n - 1))%nat, rest.
        rewrite Nat.add_0_r. split; [lia|exact Hres].
      * destruct (Hips k ip' Hk) as (t & rest' & Ht & Hl).
        exists t, rest'. replace (i + S k)%nat with (S i + k)%nat by lia.
        split; [lia|exact Hl].
    + destruct Ires as (k & Hk & He). exists (S k). split; [lia|].
      replace (i + S k)%nat with (S i + k)%nat by lia. exact He.
  - rewrite Hfs, Hgcs, Hjobs, Hclock, app_nil_r, Hs, Hr.
    split; [done|]. split; [done|]. split; [done|]. split; [lia|].
    split. { apply List.Forall_forall. intros x Hx. by apply repeat_spec in Hx. }
    split; [done|]. exists 0%nat. rewrite Nat.add_0_r. split; [lia|].
    destruct Hres as [[_ ->]|[_ (err & _ & ->)]]; [by left|right; by exists err].
Qed.

(** X16. The launcher looks a worker up until it resolves, at most 100
    times and 3 seconds apart.  Given fuel for 100 iterations the loop
    returns after [n] lookups, [n] between 1 and 100, having slept 3 seconds
    after each of the first [n-1], all of which failed.  It returns the first
    address of the first answer that is not an error; an answer without
    addresses is an error at once, not retried; and the error of a lookup is
    returned, wrapped, only when it is the 100th. *)
Theorem lookup_of_a_worker_is_retried (host : string) (w : World) (fuel : nat) :
  (100 <= fuel)%nat ->
  let '(r, w', evs) := Launcher.lookup_loop LookupIP fuel host 0 w in
  exists (n : nat) res,
    r = Some res /\
    (1 <= n <= 100)%nat /\
    clock w' = (clock w + n)%nat /\
    sleeps evs = repeat 3 (n - 1) /\
    (forall k, (k < n - 1)%nat ->
       exists err, LookupIP (clock w + k)%nat host = inr err) /\
    match res with
    | inl ip =>
        exists ips, LookupIP (clock w + (n - 1))%nat host = inl (ip :: ips)
    | inr e =>
        (LookupIP (clock w + (n - 1))%nat host = inl [] /\
         e = Errorf "host %q resolved, but did not return IPs" [host]) \/
        (n = 100%nat /\
         exists err,
           LookupIP (clock w + (n - 1))%nat host = inr err /\
           e = Wrapf "looking up host %q: %w" [host] err)
    end.
Proof.
  intros Hfuel.
  pose proof (lookup_loop_spec host fuel 0 w) as L.
  destruct (Launcher.lookup_loop LookupIP fuel host 0 w) as [[r w'] evs].
  destruct L as (n & Hn & Hle & -> & Hs & _ & Hfail & Hres); [lia|lia|].
  destruct (iter_tick_fs n w) as (_ & _ & _ & Hclock).
  destruct r as [res|]; [|done].
  exists n, res. split; [reflexivity|]. split; [lia|]. split; [lia|].
  split; [exact Hs|]. split; [exact Hfail|].
  destruct res as [ip|e]; [exact Hres|].
  destruct Hres as [H|[Hn' H]]; [by left|right]. split; [lia|exact H].
Qed.

End LauncherFacts.

Lemma fmt_int_rpcPort : fmt_int 50052 = "50052".
Proof. vm_compute. reflexivity. Qed.

Arguments downloadToFile : simpl never.
Arguments downloadSplitModel : simpl never.
Arguments Launcher.lookup_loop : simpl never.
Arguments Launcher.hosts_loop : simpl never.

Section LauncherRun.

Variable env : Env.
Variable JoinPath : string -> string -> string.
Variable url_Parse : string -> string + error.
Variable LookupIP : nat -> string -> list string + error.
Variable cmd_Start : string -> list string -> list string -> M (option error).
Variable cmd_Wait : M (option error).

(** X17. What a launcher that returns without error has done.  Given fuel
    for 100 iterations of its loops [run] returns.  If it returns no error,
    llama-server was started, on the model and with the arguments left on
    the command line, and its [--rpc] argument lists four addresses, the
    k-th being the first address of an answer to a lookup of worker k,
    followed by port 50052.  The model is the first chunk when chunks are
    given, else the file downloaded when the model is a URL, else the model
    as given.  When llama-server was started the files it needs were there:
    the downloaded model held the body of a reply of status 200 to its URL,
    and each chunk file the body of such a reply to the URL of the chunk. *)
Theorem run_starts_llama_server_on_the_model (p : Process) (w : World)
    (fuel : nat) :
  (100 <= fuel)%nat ->
  let llmModel := flag_StringVar p "llm-model" (getenv p "LLM_MODEL") in
  let llmChunks := flag_StringVar p "llm-chunks" (getenv p "LLM_CHUNKS") in
  let blobserver :=
    flag_StringVar p "blobserver"
      (if decide (getenv p "BLOBSERVER" = EmptyString) then "http://blobserver"
       else getenv p "BLOBSERVER") in
  let chunks := strings_Split llmChunks ","%char in
  let basePath := filepath_Join (temp_dir p) "model" in
  let localPath := filepath_Join (temp_dir p) "model.bin" in
  let model :=
    if decide (llmChunks = EmptyString) then
      if Launcher.is_url llmModel then localPath else llmModel
    else chunk_path basePath 0 (List.length chunks) in
  let '(r, w', evs) :=
    Launcher.run env JoinPath url_Parse LookupIP cmd_Start cmd_Wait fuel p w in
  exists res,
    r = Some res /\
    (res = None ->
     exists blobserverURL rpcHosts w1 w2 e2,
       url_Parse blobserver = inl blobserverURL /\
       cmd_Start "/llama-server"
         (["--model"; model; "--host"; "0.0.0.0"; "--jinja"; "--verbose";
           "--rpc"; strings_Join rpcHosts ","] ++ flag_args p)
         (environ p ++ ["LLAMA_ARG_FLASH_ATTN=yes"; "LLAMA_ARG_N_GPU_LAYERS=999"])
         w1 = (None, w2, e2) /\
       List.length rpcHosts = 4%nat /\
       (forall k host, rpcHosts !! k = Some host ->
          exists t ip rest,
            LookupIP t (hostTemplate k) = inl (ip :: rest) /\
            host = ip +:+ ":50052") /\
       (llmChunks = EmptyString -> Launcher.is_url llmModel = true ->
        exists t,
          StatusCode (http_reply env t llmModel) = 200 /\
          fs w1 !! model = Some (Body (http_reply env t llmModel))) /\
       (llmChunks <> EmptyString ->
        forall k chunk, chunks !! k = Some chunk ->
          exists t,
            let reply := http_reply env t (JoinPath blobserverURL chunk) in
            StatusCode reply = 200 /\
            fs w1 !! chunk_path basePath k (List.length chunks)
              = Some (Body reply))).
Proof.
  intros Hfuel llmModel llmChunks blobserver chunks basePath localPath model.
  unfold Launcher.run. cbv zeta.
  fold llmModel llmChunks blobserver chunks basePath localPath.
  destruct (url_Parse blobserver) as [u|perr] eqn:P;
    [|eexists; split; [reflexivity|discriminate]].
  set (l := mkModelLoader u 5).
  assert (Hl : (Z.to_nat (Z.max 1 (maxDownloadAttempts l)) <= fuel)%nat)
    by (cbn; lia).
  unfold bind, ret, log_Info, log_Warning, emit.
  (* the model given as a URL *)
  destruct (Launcher.is_url llmModel) eqn:U;
    [ unfold downloadToFile;
      pose proof (downloadToFile_loop_spec env l llmModel localPath fuel 0 w) as T;
      pose proof (downloadToFile_loop_files env l llmModel localPath fuel 0 w) as F;
      destruct (downloadToFile_loop env fuel l llmModel localPath 0 w)
        as [[r1 w1] e1];
      rewrite Z.sub_0_r in T; destruct (T Hl) as (res & -> & _);
      destruct F as (_ & _ & _ & F);
      destruct res as [err|]; cbn;
      [eexists; split; [reflexivity|discriminate]|]
    | cbn ].
  (* the model given in chunks *)
  all: unfold model; destruct (decide (llmChunks = EmptyString)) as [C|C];
    [ cbn
    | match goal with
      | |- context [downloadSplitModel _ _ _ _ _ _ ?w0] =>
          pose proof (downloadSplitModel_loop_spec env JoinPath l basePath
                        (List.length chunks) fuel Hl chunks 0%nat [] w0) as S2;
          unfold downloadSplitModel;
          destruct (downloadSplitModel_loop env JoinPath fuel l basePath
                      (List.length chunks) 0 chunks [] w0) as [[r2 w2] e2];
          destruct S2 as (res2 & -> & S2);
          destruct res2 as [paths|err2]; cbn;
          [destruct S2 as [-> S2]
          |eexists; split; [reflexivity|discriminate]]
      end;
      pose proof (split_on_length (Ascii.eqb ","%char) llmChunks) as Hn;
      fold (strings_Split llmChunks ","%char) in Hn; fold chunks in Hn;
      rewrite Hn; cbn [seq map hd app]; rewrite <- Hn ].
  (* the workers *)
  all: match goal with
       | |- context [Launcher.hosts_loop _ _ _ _ _ _ ?w0] =>
           pose proof (hosts_loop_spec LookupIP fuel 50052 Hfuel 4 0%nat [] w0)
             as H3;
           destruct (Launcher.hosts_loop LookupIP fuel 4 0 50052 [] w0)
             as [[r3 w3] e3];
           destruct H3 as (Hfs & _ & _ & _ & _ & _ & H3);
           destruct r3 as [[hosts|err3]|]; [| |done]; cbn;
           [|eexists; split; [reflexivity|discriminate]]
       end.
  (* the server *)
  all: match goal with
       | |- context [cmd_Start ?a ?b ?c ?w0] =>
           destruct (cmd_Start a b c w0) as [[[serr|] w4] e4] eqn:St; cbn;
           [eexists; split; [reflexivity|discriminate]|]
       end.
  all: destruct (cmd_Wait w4) as [[[werr|] w5] e5]; cbn;
    (eexists; split; [reflexivity|]); [discriminate|intros _].
  all: destruct H3 as (ips & Hlen & -> & Hips).
  all: exists u, (map (fun ip => ip +:+ ":" +:+ fmt_int 50052) ips), w3, w4, e4.
  all: split; [reflexivity|]. 
  all: split; [exact St|].
  all: split; [by rewrite length_map|].
  all: split;
    [ intros k host Hk; rewrite list_lookup_fmap in Hk;
      destruct (ips !! k) as [ip|] eqn:E; [|discriminate];
      injection Hk as <-; destruct (Hips k ip E) as (t & rest & _ & L);
      exists t, ip, rest; split; [exact L|]; by rewrite fmt_int_rpcPort |].
  all: rewrite Hfs.
  all: split;
    [ first [ intros _ _; exact F | intros ?; contradiction
            | intros _ ?; discriminate ]
    | first [ intros ?; contradiction | intros _ k chunk Hk; exact (S2 k chunk Hk) ] ].
Qed.
End LauncherRun.

(** * Runs of the further scenarios *)

(** The launcher of a pod whose model comes in two chunks, while the name
    service learns of the workers late: both chunks are fetched from the
    blob server, thirty lookups fail and are retried, and llama-server
    runs. *)
Example launcher_of_a_pod :
  let '(r, w', evs) :=
    Launcher.run quiet_env join_url parse_any (slow_dns 40) llama_starts
      llama_exits 100 pod empty_world in
  r = Some None /\
  fs w' !! "/tmp/model-00001-of-00002.gguf" = Some gguf /\
  fs w' !! "/tmp/model-00002-of-00002.gguf" = Some gguf /\
  origin_requests evs = ["http://blobserver/0a1b"; "http://blobserver/2c3d"] /\
  sleeps evs = repeat 3 30.
Proof. vm_compute. repeat split. Qed.

(** X3, witness. *)
Lemma gcsStore_Upload_skips_existing_witness :
  let '(err, w', evs) :=
    gcsStore_Upload quiet_env (store cache) gemma_path gemma_hash synced_world in
  gcs w' = gcs synced_world /\
  (fault quiet_env (clock synced_world) = None ->
   fault quiet_env (S (clock synced_world)) = None ->
   fs synced_world !! gemma_path <> None -> err = None).
Proof.
  apply (gcsStore_Upload_skips_existing quiet_env (store cache) gemma_path
           gemma_hash synced_world gguf).
  - reflexivity.
  - reflexivity.
Defined.

(** X4, witness. *)
Lemma GetBlob_local_hit_witness :
  GetBlob quiet_env cache gemma_hash warm_world
    = (inl (mkFile (filepath_Join (BaseDir cache) gemma_hash) false),
       tick warm_world, []).
Proof.
  apply (GetBlob_local_hit quiet_env cache gemma_hash warm_world gguf).
  - reflexivity.
  - reflexivity.
Defined.

(** X5, witness: the first call fetched the blob from the origin. *)
Lemma GetBlob_second_time_is_local_witness :
  let w' := (GetBlob quiet_env cache gemma_hash empty_world).1.2 in
  GetBlob quiet_env cache gemma_hash w'
    = (inl (mkFile (filepath_Join (BaseDir cache) gemma_hash) false), tick w', []).
Proof.
  apply (GetBlob_second_time_is_local quiet_env cache gemma_hash empty_world
           (mkFile gemma_path false)
           (GetBlob quiet_env cache gemma_hash empty_world).1.2
           (GetBlob quiet_env cache gemma_hash empty_world).2).
  - vm_compute. reflexivity.
  - reflexivity.
Defined.

(** X6, witness. *)
Lemma GetBlob_durable_hit_witness :
  let '(r, w', evs) := GetBlob quiet_env cache gemma_hash stored_world in
  r = inl (mkFile gemma_path false) /\
  fs w' = <[gemma_path := gguf]> (fs stored_world) /\
  gcs w' = gcs stored_world /\ jobs w' = jobs stored_world /\
  origin_requests evs = [] /\ upload_requests evs = [].
Proof.
  apply (GetBlob_durable_hit quiet_env cache gemma_hash stored_world gguf).
  - intros t. reflexivity.
  - reflexivity.
  - reflexivity.
  - reflexivity.
  - intros t. vm_compute. discriminate.
Defined.

(** X7, witness. *)
Lemma GetBlob_origin_fetch_fills_both_caches_witness :
  let '(r, w', evs) := GetBlob quiet_env cache gemma_hash empty_world in
  r = inl (mkFile gemma_path false) /\
  fs w' = <[gemma_path := gguf]> (fs empty_world) /\
  gcs w' = <[gemma_hash := gguf]> (gcs empty_world) /\
  jobs w' = jobs empty_world /\
  origin_requests evs = [gemma_url].
Proof.
  apply (GetBlob_origin_fetch_fills_both_caches quiet_env cache gemma_hash
           empty_world gemma_url).
  - intros t. reflexivity.
  - reflexivity.
  - reflexivity.
  - reflexivity.
  - vm_compute. reflexivity.
  - reflexivity.
  - reflexivity.
  - intros t. vm_compute. discriminate.
Defined.

(** X10, witness: of two callers asking for the gemma blob, the first is
    admitted and the second is turned away. *)
Lemma downloadBlob_single_flight_witness :
  let w := busy_world in
  let cs :=
    [Downloading gemma_job;
     Returned (Some (Errorf "download of %q already in progress" [gemma_hash]))] in
  (forall i i' caller caller' job job',
     cs !! i = Some caller -> cs !! i' = Some caller' ->
     in_pipeline caller = Some job -> in_pipeline caller' = Some job' ->
     Hash job = Hash job' -> i = i') /\
  (forall hash,
     is_Some (jobs w !! hash) <->
     exists i caller job,
       cs !! i = Some caller /\ in_pipeline caller = Some job /\
       Hash job = hash) /\
  ((forall i caller, cs !! i = Some caller -> in_pipeline caller = None) ->
   jobs w = ∅).
Proof.
  apply (downloadBlob_single_flight quiet_env cache empty_world two_callers).
  - reflexivity.
  - intros [|[|i]] caller; cbn; intros [= <-] || intros [=]; reflexivity.
  - eapply steps_more; [eapply steps_more; [apply steps_none|]|].
    + apply (step_admitted quiet_env cache 0 gemma_hash gemma_path empty_world
               two_callers gemma_job busy_world []); reflexivity.
    + apply (step_rejected quiet_env cache 1 gemma_hash gemma_path busy_world
               [Downloading gemma_job; Calling gemma_hash gemma_path]
               (Errorf "download of %q already in progress" [gemma_hash])
               busy_world []); reflexivity.
Defined.

(** X12, witness. *)
Lemma chunk_paths_differ_witness :
  chunk_path "/tmp/model" 0 2 <> chunk_path "/tmp/model" 1 2.
Proof. apply (chunk_paths_differ "/tmp/model" 2 0 1). lia. Defined.

(** X13, witness. *)
Lemma downloadToFile_outcome_on_files_witness :
  let '(r, w', evs) :=
    downloadToFile quiet_env 5 loader gemma_url "/tmp/model.bin" empty_world in
  exists res,
    r = Some res /\
    (forall p old, p <> "/tmp/model.bin" -> fs empty_world !! p = Some old ->
       fs w' !! p = Some old) /\
    match res with
    | None =>
        exists t,
          StatusCode (http_reply quiet_env t gemma_url) = 200 /\
          fs w' !! "/tmp/model.bin" = Some (Body (http_reply quiet_env t gemma_url))
    | Some _ =>
        (forall old, fs empty_world !! "/tmp/model.bin" = Some old ->
           fs w' !! "/tmp/model.bin" = Some old) /\
        (logged "removing temp file" evs = false -> fs w' = fs empty_world)
    end.
Proof.
  apply (downloadToFile_outcome_on_files quiet_env loader gemma_url
           "/tmp/model.bin" empty_world 5).
  vm_compute. lia.
Defined.

(** X14, witness. *)
Lemma downloadSplitModel_outcome_witness :
  let chunks := ["0a1b"; "2c3d"] in
  let '(r, w', evs) :=
    downloadSplitModel quiet_env join_url 5 loader chunks "/tmp/model"
      empty_world in
  exists res,
    r = Some res /\
    match res with
    | inl paths =>
        paths = map (fun k => chunk_path "/tmp/model" k 2) (seq 0 2) /\
        (forall k chunk, chunks !! k = Some chunk ->
           exists t,
             let reply :=
               http_reply quiet_env t (join_url (blobserverURL loader) chunk) in
             StatusCode reply = 200 /\
             fs w' !! chunk_path "/tmp/model" k 2 = Some (Body reply))
    | inr e =>
        exists k chunk cause,
          chunks !! k = Some chunk /\
          e = Wrapf "downloading chunk from %q: %w"
                [join_url (blobserverURL loader) chunk] cause /\
          Forall (fun u => In u (map (join_url (blobserverURL loader))
                                     (take (S k) chunks)))
                 (origin_requests evs)
    end.
Proof.
  apply (downloadSplitModel_outcome quiet_env join_url loader ["0a1b"; "2c3d"]
           "/tmp/model" empty_world 5).
  vm_compute. lia.
Defined.

(** X15, witness: the gemma blob, fetched from the origin by the first
    request, is served from the local cache by the second. *)
Lemma ServeHTTP_again_serves_the_same_bytes_witness :
  let r := mkRequest "GET" ("/" +:+ gemma_hash) in
  let w' := (ServeHTTP quiet_env cache r empty_world).1.2 in
  let '(resp2, w2, evs2) := ServeHTTP quiet_env cache r w' in
  resp2 = mkResponse 200 (Bytes gguf) /\
  fs w2 = fs w' /\ gcs w2 = gcs w' /\ jobs w2 = jobs w' /\
  evs2 = [EvLog "serving blob %q"].
Proof.
  apply (ServeHTTP_again_serves_the_same_bytes quiet_env cache
           (mkRequest "GET" ("/" +:+ gemma_hash)) empty_world
           (ServeHTTP quiet_env cache (mkRequest "GET" ("/" +:+ gemma_hash))
              empty_world).1.2
           (ServeHTTP quiet_env cache (mkRequest "GET" ("/" +:+ gemma_hash))
              empty_world).2
           gguf).
  - vm_compute. reflexivity.
  - reflexivity.
Defined.

(** X16, witness. *)
Lemma lookup_of_a_worker_is_retried_witness :
  let host := hostTemplate 0 in
  let '(r, w', evs) :=
    Launcher.lookup_loop (slow_dns 2) 100 host 0 empty_world in
  exists (n : nat) res,
    r = Some res /\
    (1 <= n <= 100)%nat /\
    clock w' = (clock empty_world + n)%nat /\
    sleeps evs = repeat 3 (n - 1) /\
    (forall k, (k < n - 1)%nat ->
       exists err, slow_dns 2 (clock empty_world + k)%nat host = inr err) /\
    match res with
    | inl ip =>
        exists ips,
          slow_dns 2 (clock empty_world + (n - 1))%nat host = inl (ip :: ips)
    | inr e =>
        (slow_dns 2 (clock empty_world + (n - 1))%nat host = inl [] /\
         e = Errorf "host %q resolved, but did not return IPs" [host]) \/
        (n = 100%nat /\
         exists err,
           slow_dns 2 (clock empty_world + (n - 1))%nat host = inr err /\
           e = Wrapf "looking up host %q: %w" [host] err)
    end.
Proof.
  apply (lookup_of_a_worker_is_retried (slow_dns 2) (hostTemplate 0)
           empty_world 100).
  lia.
Defined.

(** X17, witness. *)
Lemma run_starts_llama_server_on_the_model_witness :
  let llmModel := flag_StringVar pod "llm-model" (getenv pod "LLM_MODEL") in
  let llmChunks := flag_StringVar pod "llm-chunks" (getenv pod "LLM_CHUNKS") in
  let blobserver :=
    flag_StringVar pod "blobserver"
      (if decide (getenv pod "BLOBSERVER" = EmptyString) then "http://blobserver"
       else getenv pod "BLOBSERVER") in
  let chunks := strings_Split llmChunks ","%char in
  let basePath := filepath_Join (temp_dir pod) "model" in
  let localPath := filepath_Join (temp_dir pod) "model.bin" in
  let model :=
    if decide (llmChunks = EmptyString) then
      if Launcher.is_url llmModel then localPath else llmModel
    else chunk_path basePath 0 (List.length chunks) in
  let '(r, w', evs) :=
    Launcher.run quiet_env join_url parse_any (slow_dns 40) llama_starts
      llama_exits 100 pod empty_world in
  exists res,
    r = Some res /\
    (res = None ->
     exists blobserverURL rpcHosts w1 w2 e2,
       parse_any blobserver = inl blobserverURL /\
       llama_starts "/llama-server"
         (["--model"; model; "--host"; "0.0.0.0"; "--jinja"; "--verbose";
           "--rpc"; strings_Join rpcHosts ","] ++ flag_args pod)
         (environ pod
            ++ ["LLAMA_ARG_FLASH_ATTN=yes"; "LLAMA_ARG_N_GPU_LAYERS=999"])
         w1 = (None, w2, e2) /\
       List.length rpcHosts = 4%nat /\
       (forall k host, rpcHosts !! k = Some host ->
          exists t ip rest,
            slow_dns 40 t (hostTemplate k) = inl (ip :: rest) /\
            host = ip +:+ ":50052") /\
       (llmChunks = EmptyString -> Launcher.is_url llmModel = true ->
        exists t,
          StatusCode (http_reply quiet_env t llmModel) = 200 /\
          fs w1 !! model = Some (Body (http_reply quiet_env t llmModel))) /\
       (llmChunks <> EmptyString ->
        forall k chunk, chunks !! k = Some chunk ->
          exists t,
            let reply := http_reply quiet_env t (join_url blobserverURL chunk) in
            StatusCode reply = 200 /\
            fs w1 !! chunk_path basePath k (List.length chunks)
              = Some (Body reply))).
Proof.
  apply (run_starts_llama_server_on_the_model quiet_env join_url parse_any
           (slow_dns 40) llama_starts llama_exits pod empty_world 100).
  lia.
Defined.
